(** * Verification of the training-loop orchestrator (trainer/trainer.py)

    A shallow embedding of [Trainer]: its attributes, the process-wide batch
    timer, the file system holding checkpoints, standard output, the warning
    log and the tensors it mutates in place are one explicit state; every
    method is a computation in a state-and-exception monad in which the state
    survives a raised exception, as it does in Python. *)

From Stdlib Require Import ZArith List String Ascii Bool Lia SpecFloat.
From stdpp Require Import base gmap strings list.

Open Scope Z_scope.

(** ** Scalars and tensors *)

(** Tensor elements are IEEE-754 binary32 values (the default dtype). *)
Definition f32 : Type := spec_float.
Definition f32_add : f32 -> f32 -> f32 := SFadd 24 128.
Definition f32_mul : f32 -> f32 -> f32 := SFmul 24 128.
Definition f32_zero : f32 := S754_zero false.
Definition f32_of_Z (z : Z) : f32 := binary_normalize 24 128 z 0 false.

Definition f32_isnan (x : f32) : bool :=
  match x with S754_nan => true | _ => false end.

Definition f32_isfinite (x : f32) : bool :=
  match x with S754_nan | S754_infinity _ => false | _ => true end.

(** [max] as torch computes it: a NaN operand wins. *)
Definition f32_max (a b : f32) : f32 :=
  if f32_isnan a then a
  else if f32_isnan b then b
  else if SFltb a b then b else a.

Record tensor (A : Type) : Type := Tensor { shape : list nat; data : list A }.
Arguments Tensor {A} _ _.
Arguments shape {A} _.
Arguments data {A} _.

Definition FloatTensor : Type := tensor f32.
Definition LongTensor : Type := tensor Z.

Definition numel (s : list nat) : nat := fold_right Nat.mul 1%nat s.

(** [torch.isnan(t).any()] *)
Definition isnan_any (t : FloatTensor) : bool := existsb f32_isnan (data t).

(** A tensor holds a non-finite value when some element is NaN or infinite. *)
Definition has_nonfinite (t : FloatTensor) : bool :=
  existsb (fun x => negb (f32_isfinite x)) (data t).

(** [c * t] for a Python number [c] *)
Definition scalar_mul (c : f32) (t : FloatTensor) : FloatTensor :=
  Tensor (shape t) (map (f32_mul c) (data t)).

(** ** Exceptions and results *)

(** Paths list their components from the leaf up to the root, so that the
    parent of a path is its tail. *)
Definition Path : Type := list string.

Inductive exn : Type :=
| StopIteration
| IndexError
| ZeroDivisionError
| RuntimeError (msg : string)
| PermissionError (p : Path)
| FileNotFoundError (p : Path)
| FileExistsError (p : Path)
| NotADirectoryError (p : Path)
| IsADirectoryError (p : Path)
| UnpicklingError (p : Path)
| OtherError (msg : string).

Inductive result (A : Type) : Type :=
| Ok (a : A)
| Raise (e : exn).
Arguments Ok {A} _.
Arguments Raise {A} _.

(** ** The model *)

Record Model : Type := mkModel {
  model_class : string;
  training : bool;
  named_parameters : list (string * FloatTensor)
}.

Definition set_training (b : bool) (m : Model) : Model :=
  mkModel (model_class m) b (named_parameters m).

Definition set_parameters (ps : list (string * FloatTensor)) (m : Model) : Model :=
  mkModel (model_class m) (training m) ps.

(** [model.state_dict()]: an ordered dictionary from parameter names to
    tensors. *)
Definition StateDict : Type := list (string * FloatTensor).

Definition model_state_dict (m : Model) : StateDict := named_parameters m.

Fixpoint sd_lookup (key : string) (sd : StateDict) : option FloatTensor :=
  match sd with
  | [] => None
  | (k, v) :: rest => if String.eqb k key then Some v else sd_lookup key rest
  end.

Definition shape_eqb (s1 s2 : list nat) : bool := bool_decide (s1 = s2).

(** [torch.nn.Module.load_state_dict]: every parameter of the model whose
    key is in the checkpoint and whose shape agrees is overwritten in place
    as the parameters are visited; a disagreeing shape is recorded as an
    error message and that parameter is skipped; under [strict] a key of the
    model missing from the checkpoint, or a key of the checkpoint unknown to
    the model, is recorded as well. Only after the visit is a [RuntimeError]
    raised when a message was recorded. *)
Definition load_param (sd : StateDict) (np : string * FloatTensor)
  : string * FloatTensor :=
  match sd_lookup (fst np) sd with
  | Some input =>
      if shape_eqb (shape input) (shape (snd np))
      then (fst np, Tensor (shape (snd np)) (data input))
      else np
  | None => np
  end.

Definition size_mismatch_msgs (sd : StateDict) (ps : list (string * FloatTensor))
  : list string :=
  flat_map (fun np : string * FloatTensor =>
    match sd_lookup (fst np) sd with
    | Some input =>
        if shape_eqb (shape input) (shape (snd np)) then []
        else ["size mismatch for " +:+ fst np]
    | None => []
    end) ps.

Definition missing_keys (sd : StateDict) (ps : list (string * FloatTensor))
  : list string :=
  flat_map (fun np : string * FloatTensor =>
    match sd_lookup (fst np) sd with
    | Some _ => []
    | None => [fst np]
    end) ps.

Definition unexpected_keys (sd : StateDict) (ps : list (string * FloatTensor))
  : list string :=
  flat_map (fun kv : string * FloatTensor =>
    match sd_lookup (fst kv) ps with
    | Some _ => []
    | None => [fst kv]
    end) sd.

Definition key_msgs (header : string) (keys : list string) : list string :=
  match keys with
  | [] => []
  | _ => [header +:+ String.concat ", " keys]
  end.

Definition load_state_dict (sd : StateDict) (strict : bool) (m : Model)
  : Model * result unit :=
  let ps := named_parameters m in
  let m' := set_parameters (map (load_param sd) ps) m in
  let error_msgs :=
    (if strict
     then key_msgs "Missing key(s) in state_dict: " (missing_keys sd ps)
          ++ key_msgs "Unexpected key(s) in state_dict: " (unexpected_keys sd ps)
     else [])
    ++ size_mismatch_msgs sd ps in
  match error_msgs with
  | [] => (m', Ok tt)
  | _ => (m', Raise (RuntimeError
            ("Error(s) in loading state_dict for " +:+ model_class m +:+ ": "
             +:+ String.concat "; " error_msgs)))
  end.

(** ** Checkpoints and the file system *)

Record Checkpoint : Type := mkCheckpoint {
  ck_model_state : StateDict;
  ck_epoch : Z;
  ck_env_name : string
}.

Inductive file_content : Type :=
| Pickled (c : Checkpoint)
| OtherContent.

Inductive node : Type :=
| Dir (writable : bool)
| File (writable : bool) (content : file_content).

(** The file system maps paths to nodes. The root directory [[]] always
    exists; every other path exists when the map has a node for it. *)
Definition fs_lookup (p : Path) (f : gmap (list string) node) : option node :=
  match p with
  | [] => Some (match f !! p with Some (Dir w) => Dir w | _ => Dir true end)
  | _ => f !! p
  end.

(** [Path.exists()] *)
Definition path_exists (p : Path) (f : gmap (list string) node) : bool :=
  match fs_lookup p f with Some _ => true | None => false end.

(** [Path.is_dir()] *)
Definition is_dir (p : Path) (f : gmap (list string) node) : bool :=
  match fs_lookup p f with Some (Dir _) => true | _ => false end.

(** [os.mkdir(p)] *)
Definition os_mkdir (p : Path) (f : gmap (list string) node)
  : result (gmap (list string) node) :=
  match p with
  | [] => Raise (FileExistsError p)
  | _ :: parent =>
      match fs_lookup parent f with
      | None => Raise (FileNotFoundError p)
      | Some (File _ _) => Raise (NotADirectoryError p)
      | Some (Dir w) =>
          match fs_lookup p f with
          | Some _ => Raise (FileExistsError p)
          | None => if w then Ok (<[p := Dir true]> f)
                    else Raise (PermissionError p)
          end
      end
  end.

(** [Path.mkdir(parents=False, exist_ok=True)] *)
Definition mkdir_exist_ok (p : Path) (f : gmap (list string) node)
  : result (gmap (list string) node) :=
  match os_mkdir p f with
  | Ok f' => Ok f'
  | Raise e => if is_dir p f then Ok f else Raise e
  end.

(** [Path.mkdir(parents=True, exist_ok=True)]: a missing parent is created
    first, then the directory itself; any other failure is re-raised unless
    the path is a directory already. *)
Fixpoint mkdir_parents (p : Path) (f : gmap (list string) node)
  : result (gmap (list string) node) :=
  match os_mkdir p f with
  | Ok f' => Ok f'
  | Raise (FileNotFoundError q) =>
      match p with
      | [] => Raise (FileNotFoundError q)
      | _ :: parent =>
          match mkdir_parents parent f with
          | Ok f1 => mkdir_exist_ok p f1
          | Raise e => Raise e
          end
      end
  | Raise e => if is_dir p f then Ok f else Raise e
  end.

(** [torch.save(obj, path)]: opens the file for writing and pickles [obj]. *)
Definition torch_save (c : Checkpoint) (p : Path) (f : gmap (list string) node)
  : result (gmap (list string) node) :=
  match p with
  | [] => Raise (IsADirectoryError p)
  | _ :: parent =>
      match fs_lookup parent f with
      | None => Raise (FileNotFoundError p)
      | Some (File _ _) => Raise (NotADirectoryError p)
      | Some (Dir wd) =>
          match fs_lookup p f with
          | Some (Dir _) => Raise (IsADirectoryError p)
          | Some (File w _) =>
              if w then Ok (<[p := File true (Pickled c)]> f)
              else Raise (PermissionError p)
          | None =>
              if wd then Ok (<[p := File true (Pickled c)]> f)
              else Raise (PermissionError p)
          end
      end
  end.

(** [torch.load(path)] *)
Definition torch_load (p : Path) (f : gmap (list string) node)
  : result Checkpoint :=
  match fs_lookup p f with
  | None => Raise (FileNotFoundError p)
  | Some (Dir _) => Raise (IsADirectoryError p)
  | Some (File _ (Pickled c)) => Ok c
  | Some (File _ OtherContent) => Raise (UnpicklingError p)
  end.

(** ** Collaborators' data *)

Definition Batch : Type := (FloatTensor * LongTensor)%type.

(** A data loader: [dl_epochs i] are the batches its [i]-th iterator yields
    (a shuffling loader yields another order each time), [dl_len] is
    [len(loader)], [dl_iters] counts the iterators created so far and
    [dl_fetched] the batches handed out. *)
Record DataLoader : Type := mkLoader {
  dl_epochs : nat -> list Batch;
  dl_len : nat;
  dl_iters : nat;
  dl_fetched : nat
}.

Definition loader_started (l : DataLoader) : DataLoader :=
  mkLoader (dl_epochs l) (dl_len l) (S (dl_iters l)) (dl_fetched l).

Definition loader_fetched (l : DataLoader) : DataLoader :=
  mkLoader (dl_epochs l) (dl_len l) (dl_iters l) (S (dl_fetched l)).

(** The loss class and its superclasses, for [isinstance]. *)
Record Criterion : Type := mkCriterion {
  criterion_class : string;
  criterion_bases : list string
}.

Definition isinstance (c : Criterion) (cls : string) : bool :=
  bool_decide (cls ∈ criterion_class c :: criterion_bases c).

Inductive Accuracy : Type :=
| AccuracyArgmax
| AccuracyEmbedding
| AccuracyOther (cls : string).

Definition is_AccuracyArgmax (a : Accuracy) : bool :=
  match a with AccuracyArgmax => true | _ => false end.

Record MaskTrainer : Type := mkMaskTrainer {
  mt_accuracy_measure : Accuracy;
  mt_image_shape : list nat
}.

(** Modelled from the spec: [monitor.batch_timer.timer] (the EpochTimer) is
    not among the sources. The spec describes a process-wide counter of
    completed epochs and batches-per-epoch, initialised with the training
    loader's batch count, advancing by exactly one per completed epoch and
    overwritten on restore. It is modelled as a count of finished batches:
    an epoch is completed every [batches_in_epoch] batches. *)
Record BatchTimer : Type := mkTimer {
  batches_in_epoch : Z;
  batch_id : Z
}.

Definition timer_init (n : Z) (t : BatchTimer) : BatchTimer :=
  mkTimer n (batch_id t).

Definition timer_epoch (t : BatchTimer) : Z := batch_id t / batches_in_epoch t.

Definition timer_set_epoch (epoch : Z) (t : BatchTimer) : BatchTimer :=
  mkTimer (batches_in_epoch t) (batches_in_epoch t * epoch).

Definition timer_tick (t : BatchTimer) : BatchTimer :=
  mkTimer (batches_in_epoch t) (batch_id t + 1).

(** Modelled from the spec: [monitor.monitor.Monitor] (the MonitoringSink) is
    not among the sources. The spec gives its callback contract: it is only
    pushed to, [open] binds it to a run, and [is_active] tells whether a
    stream is open. Pushes are recorded in the trace of the world. *)
Record Monitor : Type := mkMonitor {
  is_active : bool;
  monitor_env : string;
  monitor_layers : list string
}.

Definition monitor_open (env : string) (m : Monitor) : Monitor :=
  mkMonitor true env (monitor_layers m).

Definition monitor_register_layer (prefix : string) (m : Monitor) : Monitor :=
  mkMonitor (is_active m) (monitor_env m) (monitor_layers m ++ [prefix]).

(** Modelled from the spec: [monitor.var_online.MeanOnline] (the
    RunningMeanAccumulator) is not among the sources. It keeps a count and
    the accumulated mean; [get_mean] on zero observations is an error. *)
Record MeanOnline : Type := mkMean {
  mean_count : Z;
  mean_value : option f32
}.

Definition MeanOnline_new : MeanOnline := mkMean 0 None.

Definition mean_update (v : f32) (m : MeanOnline) : MeanOnline :=
  let n := mean_count m + 1 in
  mkMean n
    (Some (match mean_value m with
           | None => v
           | Some mu =>
               f32_add mu (SFdiv 24 128 (SFsub 24 128 v mu) (f32_of_Z n))
           end)).

Definition mean_get_mean (m : MeanOnline) : result f32 :=
  match mean_value m with
  | Some mu => Ok mu
  | None => Raise (OtherError "get_mean on zero observations")
  end.

(** Observable calls, in the order they are made. *)
Inductive Event : Type :=
| EvProgressBar (epoch : Z)
| EvMonitorOpen (env : string)
| EvMonitorClear
| EvMonitorLog (text : string)
| EvMonitorLogModel
| EvMonitorLogSelf
| EvRegisterLayer (prefix : string)
| EvBatchFinished
| EvUpdateLoss (mode : string)
| EvUpdateSparsity (mode : string)
| EvUpdateDensity (mode : string)
| EvEpochFinished
| EvPlotAdversarial
| EvPlotMask
| EvMutualInfoPrepare (layers : Z)
| EvFullForwardPass (instrumented : bool)
| EvAccuracySave
| EvTorchSave (p : Path).

(** ** The state *)

Record Trainer : Type := mkTrainer {
  model : Model;
  criterion : Criterion;
  dataset_name : string;
  trainer_class : string;
  checkpoint_dir : Path;
  train_loader : DataLoader;
  env_name : string;
  accuracy_measure : Accuracy;
  monitor : Monitor;
  mask_trainer : MaskTrainer
}.

Definition set_model (m : Model) (t : Trainer) : Trainer :=
  mkTrainer m (criterion t) (dataset_name t) (trainer_class t)
    (checkpoint_dir t) (train_loader t) (env_name t) (accuracy_measure t)
    (monitor t) (mask_trainer t).

Definition set_train_loader (l : DataLoader) (t : Trainer) : Trainer :=
  mkTrainer (model t) (criterion t) (dataset_name t) (trainer_class t)
    (checkpoint_dir t) l (env_name t) (accuracy_measure t)
    (monitor t) (mask_trainer t).

Definition set_env_name (e : string) (t : Trainer) : Trainer :=
  mkTrainer (model t) (criterion t) (dataset_name t) (trainer_class t)
    (checkpoint_dir t) (train_loader t) e (accuracy_measure t)
    (monitor t) (mask_trainer t).

Definition set_monitor (m : Monitor) (t : Trainer) : Trainer :=
  mkTrainer (model t) (criterion t) (dataset_name t) (trainer_class t)
    (checkpoint_dir t) (train_loader t) (env_name t) (accuracy_measure t)
    m (mask_trainer t).

(** What lives outside the trainer object: the process-wide timer, the
    environment ([torch.cuda.is_available()], today's date), the file system,
    standard output, the warnings issued, the tensors that are updated in
    place (addressed by their index) and the trace of calls. *)
Record World : Type := mkWorld {
  timer : BatchTimer;
  cuda_is_available : bool;
  today : string;
  fs : gmap (list string) node;
  stdout : list string;
  warnings : list string;
  heap : list FloatTensor;
  trace : list Event
}.

Definition set_timer (x : BatchTimer) (w : World) : World :=
  mkWorld x (cuda_is_available w) (today w) (fs w) (stdout w) (warnings w)
    (heap w) (trace w).

Definition set_fs (x : gmap (list string) node) (w : World) : World :=
  mkWorld (timer w) (cuda_is_available w) (today w) x (stdout w) (warnings w)
    (heap w) (trace w).

Definition set_stdout (x : list string) (w : World) : World :=
  mkWorld (timer w) (cuda_is_available w) (today w) (fs w) x (warnings w)
    (heap w) (trace w).

Definition set_warnings (x : list string) (w : World) : World :=
  mkWorld (timer w) (cuda_is_available w) (today w) (fs w) (stdout w) x
    (heap w) (trace w).

Definition set_heap (x : list FloatTensor) (w : World) : World :=
  mkWorld (timer w) (cuda_is_available w) (today w) (fs w) (stdout w)
    (warnings w) x (trace w).

Definition set_trace (x : list Event) (w : World) : World :=
  mkWorld (timer w) (cuda_is_available w) (today w) (fs w) (stdout w)
    (warnings w) (heap w) x.

Record State : Type := mkState { self : Trainer; world : World }.

Definition on_self (f : Trainer -> Trainer) (st : State) : State :=
  mkState (f (self st)) (world st).

Definition on_world (f : World -> World) (st : State) : State :=
  mkState (self st) (f (world st)).

(** ** The monad: state that survives exceptions *)

Definition M (S A : Type) : Type := S -> result A * S.

#[global] Instance M_ret (S : Type) : MRet (M S) :=
  fun A (a : A) (st : S) => (Ok a, st).

#[global] Instance M_bind (S : Type) : MBind (M S) :=
  fun A B (k : A -> M S B) (c : M S A) (st : S) =>
    match c st with
    | (Ok a, st1) => k a st1
    | (Raise e, st1) => (Raise e, st1)
    end.

Definition raise {S A : Type} (e : exn) : M S A := fun st => (Raise e, st).

Definition lift {S A : Type} (r : result A) : M S A := fun st => (r, st).

Definition gets {S A : Type} (f : S -> A) : M S A := fun st => (Ok (f st), st).

Definition modify {S : Type} (f : S -> S) : M S unit := fun st => (Ok tt, f st).

(** [try: c except <the exceptions h accepts>: h e] *)
Definition try_except {S A : Type} (c : M S A) (h : exn -> option (M S A))
  : M S A :=
  fun st =>
    match c st with
    | (Ok a, st1) => (Ok a, st1)
    | (Raise e, st1) =>
        match h e with
        | Some k => k st1
        | None => (Raise e, st1)
        end
    end.

(** [for x in l: body x] *)
Fixpoint for_each {S A : Type} (l : list A) (body : A -> M S unit) : M S unit :=
  match l with
  | [] => mret tt
  | x :: rest => body x ;; for_each rest body
  end.

(** [for _ in range(n): body] *)
Fixpoint repeat_n {S : Type} (n : nat) (body : M S unit) : M S unit :=
  match n with
  | O => mret tt
  | Datatypes.S k => body ;; repeat_n k body
  end.

(** [range(a, b)] *)
Definition range (a b : Z) : list Z :=
  map (fun i : nat => a + Z.of_nat i) (seq 0 (Z.to_nat (b - a))).

Definition print (s : string) : M State unit :=
  modify (on_world (fun w => set_stdout (stdout w ++ [s]) w)).

(** [warnings.warn(s)] under the default filter: recorded, never raised. *)
Definition warn (s : string) : M State unit :=
  modify (on_world (fun w => set_warnings (warnings w ++ [s]) w)).

Definition emit (e : Event) : M State unit :=
  modify (on_world (fun w => set_trace (trace w ++ [e]) w)).

(** Tensors updated in place are cells of the heap. *)
Definition alloc (t : FloatTensor) : M State nat :=
  fun st => (Ok (length (heap (world st))),
             on_world (fun w => set_heap (heap w ++ [t]) w) st).

Definition deref (r : nat) : M State FloatTensor :=
  fun st => match heap (world st) !! r with
            | Some t => (Ok t, st)
            | None => (Raise (OtherError "dangling tensor"), st)
            end.

(** [t.clone()] *)
Definition clone (r : nat) : M State nat := t ← deref r; alloc t.

(** [t.cuda()]: a copy on the device when CUDA is available. *)
Definition to_device (r : nat) : M State nat :=
  cuda ← gets (fun st => cuda_is_available (world st));
  if (cuda : bool) then clone r else mret r.

(** [t += u] without gradient tracking: the elements of [t] are overwritten;
    the shape of [t] never changes, and an operand of another shape is
    rejected (a gradient has the shape of its tensor). *)
Definition iadd (r : nat) (u : FloatTensor) : M State unit :=
  t ← deref r;
  if shape_eqb (shape u) (shape t)
  then modify (on_world (fun w =>
         set_heap (<[r := Tensor (shape t)
                           (zip_with f32_add (data t) (data u))]> (heap w)) w))
  else raise (RuntimeError "output with this shape doesn't match the broadcast shape").

(** ** Tensor operations used by the mask hook *)

(** [t[i]]: the [i]-th slice along the first dimension. *)
Definition index0 {A : Type} (t : tensor A) (i : nat) : result (tensor A) :=
  match shape t with
  | [] => Raise IndexError
  | n :: rest =>
      if (i <? n)%nat
      then Ok (Tensor rest (take (numel rest) (drop (i * numel rest) (data t))))
      else Raise IndexError
  end.

(** [t.max(dim=1)], the values: the maximum along the second dimension. *)
Definition max_dim1 (t : FloatTensor) : result FloatTensor :=
  match shape t with
  | n :: c :: rest =>
      match c with
      | O => Raise (RuntimeError "cannot perform reduction function max on tensor with no elements")
      | Datatypes.S c' =>
          let R := numel rest in
          let at_ (i j r : nat) := nth ((i * c + j) * R + r)%nat (data t) f32_zero in
          Ok (Tensor (n :: rest)
                (flat_map (fun i => map (fun r =>
                   fold_left (fun acc j => f32_max acc (at_ i j r))
                             (seq 1 c') (at_ i O r)) (seq 0 R)) (seq 0 n)))
      end
  | _ => Raise IndexError
  end.

Definition f32_gt (x best : f32) : bool :=
  if f32_isnan best then false
  else if f32_isnan x then true
  else SFltb best x.

Fixpoint argmax_from (l : list f32) (i best_i : nat) (best : f32) : nat :=
  match l with
  | [] => best_i
  | x :: rest =>
      if f32_gt x best then argmax_from rest (S i) i x
      else argmax_from rest (S i) best_i best
  end.

(** [t.argmax()]: the index, in the flattened tensor, of the first maximum. *)
Definition argmax (t : FloatTensor) : result nat :=
  match data t with
  | [] => Raise (RuntimeError "cannot perform reduction function argmax on a tensor with no elements")
  | x :: rest => Ok (argmax_from rest 1 0 x)
  end.

(** ** The collaborators *)

(** What the orchestrator delegates to. [train_batch] is the abstract method
    a subclass supplies; the model's forward pass, the loss, automatic
    differentiation, the accuracy strategy, the mask learner and the
    full-dataset forward pass are computations of other modules. Each may
    raise. [loss_backward] gives the gradient that [loss.backward()] leaves
    in [images.grad]. [find_named_layers] and [get_data_loader] are helpers
    of the repository whose code is not among the sources. *)
Record Collaborators : Type := mkCollaborators {
  train_batch : Model -> FloatTensor -> LongTensor
                -> Model * result (FloatTensor * f32);
  model_forward : Model -> FloatTensor -> result FloatTensor;
  criterion_forward : Criterion -> FloatTensor -> LongTensor -> result f32;
  loss_backward : Model -> Criterion -> FloatTensor -> LongTensor
                  -> result FloatTensor;
  predict_proba : Accuracy -> FloatTensor -> result FloatTensor;
  plot_mask : Model -> MaskTrainer -> FloatTensor -> LongTensor -> result unit;
  full_forward_pass : bool -> Model -> result (FloatTensor * LongTensor);
  find_named_layers : Model -> list string;
  get_data_loader : string -> bool -> DataLoader
}.

Record AdversarialExamples : Type := mkAdversarialExamples {
  original : nat;
  adversarial : nat;
  labels : LongTensor
}.

(** The arguments of [Trainer.__init__]; [arg_class] is the name of the
    subclass being instantiated. *)
Record InitArgs : Type := mkInitArgs {
  arg_model : Model;
  arg_criterion : Criterion;
  arg_dataset_name : string;
  arg_accuracy_measure : option Accuracy;
  arg_env_suffix : string;
  arg_checkpoint_dir : Path;
  arg_class : string
}.

Definition path_str (p : Path) : string := String.concat "/" (rev p).

(** ** The methods of [Trainer] *)

Section Methods.

Context (C : Collaborators).

(** [iter(self.train_loader)] *)
Definition iter_train_loader : M State (list Batch) :=
  l ← gets (fun st => train_loader (self st));
  modify (on_self (set_train_loader (loader_started l)));;
  mret (dl_epochs l (dl_iters l)).

(** [next(it)] on an iterator of the training loader *)
Definition next_batch (it : list Batch) : M State Batch :=
  match it with
  | [] => raise StopIteration
  | b :: _ =>
      modify (on_self (fun t => set_train_loader (loader_fetched (train_loader t)) t));;
      mret b
  end.

(** Modelled from the spec: [utils.prepare.prepare_eval] is not among the
    sources. The spec describes it as capturing the current mode and forcing
    evaluation mode; the captured mode is restored by [mode_restore]. *)
Definition prepare_eval : M State bool :=
  m ← gets (fun st => model (self st));
  modify (on_self (set_model (set_training false m)));;
  mret (training m).

(** Modelled from the spec: [mode_saved.restore(model)] puts the captured
    mode back. *)
Definition mode_restore (mode_saved : bool) : M State unit :=
  modify (on_self (fun t => set_model (set_training mode_saved (model t)) t)).

(** [self.checkpoint_dir / (self.env_name + '.pt')]: the file name is one
    component under the checkpoint directory. *)
Definition checkpoint_path (t : Trainer) : Path :=
  (env_name t +:+ ".pt") :: checkpoint_dir t.

Definition state_dict : M State Checkpoint :=
  st ← gets id;
  mret (mkCheckpoint (model_state_dict (model (self st)))
                     (timer_epoch (timer (world st)))
                     (env_name (self st))).

Definition put_fs (f : gmap (list string) node) : M State unit :=
  modify (on_world (set_fs f)).

Definition save : M State unit :=
  p ← gets (fun st => checkpoint_path (self st));
  f ← gets (fun st => fs (world st));
  f1 ← lift (mkdir_parents (tail p) f);
  put_fs f1;;
  try_except
    (c ← state_dict;
     emit (EvTorchSave p);;
     f2 ← lift (torch_save c p f1);
     put_fs f2)
    (fun error =>
       match error with
       | PermissionError q => Some (print ("Permission denied: " +:+ path_str q))
       | _ => None
       end).

(** [self.monitor.open(env_name=...)] *)
Definition monitor_open_env (env : string) : M State unit :=
  modify (on_self (fun t => set_monitor (monitor_open env (monitor t)) t));;
  emit (EvMonitorOpen env).

(** [self.model.load_state_dict(sd, strict=strict)]: what was copied into
    the model before the error stays copied. *)
Definition model_load_state_dict (sd : StateDict) (strict : bool) : M State unit :=
  fun st =>
    let (m', r) := load_state_dict sd strict (model (self st)) in
    (r, on_self (set_model m') st).

Definition restore (checkpoint_path_arg : option Path) (strict : bool)
  : M State (option Checkpoint) :=
  p ← match checkpoint_path_arg with
      | None => gets (fun st => checkpoint_path (self st))
      | Some p => mret p
      end;
  f ← gets (fun st => fs (world st));
  if negb (path_exists p f)
  then print ("Checkpoint '" +:+ path_str p +:+ "' doesn't exist. Nothing to restore.");;
       mret None
  else
    checkpoint_state ← lift (torch_load p f);
    loaded ← try_except
      (model_load_state_dict (ck_model_state checkpoint_state) strict;;
       mret true)
      (fun error =>
         match error with
         | RuntimeError msg =>
             Some (print ("Error is occurred while restoring " +:+ path_str p
                          +:+ ": " +:+ msg);;
                   mret false)
         | _ => None
         end);
    if (loaded : bool)
    then
      modify (on_self (set_env_name (ck_env_name checkpoint_state)));;
      modify (on_world (fun w => set_timer (timer_set_epoch (ck_epoch checkpoint_state) (timer w)) w));;
      env ← gets (fun st => env_name (self st));
      monitor_open_env env;;
      print ("Restored model state from " +:+ path_str p +:+ ".");;
      mret (Some checkpoint_state)
    else mret None.

Definition _epoch_finished (epoch : Z) (outputs : FloatTensor) (labels : LongTensor)
  : M State f32 :=
  crit ← gets (fun st => criterion (self st));
  loss ← lift (criterion_forward C crit outputs labels);
  emit (EvUpdateLoss "full train");;
  save;;
  mret loss.

(** No tensor is written to here, so the batch is carried as a value (a copy
    on the device holds the same elements). *)
Definition train_mask : M State (FloatTensor * LongTensor) :=
  it ← iter_train_loader;
  '(images, labels) ← next_batch it;
  mode_saved ← prepare_eval;
  m ← gets (fun st => model (self st));
  acc ← gets (fun st => accuracy_measure (self st));
  outputs ← lift (model_forward C m images);
  proba ← lift (predict_proba C acc outputs);
  proba_max ← lift (max_dim1 proba);
  sample_max_proba ← lift (argmax proba_max);
  image ← lift (index0 images sample_max_proba);
  label ← lift (index0 labels sample_max_proba);
  mt ← gets (fun st => mask_trainer (self st));
  emit EvPlotMask;;
  lift (plot_mask C m mt image label);;
  mode_restore mode_saved;;
  mret (image, label).

(** One pass of the attack loop: the gradient of the loss with respect to
    the working batch is scaled and added to the batch in place. *)
Definition adversarial_step (noise_ampl : f32) (images : nat) (labels : LongTensor)
  : M State unit :=
  m ← gets (fun st => model (self st));
  crit ← gets (fun st => criterion (self st));
  x ← deref images;
  outputs ← lift (model_forward C m x);
  loss ← lift (criterion_forward C crit outputs labels);
  grad ← lift (loss_backward C m crit x labels);
  iadd images (scalar_mul noise_ampl grad).

(** The batch drawn from the loader becomes a cell of the heap, because the
    loop overwrites it in place; [images_orig] is a clone, that is another
    cell. The labels are never written to and are carried as a value.
    [requires_grad_] changes no element and is not represented. *)
Definition get_adversarial_examples (noise_ampl : f32) (n_iter : Z)
  : M State AdversarialExamples :=
  it ← iter_train_loader;
  '(batch_images, labels) ← next_batch it;
  images ← alloc batch_images;
  images ← to_device images;
  images_orig ← clone images;
  mode_saved ← prepare_eval;
  repeat_n (Z.to_nat n_iter) (adversarial_step noise_ampl images labels);;
  mode_restore mode_saved;;
  mret (mkAdversarialExamples images_orig images labels).

(** The scan after each batch: one warning per parameter holding a NaN. *)
Definition warn_nan_parameters : M State unit :=
  m ← gets (fun st => model (self st));
  for_each (named_parameters m) (fun np =>
    if isnan_any (snd np)
    then warn ("NaN parameters in '" +:+ fst np +:+ "'")
    else mret tt).

(** Modelled from the spec: [monitor.batch_finished(model)] pushes the
    batch-finished event; it is the one call per batch that reaches the
    process-wide timer, which counts the batch. *)
Definition monitor_batch_finished : M State unit :=
  emit EvBatchFinished;;
  modify (on_world (fun w => set_timer (timer_tick (timer w)) w)).

Definition call_train_batch (images : FloatTensor) (labels : LongTensor)
  : M State (FloatTensor * f32) :=
  fun st =>
    let (m', r) := train_batch C (model (self st)) images labels in
    (r, on_self (set_model m') st).

Fixpoint train_epoch_loop (batches : list Batch)
    (acc : MeanOnline * option FloatTensor)
  : M State (MeanOnline * option FloatTensor) :=
  match batches with
  | [] => mret acc
  | (images, labels) :: rest =>
      modify (on_self (fun t => set_train_loader (loader_fetched (train_loader t)) t));;
      '(outputs, loss) ← call_train_batch images labels;
      warn_nan_parameters;;
      monitor_batch_finished;;
      train_epoch_loop rest (mean_update loss (fst acc), Some outputs)
  end.

Definition train_epoch (epoch : Z) : M State unit :=
  emit (EvProgressBar epoch);;
  batches ← iter_train_loader;
  '(loss_batch_average, outputs) ← train_epoch_loop batches (MeanOnline_new, None);
  _ ← lift (mean_get_mean loss_batch_average);
  emit (EvUpdateLoss "batch");;
  acc ← gets (fun st => accuracy_measure (self st));
  if negb (is_AccuracyArgmax acc)
  then emit (EvUpdateSparsity "batch");; emit (EvUpdateDensity "batch")
  else mret tt.

Definition log_trainer : M State unit :=
  crit ← gets (fun st => criterion (self st));
  emit (EvMonitorLog ("Criterion: " +:+ criterion_class crit));;
  emit (EvMonitorLog "MaskTrainer").

(** The body of the epoch loop of [train]. *)
Definition train_iteration (epoch_update_step : Z) (instrumented : bool)
    (adversarial mask_explain : bool) (epoch : Z) : M State unit :=
  train_epoch epoch;;
  if epoch_update_step =? 0 then raise ZeroDivisionError
  else if epoch mod epoch_update_step =? 0 then
    m ← gets (fun st => model (self st));
    emit (EvFullForwardPass instrumented);;
    '(outputs_full, labels_full) ← lift (full_forward_pass C instrumented m);
    emit EvAccuracySave;;
    emit EvEpochFinished;;
    (if adversarial
     then _ ← get_adversarial_examples (f32_of_Z 100) 10; emit EvPlotAdversarial
     else mret tt);;
    (if mask_explain then _ ← train_mask; mret tt else mret tt);;
    _ ← _epoch_finished epoch outputs_full labels_full;
    mret tt
  else mret tt.

(** What [train] does before its epoch loop. *)
Definition train_prologue (mutual_info_layers : Z) : M State unit :=
  m ← gets (fun st => model (self st));
  print (model_class m);;
  mon ← gets (fun st => monitor (self st));
  (if negb (is_active mon)
   then env ← gets (fun st => env_name (self st));
        monitor_open_env env;;
        emit EvMonitorClear
   else mret tt);;
  emit EvMonitorLogModel;;
  emit EvMonitorLogSelf;;
  log_trainer;;
  print ("Training '" +:+ model_class m +:+ "'");;
  if 0 <? mutual_info_layers
  then emit (EvMutualInfoPrepare mutual_info_layers)
  else mret tt.

Definition train (n_epoch epoch_update_step mutual_info_layers : Z)
    (adversarial mask_explain : bool) : M State unit :=
  train_prologue mutual_info_layers;;
  epoch0 ← gets (fun st => timer_epoch (timer (world st)));
  for_each (range epoch0 (epoch0 + n_epoch))
    (train_iteration epoch_update_step (0 <? mutual_info_layers)
       adversarial mask_explain).

(** [Trainer.__init__], run in the world before the object exists. *)
Definition __init__ (a : InitArgs) : M World Trainer :=
  let model := arg_model a in
  let train_loader := get_data_loader C (arg_dataset_name a) true in
  modify (fun w => set_timer (timer_init (Z.of_nat (dl_len train_loader)) (timer w)) w);;
  date ← gets today;
  let env_name := date +:+ " " +:+ model_class model +:+ ": "
                  +:+ arg_dataset_name a +:+ " " +:+ arg_class a +:+ " "
                  +:+ criterion_class (arg_criterion a) in
  let env_name := if String.eqb (arg_env_suffix a) "" then env_name
                  else env_name +:+ " " +:+ arg_env_suffix a in
  let accuracy_measure :=
    match arg_accuracy_measure a with
    | None =>
        if isinstance (arg_criterion a) "PairLoss"
        then AccuracyEmbedding
        else AccuracyArgmax
    | Some given => given
    end in
  let layers := find_named_layers C model in
  let monitor := fold_left (fun mon name => monitor_register_layer name mon)
                           layers (mkMonitor false "" []) in
  modify (fun w => set_trace (trace w ++ map EvRegisterLayer layers) w);;
  let it := dl_epochs train_loader (dl_iters train_loader) in
  let train_loader := loader_started train_loader in
  match it with
  | [] => raise StopIteration
  | (images, labels) :: _ =>
      let train_loader := loader_fetched train_loader in
      image ← lift (index0 images 0);
      mret (mkTrainer model (arg_criterion a) (arg_dataset_name a) (arg_class a)
              (arg_checkpoint_dir a) train_loader env_name accuracy_measure
              monitor (mkMaskTrainer accuracy_measure (shape image)))
  end.

End Methods.

(** ** Auxiliary definitions for the statements *)

(** The effect of [print] on a state. *)
Definition printed (msg : string) (st : State) : State :=
  on_world (fun w => set_stdout (stdout w ++ [msg]) w) st.

Definition emitted (e : Event) (st : State) : State :=
  on_world (fun w => set_trace (trace w ++ [e]) w) st.

Definition restore_path (arg : option Path) (st : State) : Path :=
  match arg with
  | None => checkpoint_path (self st)
  | Some p => p
  end.


(** The checkpoint [save] writes from a state. *)
Definition checkpoint_of (st : State) : Checkpoint :=
  mkCheckpoint (model_state_dict (model (self st)))
               (timer_epoch (timer (world st)))
               (env_name (self st)).

(** ** Concrete data for the examples *)

Definition demo_batch : Batch :=
  (Tensor [2; 2]%nat [f32_of_Z 1; f32_of_Z 2; f32_of_Z 3; f32_of_Z 4],
   Tensor [2]%nat [0; 1]).

Definition demo_loader : DataLoader := mkLoader (fun _ => [demo_batch]) 1 0 0.

Definition demo_model : Model :=
  mkModel "MLP" true
    [("fc.weight", Tensor [2]%nat [f32_of_Z 1; f32_of_Z 2]);
     ("fc.bias", Tensor [1]%nat [f32_zero])].

Definition demo_criterion : Criterion := mkCriterion "CrossEntropyLoss" ["Module"].

Definition demo_trainer : Trainer :=
  mkTrainer demo_model demo_criterion "MNIST" "TrainerGrad" ["checkpoints"]
    demo_loader "2019.01.01 MLP: MNIST TrainerGrad CrossEntropyLoss"
    AccuracyArgmax (mkMonitor false "" []) (mkMaskTrainer AccuracyArgmax [2]%nat).

Definition demo_world : World :=
  mkWorld (mkTimer 1 0) false "2019.01.01" ∅ [] [] [] [].

Definition demo_state : State := mkState demo_trainer demo_world.

(** A checkpoint whose [fc.weight] fits the model and whose [fc.bias] has
    another shape. *)
Definition mismatched_checkpoint : Checkpoint :=
  mkCheckpoint
    [("fc.weight", Tensor [2]%nat [f32_of_Z 5; f32_of_Z 6]);
     ("fc.bias", Tensor [3]%nat [f32_zero; f32_zero; f32_zero])]
    7 "earlier run".

Definition mismatched_state : State :=
  on_world (set_fs
    (<[checkpoint_path demo_trainer := File true (Pickled mismatched_checkpoint)]>
       (<[["checkpoints"] := Dir true]> ∅))) demo_state.



(** A loader is empty when none of its iterators yields a batch. *)
Definition loader_empty (l : DataLoader) : Prop := forall i, dl_epochs l i = [].

Definition empty_loader : DataLoader := mkLoader (fun _ => []) 0 0 0.

(** Collaborators that always succeed: the optimisation step leaves the
    model as it is, the forward pass is the identity and every gradient
    element is one. *)
Definition demo_collaborators (loader : DataLoader) : Collaborators :=
  mkCollaborators
    (fun m images _ => (m, Ok (images, f32_of_Z 1)))
    (fun _ x => Ok x)
    (fun _ _ _ => Ok (f32_of_Z 1))
    (fun _ _ x _ => Ok (Tensor (shape x) (map (fun _ => f32_of_Z 1) (data x))))
    (fun _ outputs => Ok outputs)
    (fun _ _ _ _ => Ok tt)
    (fun _ _ => Ok demo_batch)
    (fun _ => ["fc"])
    (fun _ _ => loader).

Definition demo_args (accuracy : option Accuracy) (crit : Criterion) : InitArgs :=
  mkInitArgs demo_model crit "MNIST" accuracy "" ["checkpoints"] "TrainerGrad".

Definition contrastive_criterion : Criterion :=
  mkCriterion "ContrastiveLossRandom" ["PairLoss"; "Module"].

(** What the attack loop may change: only the heap, and in the heap only
    the elements of cell [i], never its shape. *)
Definition heap_frame (i : nat) (st st' : State) : Prop :=
  self st' = self st
  /\ world st' = set_heap (heap (world st')) (world st)
  /\ length (heap (world st')) = length (heap (world st))
  /\ (forall j, j <> i -> heap (world st') !! j = heap (world st) !! j)
  /\ (forall t, heap (world st) !! i = Some t ->
      exists t', heap (world st') !! i = Some t' /\ shape t' = shape t).

(** The state in which the attack loop starts: one iterator started and one
    batch fetched, the working batch and its clone allocated (after a copy to
    the device when CUDA is available), the model in evaluation mode. *)
Definition attack_images (st : State) : nat :=
  if cuda_is_available (world st) then S (length (heap (world st)))
  else length (heap (world st)).

Definition attack_start (batch_images : FloatTensor) (st : State) : State :=
  mkState
    (set_model (set_training false (model (self st)))
       (set_train_loader (loader_fetched (loader_started (train_loader (self st))))
          (self st)))
    (set_heap (heap (world st)
               ++ (if cuda_is_available (world st)
                   then [batch_images; batch_images; batch_images]
                   else [batch_images; batch_images]))
       (world st)).

(** Collaborators whose forward pass fails. *)
Definition failing_forward_collaborators : Collaborators :=
  mkCollaborators
    (fun m images _ => (m, Ok (images, f32_of_Z 1)))
    (fun _ _ => Raise (RuntimeError "size mismatch"))
    (fun _ _ _ => Ok (f32_of_Z 1))
    (fun _ _ x _ => Ok (Tensor (shape x) (map (fun _ => f32_of_Z 1) (data x))))
    (fun _ outputs => Ok outputs)
    (fun _ _ _ _ => Ok tt)
    (fun _ _ => Ok demo_batch)
    (fun _ => ["fc"])
    (fun _ _ => demo_loader).

(** The warnings the scan issues for a model. *)
Definition nan_warning (name : string) : string :=
  "NaN parameters in '" +:+ name +:+ "'".

Definition nan_warnings (m : Model) : list string :=
  flat_map (fun np : string * FloatTensor =>
              if isnan_any (snd np) then [nan_warning (fst np)] else [])
           (named_parameters m).

(** The model after each batch of an epoch, up to the first batch on which
    [train_batch] raises. *)
Fixpoint models_after_batches (C : Collaborators) (m : Model) (batches : list Batch)
  : list Model :=
  match batches with
  | [] => []
  | (images, labels) :: rest =>
      match train_batch C m images labels with
      | (m', Ok _) => m' :: models_after_batches C m' rest
      | (_, Raise _) => []
      end
  end.

(** The cadence of a run, read off the trace: the progress bar of an epoch,
    the full-dataset pass, the calibration of the accuracy strategy, the
    epoch-finished event and the checkpoint write. *)
Inductive Mark : Type :=
| Epoch (epoch : Z)
| FullPass
| Calibration
| EpochFinished
| CheckpointWrite.

Definition mark (e : Event) : option Mark :=
  match e with
  | EvProgressBar epoch => Some (Epoch epoch)
  | EvFullForwardPass _ => Some FullPass
  | EvAccuracySave => Some Calibration
  | EvEpochFinished => Some EpochFinished
  | EvTorchSave _ => Some CheckpointWrite
  | _ => None
  end.

Definition marks (evs : list Event) : list Mark := omap mark evs.

Definition epoch_marks (epoch_update_step epoch : Z) : list Mark :=
  Epoch epoch ::
  (if epoch mod epoch_update_step =? 0
   then [FullPass; Calibration; EpochFinished; CheckpointWrite]
   else []).

(** [st'] extends the trace of [st] by events whose marks are [ms]. *)
Definition traced (ms : list Mark) (st st' : State) : Prop :=
  exists evs, trace (world st') = trace (world st) ++ evs /\ marks evs = ms.

(** [st'] has counted [k] more batches than [st], and the batches the
    loader yields are the same. *)
Definition ticked (k : Z) (st st' : State) : Prop :=
  batches_in_epoch (timer (world st')) = batches_in_epoch (timer (world st))
  /\ batch_id (timer (world st')) = batch_id (timer (world st)) + k
  /\ dl_epochs (train_loader (self st')) = dl_epochs (train_loader (self st))
  /\ dl_len (train_loader (self st')) = dl_len (train_loader (self st)).

(** Every iterator of the loader yields [len(loader)] batches. *)
Definition loader_wf (l : DataLoader) : Prop :=
  forall i, length (dl_epochs l i) = dl_len l.

(** An optimisation step that overflows: [fc.weight] holds an infinity. *)
Definition overflowed_model : Model :=
  mkModel "MLP" true
    [("fc.weight", Tensor [2]%nat [S754_infinity false; f32_of_Z 2]);
     ("fc.bias", Tensor [1]%nat [f32_zero])].

Definition overflowing_collaborators : Collaborators :=
  mkCollaborators
    (fun _ images _ => (overflowed_model, Ok (images, f32_of_Z 1)))
    (fun _ x => Ok x)
    (fun _ _ _ => Ok (f32_of_Z 1))
    (fun _ _ x _ => Ok (Tensor (shape x) (map (fun _ => f32_of_Z 1) (data x))))
    (fun _ outputs => Ok outputs)
    (fun _ _ _ _ => Ok tt)
    (fun _ _ => Ok demo_batch)
    (fun _ => ["fc"])
    (fun _ _ => demo_loader).

(** An optimisation step that diverges: [fc.bias] holds a NaN. *)
Definition diverged_model : Model :=
  mkModel "MLP" true
    [("fc.weight", Tensor [2]%nat [f32_of_Z 1; f32_of_Z 2]);
     ("fc.bias", Tensor [1]%nat [S754_nan])].

Definition diverging_collaborators : Collaborators :=
  mkCollaborators
    (fun _ images _ => (diverged_model, Ok (images, f32_of_Z 1)))
    (fun _ x => Ok x)
    (fun _ _ _ => Ok (f32_of_Z 1))
    (fun _ _ x _ => Ok (Tensor (shape x) (map (fun _ => f32_of_Z 1) (data x))))
    (fun _ outputs => Ok outputs)
    (fun _ _ _ _ => Ok tt)
    (fun _ _ => Ok demo_batch)
    (fun _ => ["fc"])
    (fun _ _ => demo_loader).

(** ** Further definitions for the statements *)

(** A checkpoint's parameters fit a model when they have the model's keys,
    in the model's order, with the model's shapes, and no key occurs twice. *)
Definition fits (sd ps : StateDict) : Prop :=
  Forall2 (fun a b : string * FloatTensor =>
             fst a = fst b /\ shape (snd a) = shape (snd b)) sd ps
  /\ NoDup (map fst ps).

(** A state whose checkpoint directory exists and is writable. *)
Definition writable_dir_state : State :=
  on_world (set_fs (<[["checkpoints"] := Dir true]> ∅)) demo_state.

(** A checkpoint path that holds something else than a checkpoint. *)
Definition garbage_state : State :=
  on_world (set_fs
    (<[checkpoint_path demo_trainer := File true OtherContent]>
       (<[["checkpoints"] := Dir true]> ∅))) demo_state.

(** The exception of the first batch of an epoch on which [train_batch]
    raises, if there is one. *)
Fixpoint first_failure (C : Collaborators) (m : Model) (batches : list Batch)
  : option exn :=
  match batches with
  | [] => None
  | (images, labels) :: rest =>
      match train_batch C m images labels with
      | (m', Ok _) => first_failure C m' rest
      | (_, Raise e) => Some e
      end
  end.

(** An optimisation step that fails on every batch. *)
Definition failing_step_collaborators : Collaborators :=
  mkCollaborators
    (fun m _ _ => (m, Raise (RuntimeError "CUDA out of memory")))
    (fun _ x => Ok x)
    (fun _ _ _ => Ok (f32_of_Z 1))
    (fun _ _ x _ => Ok (Tensor (shape x) (map (fun _ => f32_of_Z 1) (data x))))
    (fun _ outputs => Ok outputs)
    (fun _ _ _ _ => Ok tt)
    (fun _ _ => Ok demo_batch)
    (fun _ => ["fc"])
    (fun _ _ => demo_loader).

(** Collaborators whose gradient computation fails (no path from the input
    to the loss). *)
Definition detached_collaborators : Collaborators :=
  mkCollaborators
    (fun m images _ => (m, Ok (images, f32_of_Z 1)))
    (fun _ x => Ok x)
    (fun _ _ _ => Ok (f32_of_Z 1))
    (fun _ _ _ _ =>
       Raise (RuntimeError "element 0 of tensors does not require grad"))
    (fun _ outputs => Ok outputs)
    (fun _ _ _ _ => Ok tt)
    (fun _ _ => Ok demo_batch)
    (fun _ => ["fc"])
    (fun _ _ => demo_loader).

(** A state that already holds a tensor in its heap. *)
Definition busy_state : State :=
  on_world (set_heap [Tensor [1]%nat [f32_of_Z 7]]) demo_state.

(** A state whose checkpoint file holds an earlier state of the same model,
    saved at epoch 5. *)
Definition resumable_checkpoint : Checkpoint :=
  mkCheckpoint (named_parameters demo_model) 5
    "2019.01.01 MLP: MNIST TrainerGrad CrossEntropyLoss".

Definition resumable_state : State :=
  on_world (set_fs
    (<[checkpoint_path demo_trainer := File true (Pickled resumable_checkpoint)]>
       (<[["checkpoints"] := Dir true]> ∅))) demo_state.

(** * Preparing the Caltech data (utils/caltech.py)

    The functions that lay out the data set work on the file system of the
    world. The directory [DATA_DIR] comes from a module that is not among the
    sources and is a parameter; so are the library calls whose results the
    environment decides: the permutation [random.shuffle] picks at its [k]-th
    call, the effect of renaming a directory, and the effect of
    [shutil.rmtree(path, ignore_errors=True)]. *)

(** [Path.name]: the last component. *)
Definition path_name (p : Path) : string := hd "" p.

(** [folder / name] for a single component [name]. *)
Definition path_join (folder : Path) (name : string) : Path :=
  if String.eqb name "" then folder else name :: folder.

(** [q] is [p] or lies under [p]. *)
Definition under (p q : Path) : Prop := p `suffix_of` q.

(** [s.rfind('.')], scanning from index [i] with the last index found. *)
Fixpoint rfind_dot (s : string) (i : nat) (last : option nat) : option nat :=
  match s with
  | EmptyString => last
  | String c rest =>
      rfind_dot rest (S i) (if Ascii.eqb c "."%char then Some i else last)
  end.

(** [Path.suffix]: the name from its last dot on, when that dot is neither
    the first nor the last character of the name. *)
Definition path_suffix (p : Path) : string :=
  let name := path_name p in
  match rfind_dot name 0 None with
  | Some i =>
      if (0 <? i)%nat && (i <? String.length name - 1)%nat
      then String.substring i (String.length name - i) name
      else ""
  | None => ""
  end.

Definition is_jpg (p : Path) : bool := String.eqb (path_suffix p) ".jpg".

(** The entries of a directory, as [iterdir] yields them (in an order the
    file system decides). *)
Definition children (d : Path) (f : gmap (list string) node) : list Path :=
  filter (fun k : Path => k <> [] /\ tail k = d) (map_to_list f).*1.

(** [Path.iterdir()] *)
Definition iterdir (d : Path) (f : gmap (list string) node) : result (list Path) :=
  match fs_lookup d f with
  | None => Raise (FileNotFoundError d)
  | Some (File _ _) => Raise (NotADirectoryError d)
  | Some (Dir _) => Ok (children d f)
  end.

(** [os.makedirs(p, exist_ok=True)]: a missing parent is made first (that it
    exists by then is not an error), then the directory itself. *)
Fixpoint os_makedirs (p : Path) (f : gmap (list string) node)
  : result (gmap (list string) node) :=
  match p with
  | [] => mkdir_exist_ok p f
  | _ :: head =>
      if negb (path_exists head f)
      then match os_makedirs head f with
           | Ok f1 => mkdir_exist_ok p f1
           | Raise (FileExistsError _) => mkdir_exist_ok p f
           | Raise e => Raise e
           end
      else mkdir_exist_ok p f
  end.

(** Binary64 arithmetic of Python floats. *)
Definition f64_mul : spec_float -> spec_float -> spec_float := SFmul 53 1024.
Definition f64_of_nat (n : nat) : spec_float :=
  binary_normalize 53 1024 (Z.of_nat n) 0 false.

(** [0.8], the default [train_part]. *)
Definition train_part_default : spec_float :=
  S754_finite false 7205759403792794 (-53).

(** [int(x)] for a float: truncation towards zero. *)
Definition int_of_float (x : spec_float) : result Z :=
  match x with
  | S754_nan => Raise (OtherError "ValueError: cannot convert float NaN to integer")
  | S754_infinity _ =>
      Raise (OtherError "OverflowError: cannot convert float infinity to integer")
  | S754_zero _ => Ok 0
  | S754_finite s m e =>
      let v := if 0 <=? e then Zpos m * 2 ^ e else Zpos m / 2 ^ (- e) in
      Ok (if s then - v else v)
  end.

(** The bound [n] of a slice of a list of length [len]. *)
Definition slice_index (n : Z) (len : nat) : nat :=
  if n <? 0 then Z.to_nat (Z.of_nat len + n) else Nat.min (Z.to_nat n) len.

(** [l[:n]] and [l[n:]] *)
Definition slice_to {A : Type} (n : Z) (l : list A) : list A :=
  take (slice_index n (length l)) l.
Definition slice_from {A : Type} (n : Z) (l : list A) : list A :=
  drop (slice_index n (length l)) l.

Definition world_print (s : string) : M World unit :=
  modify (fun w => set_stdout (stdout w ++ [s]) w).

Section Caltech.

Context (DATA_DIR : Path).
Context (shuffle : nat -> list Path -> list Path).
Context (rename_dir : Path -> Path -> gmap (list string) node
                      -> result (gmap (list string) node)).
Context (rmtree : Path -> gmap (list string) node -> gmap (list string) node).

Definition CALTECH_RAW : Path := "Caltech_raw" :: DATA_DIR.
Definition CALTECH_256 : Path := "Caltech256" :: DATA_DIR.

(** [CALTECH_RAW / TAR_FILEPATH.stem] *)
Definition caltech_root : Path := "256_ObjectCategories" :: CALTECH_RAW.

(** [Path.rename(dst)]: a regular file takes the place of whatever file is
    at [dst]; both parent directories must be writable; renaming a directory
    is left to the environment. *)
Definition path_rename (src dst : Path) (f : gmap (list string) node)
  : result (gmap (list string) node) :=
  match src, dst with
  | _ :: sparent, _ :: dparent =>
      match f !! src with
      | None => Raise (FileNotFoundError src)
      | Some (Dir _) => rename_dir src dst f
      | Some (File w c) =>
          match fs_lookup dparent f with
          | None => Raise (FileNotFoundError dst)
          | Some (File _ _) => Raise (NotADirectoryError dst)
          | Some (Dir wd) =>
              match fs_lookup sparent f with
              | Some (Dir ws) =>
                  if negb (ws && wd) then Raise (PermissionError dst)
                  else if decide (src = dst) then Ok f
                  else match f !! dst with
                       | Some (Dir _) => Raise (IsADirectoryError dst)
                       | _ => Ok (<[dst := File w c]> (delete src f))
                       end
              | _ => Raise (NotADirectoryError src)
              end
          end
      end
  | _, _ => Raise (OtherError "OSError: Device or resource busy")
  end.

(** The loop of [move_files]: each file is renamed into the folder under
    its own name. *)
Definition move_loop (folder_to : Path) (filepaths : list Path) : M World unit :=
  for_each filepaths (fun filepath =>
    f ← gets fs;
    f' ← lift (path_rename filepath (path_join folder_to (path_name filepath)) f);
    modify (set_fs f')).

Definition move_files (filepaths : list Path) (folder_to : Path) : M World unit :=
  f ← gets fs;
  f1 ← lift (os_makedirs folder_to f);
  modify (set_fs f1);;
  move_loop folder_to filepaths.

(** The two lists of a category: the [.jpg] entries, shuffled, are cut at
    [int(train_part * len(images))]. *)
Definition split_images (train_part : spec_float) (k : nat) (entries : list Path)
  : result (list Path * list Path) :=
  let images := shuffle k (List.filter is_jpg entries) in
  match int_of_float (f64_mul train_part (f64_of_nat (length images))) with
  | Ok n_train => Ok (slice_to n_train images, slice_from n_train images)
  | Raise e => Raise e
  end.

(** The folders the images of a category are moved to. *)
Definition train_folder (category : Path) : Path :=
  path_join (path_join CALTECH_256 "train") (path_name category).
Definition test_folder (category : Path) : Path :=
  path_join (path_join CALTECH_256 "test") (path_name category).

(** The body of the loop over the categories; [k] counts the iterations. *)
Definition split_category (train_part : spec_float) (k : nat) (category : Path)
  : M World unit :=
  f ← gets fs;
  entries ← lift (iterdir category f);
  '(images_train, images_test) ← lift (split_images train_part k entries);
  move_files images_train
    (path_join (path_join CALTECH_256 "train") (path_name category));;
  move_files images_test
    (path_join (path_join CALTECH_256 "test") (path_name category)).

Fixpoint split_categories (train_part : spec_float) (k : nat) (categories : list Path)
  : M World unit :=
  match categories with
  | [] => mret tt
  | category :: rest =>
      split_category train_part k category;;
      split_categories train_part (S k) rest
  end.

Definition split_train_test (train_part : spec_float) : M World unit :=
  modify (fun w => set_fs (rmtree (path_join caltech_root "257.clutter") (fs w)) w);;
  f ← gets fs;
  categories ← lift (iterdir caltech_root f);
  split_categories train_part 0 categories;;
  world_print "Split Caltech dataset.".

End Caltech.

(** ** A small raw tree to run the split on *)

Definition demo_data_dir : Path := ["data"].

(** A shuffle that reverses. *)
Definition demo_shuffle (k : nat) (l : list Path) : list Path := rev l.

(** A file system that refuses to rename directories. *)
Definition demo_rename_dir (src dst : Path) (f : gmap (list string) node)
  : result (gmap (list string) node) := Raise (PermissionError src).

Fixpoint underb (p q : Path) : bool :=
  if decide (p = q) then true
  else match q with
       | [] => false
       | _ :: parent => underb p parent
       end.

(** [rmtree] that removes the tree. *)
Definition demo_rmtree (p : Path) (f : gmap (list string) node)
  : gmap (list string) node :=
  filter (fun kv => underb p kv.1 = false) f.

Definition demo_root : Path := caltech_root demo_data_dir.

Definition raw_tree : gmap (list string) node :=
  list_to_map
    [ (demo_data_dir, Dir true);
      (CALTECH_RAW demo_data_dir, Dir true);
      (demo_root, Dir true);
      ("001.ak47" :: demo_root, Dir true);
      ("a.jpg" :: "001.ak47" :: demo_root, File true OtherContent);
      ("b.jpg" :: "001.ak47" :: demo_root, File false OtherContent);
      ("c.jpg" :: "001.ak47" :: demo_root, File true OtherContent);
      ("d.jpg" :: "001.ak47" :: demo_root, File true OtherContent);
      ("e.jpg" :: "001.ak47" :: demo_root, File true OtherContent);
      ("y.JPG" :: "001.ak47" :: demo_root, File true OtherContent);
      ("notes.txt" :: "001.ak47" :: demo_root, File true OtherContent);
      ("002.flag" :: demo_root, Dir true);
      ("257.clutter" :: demo_root, Dir true);
      ("z.jpg" :: "257.clutter" :: demo_root, File true OtherContent) ].

Definition raw_world : World := set_fs raw_tree demo_world.

Definition demo_split : M World unit :=
  split_train_test demo_data_dir demo_shuffle demo_rename_dir demo_rmtree
    train_part_default.

(** The five images of [001.ak47] and an entry that is not one. *)
Definition demo_images : list Path :=
  [ "a.jpg" :: "001.ak47" :: demo_root; "b.jpg" :: "001.ak47" :: demo_root;
    "c.jpg" :: "001.ak47" :: demo_root; "d.jpg" :: "001.ak47" :: demo_root;
    "e.jpg" :: "001.ak47" :: demo_root ].
(** ** Reasoning about computations *)

Arguments torch_save : simpl never.
Arguments torch_load : simpl never.
Arguments mkdir_parents : simpl never.
Arguments load_state_dict : simpl never.
Arguments path_exists : simpl never.
Arguments checkpoint_path : simpl never.
Arguments timer_epoch : simpl never.

Lemma bind_inv {S A B : Type} (c : M S A) (k : A -> M S B) st r st' :
  (c ≫= k) st = (r, st') ->
  (exists a st1, c st = (Ok a, st1) /\ k a st1 = (r, st'))
  \/ (exists e, c st = (Raise e, st') /\ r = Raise e).
Proof.
  unfold mbind, M_bind. destruct (c st) as [[a|e] st1]; intros H.
  - left. eauto.
  - right. inversion H; subst. eauto.
Qed.

Lemma bind_Ok {S A B : Type} (c : M S A) (k : A -> M S B) st b st' :
  (c ≫= k) st = (Ok b, st') ->
  exists a st1, c st = (Ok a, st1) /\ k a st1 = (Ok b, st').
Proof.
  intros H. apply bind_inv in H as [H|[e [_ H]]]; [exact H | discriminate].
Qed.

Lemma bind_run {S A B : Type} (c : M S A) (k : A -> M S B) st a st1 :
  c st = (Ok a, st1) -> (c ≫= k) st = k a st1.
Proof. unfold mbind, M_bind. intros ->. reflexivity. Qed.

Lemma bind_raise {S A B : Type} (c : M S A) (k : A -> M S B) st e st1 :
  c st = (Raise e, st1) -> (c ≫= k) st = (Raise e, st1).
Proof. unfold mbind, M_bind. intros ->. reflexivity. Qed.

(** ** Restoring a checkpoint *)

Lemma restore_unfold arg strict st :
  restore arg strict st =
  let p := restore_path arg st in
  if negb (path_exists p (fs (world st)))
  then (Ok None,
        printed ("Checkpoint '" +:+ path_str p +:+ "' doesn't exist. Nothing to restore.") st)
  else
    match torch_load p (fs (world st)) with
    | Raise e => (Raise e, st)
    | Ok ck =>
        match load_state_dict (ck_model_state ck) strict (model (self st)) with
        | (m', Ok _) =>
            (Ok (Some ck),
             printed ("Restored model state from " +:+ path_str p +:+ ".")
               (emitted (EvMonitorOpen (ck_env_name ck))
                  (on_self (fun t => set_monitor (monitor_open (ck_env_name ck) (monitor t)) t)
                     (on_world (fun w => set_timer (timer_set_epoch (ck_epoch ck) (timer w)) w)
                        (on_self (set_env_name (ck_env_name ck))
                           (on_self (set_model m') st))))))
        | (m', Raise (RuntimeError msg)) =>
            (Ok None,
             printed ("Error is occurred while restoring " +:+ path_str p +:+ ": " +:+ msg)
               (on_self (set_model m') st))
        | (m', Raise e) => (Raise e, on_self (set_model m') st)
        end
    end.
Proof.
  unfold restore, restore_path, model_load_state_dict, try_except, monitor_open_env,
    print, emit, printed, emitted, mbind, M_bind, mret, M_ret, gets, modify, lift.
  destruct arg as [p|]; simpl.
  - destruct (path_exists p (fs (world st))); simpl; [|reflexivity].
    destruct (torch_load p (fs (world st))) as [ck|e]; [|reflexivity].
    destruct (load_state_dict (ck_model_state ck) strict (model (self st)))
      as [m' [[]|e]]; simpl; [reflexivity|].
    destruct e; reflexivity.
  - destruct (path_exists (checkpoint_path (self st)) (fs (world st))); simpl;
      [|reflexivity].
    destruct (torch_load (checkpoint_path (self st)) (fs (world st))) as [ck|e];
      [|reflexivity].
    destruct (load_state_dict (ck_model_state ck) strict (model (self st)))
      as [m' [[]|e]]; simpl; [reflexivity|].
    destruct e; reflexivity.
Qed.

(** A parameter of the model whose shape disagrees with the checkpoint's
    entry makes [load_state_dict] raise a [RuntimeError], whatever [strict]. *)
Lemma size_mismatch_msgs_nonempty sd ps name x y :
  In (name, x) ps -> sd_lookup name sd = Some y -> shape y <> shape x ->
  size_mismatch_msgs sd ps <> [].
Proof.
  intros Hin Hl Hs Hnil. unfold size_mismatch_msgs in Hnil.
  assert (Hm : In ("size mismatch for " +:+ name)
                 (flat_map (fun np : string * FloatTensor =>
                    match sd_lookup (fst np) sd with
                    | Some input =>
                        if shape_eqb (shape input) (shape (snd np)) then []
                        else ["size mismatch for " +:+ fst np]
                    | None => []
                    end) ps)).
  { apply in_flat_map. exists (name, x). split; [exact Hin|]. simpl. rewrite Hl.
    unfold shape_eqb. rewrite bool_decide_eq_false_2 by exact Hs. left. reflexivity. }
  rewrite Hnil in Hm. destruct Hm.
Qed.

Lemma load_state_dict_mismatch sd strict m name x y :
  In (name, x) (named_parameters m) -> sd_lookup name sd = Some y ->
  shape y <> shape x ->
  exists msg,
    load_state_dict sd strict m
    = (set_parameters (map (load_param sd) (named_parameters m)) m,
       Raise (RuntimeError msg)).
Proof.
  intros Hin Hl Hs. unfold load_state_dict.
  pose proof (size_mismatch_msgs_nonempty sd _ name x y Hin Hl Hs) as Hne.
  destruct (_ ++ size_mismatch_msgs sd (named_parameters m)) as [|msg0 msgs] eqn:E.
  - apply app_eq_nil in E as [_ E]. contradiction.
  - eexists. reflexivity.
Qed.

(** C5: when the checkpoint file does not exist, [restore] (with the default
    or an explicit path) returns [None] without raising; it only prints, so
    the model parameters, the epoch counter and the run identifier are
    unchanged. *)
Theorem restore_missing_checkpoint (arg : option Path) (strict : bool) (st : State) :
  path_exists (restore_path arg st) (fs (world st)) = false ->
  exists st',
    restore arg strict st = (Ok None, st')
    /\ named_parameters (model (self st')) = named_parameters (model (self st))
    /\ timer_epoch (timer (world st')) = timer_epoch (timer (world st))
    /\ env_name (self st') = env_name (self st)
    /\ self st' = self st
    /\ fs (world st') = fs (world st).
Proof.
  intros Hmissing. rewrite restore_unfold. cbv zeta. rewrite Hmissing. simpl.
  eexists. split; [reflexivity|]. repeat split.
Qed.

Lemma restore_missing_checkpoint_witness :
  exists st',
    restore None true demo_state = (Ok None, st')
    /\ named_parameters (model (self st')) = named_parameters (model (self demo_state))
    /\ timer_epoch (timer (world st')) = timer_epoch (timer (world demo_state))
    /\ env_name (self st') = env_name (self demo_state)
    /\ self st' = self demo_state
    /\ fs (world st') = fs (world demo_state).
Proof.
  apply (restore_missing_checkpoint None true demo_state). vm_compute. reflexivity.
Defined.

(** C6, as the code has it: when the checkpoint exists and a parameter's
    shape disagrees with the model, [restore] does not raise: it prints the
    error and returns [None], and the run identifier, the epoch counter and
    the monitor are unchanged. The model is left as [load_state_dict] left
    it: every parameter whose shape agrees with its checkpoint entry has
    taken the checkpoint's values, every other parameter is untouched. *)
Theorem restore_shape_mismatch (arg : option Path) (strict : bool) (st : State)
    (w : bool) (ck : Checkpoint) (name : string) (x y : FloatTensor) :
  fs_lookup (restore_path arg st) (fs (world st)) = Some (File w (Pickled ck)) ->
  In (name, x) (named_parameters (model (self st))) ->
  sd_lookup name (ck_model_state ck) = Some y ->
  shape y <> shape x ->
  exists msg st',
    restore arg strict st = (Ok None, st')
    /\ stdout (world st') = stdout (world st) ++ [msg]
    /\ env_name (self st') = env_name (self st)
    /\ timer (world st') = timer (world st)
    /\ monitor (self st') = monitor (self st)
    /\ named_parameters (model (self st'))
       = map (load_param (ck_model_state ck)) (named_parameters (model (self st)))
    /\ In (name, x) (named_parameters (model (self st'))).
Proof.
  intros Hfile Hin Hl Hs. rewrite restore_unfold. cbv zeta.
  unfold path_exists, torch_load. rewrite Hfile. simpl.
  destruct (load_state_dict_mismatch (ck_model_state ck) strict (model (self st))
              name x y Hin Hl Hs) as [msg ->].
  eexists _, _. split; [reflexivity|]. simpl. repeat split.
  apply in_map_iff. exists (name, x). split; [|exact Hin].
  unfold load_param. simpl. rewrite Hl. unfold shape_eqb.
  rewrite bool_decide_eq_false_2 by exact Hs. reflexivity.
Qed.

Lemma restore_shape_mismatch_witness :
  exists msg st',
    restore None true mismatched_state = (Ok None, st')
    /\ stdout (world st') = stdout (world mismatched_state) ++ [msg]
    /\ env_name (self st') = env_name (self mismatched_state)
    /\ timer (world st') = timer (world mismatched_state)
    /\ monitor (self st') = monitor (self mismatched_state)
    /\ named_parameters (model (self st'))
       = map (load_param (ck_model_state mismatched_checkpoint))
             (named_parameters (model (self mismatched_state)))
    /\ In ("fc.bias", Tensor [1]%nat [f32_zero])
          (named_parameters (model (self st'))).
Proof.
  apply (restore_shape_mismatch None true mismatched_state true
           mismatched_checkpoint "fc.bias" (Tensor [1]%nat [f32_zero])
           (Tensor [3]%nat [f32_zero; f32_zero; f32_zero])).
  - vm_compute. reflexivity.
  - vm_compute. right. left. reflexivity.
  - vm_compute. reflexivity.
  - vm_compute. discriminate.
Defined.

(** C6 as stated fails: a strict restore from a checkpoint whose [fc.bias]
    has another shape returns [None] and yet has overwritten [fc.weight]. *)
Lemma restore_shape_mismatch_partial_load :
  fst (restore None true mismatched_state) = Ok None
  /\ sd_lookup "fc.weight" (named_parameters (model (self mismatched_state)))
     = Some (Tensor [2]%nat [f32_of_Z 1; f32_of_Z 2])
  /\ sd_lookup "fc.weight"
       (named_parameters (model (self (snd (restore None true mismatched_state)))))
     = Some (Tensor [2]%nat [f32_of_Z 5; f32_of_Z 6])
  /\ named_parameters (model (self (snd (restore None true mismatched_state))))
     <> named_parameters (model (self mismatched_state)).
Proof.
  vm_compute. repeat split. discriminate.
Qed.

(** ** Saving a checkpoint *)

Lemma save_unfold st :
  save st =
  let p := checkpoint_path (self st) in
  match mkdir_parents (tail p) (fs (world st)) with
  | Raise e => (Raise e, st)
  | Ok f1 =>
      let st1 := emitted (EvTorchSave p) (on_world (set_fs f1) st) in
      match torch_save (checkpoint_of st) p f1 with
      | Ok f2 => (Ok tt, on_world (set_fs f2) st1)
      | Raise (PermissionError q) =>
          (Ok tt, printed ("Permission denied: " +:+ path_str q) st1)
      | Raise e => (Raise e, st1)
      end
  end.
Proof.
  unfold save, state_dict, put_fs, try_except, print, emit, printed, emitted,
    checkpoint_of, mbind, M_bind, mret, M_ret, gets, modify, lift.
  simpl.
  destruct (mkdir_parents (checkpoint_dir (self st)) (fs (world st))) as [f1|e];
    [|reflexivity].
  simpl.
  match goal with |- context [torch_save ?c ?p f1] =>
    destruct (torch_save c p f1) as [f2|e] end; [reflexivity|].
  destruct e; reflexivity.
Qed.




(** ** Construction *)

Section Construction.

Context (C : Collaborators).

Lemma init_unfold (a : InitArgs) (w : World) :
  __init__ C a w =
  let L := get_data_loader C (arg_dataset_name a) true in
  let w1 := set_trace (trace w ++ map EvRegisterLayer (find_named_layers C (arg_model a)))
              (set_timer (timer_init (Z.of_nat (dl_len L)) (timer w)) w) in
  match dl_epochs L (dl_iters L) with
  | [] => (Raise StopIteration, w1)
  | (images, _) :: _ =>
      match index0 images 0 with
      | Raise e => (Raise e, w1)
      | Ok image =>
          let acc := match arg_accuracy_measure a with
                     | None => if isinstance (arg_criterion a) "PairLoss"
                               then AccuracyEmbedding else AccuracyArgmax
                     | Some given => given
                     end in
          (Ok (mkTrainer (arg_model a) (arg_criterion a) (arg_dataset_name a)
                 (arg_class a) (arg_checkpoint_dir a)
                 (loader_fetched (loader_started L))
                 (let env := today w +:+ " " +:+ model_class (arg_model a) +:+ ": "
                             +:+ arg_dataset_name a +:+ " " +:+ arg_class a +:+ " "
                             +:+ criterion_class (arg_criterion a) in
                  if String.eqb (arg_env_suffix a) "" then env
                  else env +:+ " " +:+ arg_env_suffix a)
                 acc
                 (fold_left (fun mon name => monitor_register_layer name mon)
                    (find_named_layers C (arg_model a)) (mkMonitor false "" []))
                 (mkMaskTrainer acc (shape image))), w1)
      end
  end.
Proof.
  unfold __init__, mbind, M_bind, mret, M_ret, gets, modify, lift, raise.
  cbv zeta. cbn [today set_timer set_trace].
  destruct (dl_epochs _ _) as [|[images labels] rest]; [reflexivity|].
  destruct (index0 images 0) as [image|e]; reflexivity.
Qed.

(** C9: a trainer constructed with no accuracy strategy gets the
    embedding-distance strategy when the loss is a pair loss and the argmax
    strategy for every other loss; a supplied strategy is used as given. *)
Theorem init_accuracy_measure (a : InitArgs) (w : World) (t : Trainer) (w' : World) :
  __init__ C a w = (Ok t, w') ->
  (arg_accuracy_measure a = None ->
   isinstance (arg_criterion a) "PairLoss" = true ->
   accuracy_measure t = AccuracyEmbedding)
  /\ (arg_accuracy_measure a = None ->
      isinstance (arg_criterion a) "PairLoss" = false ->
      accuracy_measure t = AccuracyArgmax)
  /\ (forall given, arg_accuracy_measure a = Some given ->
      accuracy_measure t = given).
Proof.
  rewrite init_unfold. cbv zeta.
  destruct (dl_epochs _ _) as [|[images labels] rest]; [discriminate|].
  destruct (index0 images 0) as [image|e]; [|discriminate].
  intros H. inversion H; subst; clear H. cbn [accuracy_measure].
  repeat split.
  - intros -> ->. reflexivity.
  - intros -> ->. reflexivity.
  - intros given ->. reflexivity.
Qed.

(** C10: a successful construction has started one iterator of the training
    loader and fetched one batch from it, whose image shape seeds the mask
    trainer; with an empty training loader the construction raises
    [StopIteration]. *)
Theorem init_consumes_one_batch (a : InitArgs) (w : World) :
  let L := get_data_loader C (arg_dataset_name a) true in
  (forall t w', __init__ C a w = (Ok t, w') ->
     dl_iters (train_loader t) = S (dl_iters L)
     /\ dl_fetched (train_loader t) = S (dl_fetched L)
     /\ exists images labels rest,
          dl_epochs L (dl_iters L) = (images, labels) :: rest
          /\ mt_image_shape (mask_trainer t) = tail (shape images))
  /\ (loader_empty L -> exists w', __init__ C a w = (Raise StopIteration, w')).
Proof.
  cbv zeta. split.
  - intros t w'. rewrite init_unfold. cbv zeta.
    destruct (dl_epochs _ _) as [|[images labels] rest] eqn:E; [discriminate|].
    destruct (index0 images 0) as [image|e] eqn:Ei; [|discriminate].
    intros H. inversion H; subst; clear H. simpl. repeat split.
    exists images, labels, rest. split; [reflexivity|].
    unfold index0 in Ei. destruct (shape images) as [|n s]; [discriminate|].
    destruct (0 <? n)%nat; [|discriminate]. inversion Ei; subst. reflexivity.
  - intros Hempty. rewrite init_unfold. cbv zeta. rewrite Hempty. eauto.
Qed.

End Construction.

Lemma init_accuracy_measure_witness :
  exists t w',
    __init__ (demo_collaborators demo_loader) (demo_args None contrastive_criterion)
      demo_world = (Ok t, w')
    /\ accuracy_measure t = AccuracyEmbedding.
Proof.
  eexists _, _. split; [vm_compute; reflexivity|].
  refine (proj1 (init_accuracy_measure (demo_collaborators demo_loader)
                   (demo_args None contrastive_criterion) demo_world _ _ _) _ _);
    vm_compute; reflexivity.
Defined.

Lemma init_consumes_one_batch_witness :
  (exists t w',
     __init__ (demo_collaborators demo_loader) (demo_args None demo_criterion) demo_world
     = (Ok t, w')
     /\ dl_iters (train_loader t) = 1%nat
     /\ dl_fetched (train_loader t) = 1%nat)
  /\ exists w',
       __init__ (demo_collaborators empty_loader) (demo_args None demo_criterion)
         demo_world
       = (Raise StopIteration, w').
Proof.
  split.
  - eexists _, _. split; [vm_compute; reflexivity|].
    destruct (proj1 (init_consumes_one_batch (demo_collaborators demo_loader)
                       (demo_args None demo_criterion) demo_world) _ _
                ltac:(vm_compute; reflexivity)) as (Hi & Hf & _).
    split; [exact Hi|exact Hf].
  - apply (proj2 (init_consumes_one_batch (demo_collaborators empty_loader)
                    (demo_args None demo_criterion) demo_world)).
    intros i. reflexivity.
Defined.

(** ** The adversarial generator *)

Lemma heap_frame_refl (i : nat) (st : State) : heap_frame i st st.
Proof. unfold heap_frame. repeat split; eauto. destruct (world st); reflexivity. Qed.

Lemma heap_frame_trans (i : nat) (st st1 st2 : State) :
  heap_frame i st st1 -> heap_frame i st1 st2 -> heap_frame i st st2.
Proof.
  intros (Hs1 & Hw1 & Hl1 & Ho1 & Hi1) (Hs2 & Hw2 & Hl2 & Ho2 & Hi2).
  unfold heap_frame. repeat split.
  - congruence.
  - rewrite Hw2, Hw1. reflexivity.
  - congruence.
  - intros j Hj. rewrite Ho2, Ho1 by exact Hj. reflexivity.
  - intros t Ht. destruct (Hi1 t Ht) as (t1 & Ht1 & Hsh1).
    destruct (Hi2 t1 Ht1) as (t2 & Ht2 & Hsh2).
    exists t2. split; [exact Ht2|congruence].
Qed.

(** Run the first computation of a sequence. *)
Tactic Notation "mrun" "by" tactic3(tac) := (erewrite bind_run by tac); cbv beta iota.

Lemma run_alloc (t : FloatTensor) (st : State) :
  alloc t st
  = (Ok (length (heap (world st))),
     mkState (self st) (set_heap (heap (world st) ++ [t]) (world st))).
Proof. reflexivity. Qed.

Lemma run_deref (r : nat) (t : FloatTensor) (st : State) :
  heap (world st) !! r = Some t -> deref r st = (Ok t, st).
Proof. unfold deref. intros ->. reflexivity. Qed.

Lemma run_clone (r : nat) (t : FloatTensor) (st : State) :
  heap (world st) !! r = Some t ->
  clone r st
  = (Ok (length (heap (world st))),
     mkState (self st) (set_heap (heap (world st) ++ [t]) (world st))).
Proof.
  intros H. unfold clone. erewrite bind_run by (apply run_deref; exact H).
  reflexivity.
Qed.

Lemma run_to_device (r : nat) (st : State) :
  to_device r st
  = if cuda_is_available (world st) then clone r st else (Ok r, st).
Proof.
  unfold to_device. mrun by reflexivity.
  destruct (cuda_is_available (world st)); reflexivity.
Qed.

Section Adversarial.

Context (C : Collaborators).

Lemma adversarial_step_frame noise_ampl i labels st r st' :
  adversarial_step C noise_ampl i labels st = (r, st') -> heap_frame i st st'.
Proof.
  unfold adversarial_step, iadd, deref, mbind, M_bind, mret, M_ret, gets, modify,
    lift, raise.
  destruct (heap (world st) !! i) as [x|] eqn:Hx;
    [|intros H; inversion H; subst; apply heap_frame_refl].
  destruct (model_forward C (model (self st)) x) as [outputs|e];
    [|intros H; inversion H; subst; apply heap_frame_refl].
  destruct (criterion_forward C (criterion (self st)) outputs labels) as [loss|e];
    [|intros H; inversion H; subst; apply heap_frame_refl].
  destruct (loss_backward C (model (self st)) (criterion (self st)) x labels)
    as [grad|e]; [|intros H; inversion H; subst; apply heap_frame_refl].
  rewrite Hx.
  destruct (shape_eqb _ _);
    [|intros H; inversion H; subst; apply heap_frame_refl].
  intros H; inversion H; subst; clear H. unfold heap_frame.
  cbn [self world heap on_world on_self set_heap timer cuda_is_available today
       fs stdout warnings trace].
  repeat split.
  - apply length_insert.
  - intros j Hj. apply list_lookup_insert_ne. congruence.
  - intros t Ht. pose proof (eq_trans (eq_sym Ht) Hx) as E.
    inversion E; subst; clear E.
    eexists. split.
    + apply list_lookup_insert_eq. eapply lookup_lt_Some. exact Hx.
    + reflexivity.
Qed.

Lemma adversarial_loop_frame noise_ampl i labels n : forall st r st',
  repeat_n n (adversarial_step C noise_ampl i labels) st = (r, st') ->
  heap_frame i st st'.
Proof.
  induction n as [|n IH]; intros st r st' H.
  - inversion H; subst. apply heap_frame_refl.
  - cbn [repeat_n] in H.
    apply bind_inv in H as [([] & st1 & Hstep & Hrest)|(e & Hstep & ->)].
    + eapply heap_frame_trans.
      * eapply adversarial_step_frame. exact Hstep.
      * eapply IH. exact Hrest.
    + eapply adversarial_step_frame. exact Hstep.
Qed.

Lemma get_adversarial_examples_unfold noise_ampl n_iter st :
  get_adversarial_examples C noise_ampl n_iter st =
  let L := train_loader (self st) in
  match dl_epochs L (dl_iters L) with
  | [] => (Raise StopIteration, on_self (set_train_loader (loader_started L)) st)
  | (batch_images, labels) :: _ =>
      let images := attack_images st in
      match repeat_n (Z.to_nat n_iter) (adversarial_step C noise_ampl images labels)
              (attack_start batch_images st) with
      | (Ok _, st2) =>
          (Ok (mkAdversarialExamples (S images) images labels),
           on_self (fun t => set_model (set_training (training (model (self st)))
                                          (model t)) t) st2)
      | (Raise e, st2) => (Raise e, st2)
      end
  end.
Proof.
  unfold get_adversarial_examples. cbv zeta.
  mrun by reflexivity.
  unfold next_batch.
  destruct (dl_epochs _ _) as [|[batch_images labels] rest].
  { reflexivity. }
  mrun by (erewrite bind_run by reflexivity; reflexivity).
  mrun by reflexivity.
  unfold attack_images, attack_start.
  destruct (cuda_is_available (world st)) eqn:Hcuda.
  - mrun by (rewrite run_to_device; simpl; rewrite Hcuda; apply run_clone;
             apply list_lookup_middle; reflexivity).
    mrun by (apply run_clone; simpl; apply list_lookup_middle; reflexivity).
    mrun by reflexivity.
    simpl.
    rewrite !length_app. cbn [length]. rewrite !Nat.add_1_r.
    rewrite <- !app_assoc. cbn [app].
    unfold mbind at 1, M_bind at 1.
    match goal with
    | |- (let (_, _) := repeat_n _ _ ?s in _) = (let (_, _) := repeat_n ?n ?b ?s' in _) =>
        change s with s'; destruct (repeat_n n b s') as [[[]|e] st2]
    end; reflexivity.
  - mrun by (rewrite run_to_device; simpl; rewrite Hcuda; reflexivity).
    mrun by (apply run_clone; apply list_lookup_middle; reflexivity).
    mrun by reflexivity.
    simpl.
    rewrite !length_app. cbn [length]. rewrite !Nat.add_1_r.
    rewrite <- !app_assoc. cbn [app].
    unfold mbind at 1, M_bind at 1.
    match goal with
    | |- (let (_, _) := repeat_n _ _ ?s in _) = (let (_, _) := repeat_n ?n ?b ?s' in _) =>
        change s with s'; destruct (repeat_n n b s') as [[[]|e] st2]
    end; reflexivity.
Qed.

Lemma attack_start_lookup (batch_images : FloatTensor) (st : State) :
  heap (world (attack_start batch_images st)) !! attack_images st = Some batch_images
  /\ heap (world (attack_start batch_images st)) !! S (attack_images st)
     = Some batch_images.
Proof.
  unfold attack_start, attack_images. simpl.
  destruct (cuda_is_available (world st)); split.
  - rewrite lookup_app_r by lia.
    replace (S (length (heap (world st))) - length (heap (world st)))%nat
      with 1%nat by lia. reflexivity.
  - rewrite lookup_app_r by lia.
    replace (S (S (length (heap (world st)))) - length (heap (world st)))%nat
      with 2%nat by lia. reflexivity.
  - rewrite lookup_app_r by lia.
    replace (length (heap (world st)) - length (heap (world st)))%nat
      with 0%nat by lia. reflexivity.
  - rewrite lookup_app_r by lia.
    replace (S (length (heap (world st))) - length (heap (world st)))%nat
      with 1%nat by lia. reflexivity.
Qed.

(** What a returning call hands back, whatever the amplitude and the number
    of iterations. *)
Lemma get_adversarial_examples_result noise_ampl n_iter st ex st' :
  get_adversarial_examples C noise_ampl n_iter st = (Ok ex, st') ->
  exists batch_images rest adv,
    dl_epochs (train_loader (self st)) (dl_iters (train_loader (self st)))
    = (batch_images, labels ex) :: rest
    /\ heap (world st') !! original ex = Some batch_images
    /\ heap (world st') !! adversarial ex = Some adv
    /\ shape adv = shape batch_images
    /\ (n_iter <= 0 -> adv = batch_images).
Proof.
  rewrite get_adversarial_examples_unfold. cbv zeta.
  destruct (dl_epochs _ _) as [|[batch_images lbls] rest]; [discriminate|].
  destruct (repeat_n _ _ _) as [[[]|e] st2] eqn:Hloop; [|discriminate].
  intros H. inversion H; subst; clear H.
  cbn [original adversarial labels].
  destruct (attack_start_lookup batch_images st) as [Himg Horig].
  pose proof (adversarial_loop_frame _ _ _ _ _ _ _ Hloop)
    as (_ & _ & _ & Hother & Hcell).
  destruct (Hcell _ Himg) as (adv & Hadv & Hshape).
  exists batch_images, rest, adv. split; [reflexivity|].
  change (heap (world (on_self _ st2))) with (heap (world st2)).
  repeat split.
  - rewrite Hother by lia. exact Horig.
  - exact Hadv.
  - exact Hshape.
  - intros Hn. replace (Z.to_nat n_iter) with 0%nat in Hloop by lia.
    cbn [repeat_n] in Hloop. inversion Hloop; subst.
    pose proof (eq_trans (eq_sym Hadv) Himg) as E. inversion E. reflexivity.
Qed.

(** C1: for a noise amplitude [>= 0] and [n_iter >= 0], a returning call
    hands back the labels drawn with the batch, as original the batch drawn
    from the loader, and as adversarial batch a tensor of the same shape,
    which for [n_iter = 0] is the original batch itself. *)
Theorem get_adversarial_examples_invariants (noise_ampl : f32) (n_iter : Z)
    (st : State) (ex : AdversarialExamples) (st' : State) :
  SFleb f32_zero noise_ampl = true ->
  0 <= n_iter ->
  get_adversarial_examples C noise_ampl n_iter st = (Ok ex, st') ->
  exists batch_images rest orig adv,
    dl_epochs (train_loader (self st)) (dl_iters (train_loader (self st)))
    = (batch_images, labels ex) :: rest
    /\ heap (world st') !! original ex = Some orig
    /\ heap (world st') !! adversarial ex = Some adv
    /\ orig = batch_images
    /\ shape adv = shape orig
    /\ (n_iter = 0 -> adv = orig).
Proof.
  intros _ _ Hrun.
  destruct (get_adversarial_examples_result _ _ _ _ _ Hrun)
    as (batch_images & rest & adv & Hb & Ho & Ha & Hs & Hz).
  exists batch_images, rest, batch_images, adv.
  repeat split; try assumption. intros ->. apply Hz. lia.
Qed.

End Adversarial.

(** ** The mask-training hook *)

Section MaskHook.

Context (C : Collaborators).

Lemma train_mask_effect st r st' :
  train_mask C st = (r, st') ->
  let L := train_loader (self st) in
  exists b L' evs,
    st' = mkState (set_model (set_training b (model (self st)))
                     (set_train_loader L' (self st)))
                  (set_trace (trace (world st) ++ evs) (world st))
    /\ dl_epochs L' = dl_epochs L /\ dl_len L' = dl_len L
    /\ (evs = [] \/ evs = [EvPlotMask])
    /\ match r with
       | Ok _ => b = training (model (self st))
       | Raise e =>
           match dl_epochs L (dl_iters L) with
           | [] => e = StopIteration /\ b = training (model (self st))
           | _ :: _ => b = false
           end
       end.
Proof.
  unfold train_mask, iter_train_loader, next_batch, prepare_eval, mode_restore, emit,
    mbind, M_bind, mret, M_ret, gets, modify, lift, raise.
  cbv zeta. simpl.
  destruct (dl_epochs _ _) as [|[images lbls] rest].
  - intros H. inversion H; subst; clear H.
    exists (training (model (self st))), (loader_started (train_loader (self st))), [].
    repeat split; auto.
    + destruct st as [[[] ? ? ? ? ? ? ? ? ?] []]. simpl. rewrite app_nil_r. reflexivity.
  - simpl.
    repeat case_match; intros Hrun; inversion Hrun; subst; clear Hrun;
      first
        [ exists (training (model (self st))),
            (loader_fetched (loader_started (train_loader (self st)))), [EvPlotMask];
          split; [destruct st as [[[] ? ? ? ? ? ? ? ? ?] []]; reflexivity|];
          repeat split; auto; fail
        | exists false,
            (loader_fetched (loader_started (train_loader (self st)))), [EvPlotMask];
          split; [destruct st as [[[] ? ? ? ? ? ? ? ? ?] []]; reflexivity|];
          repeat split; auto; fail
        | exists false,
            (loader_fetched (loader_started (train_loader (self st)))), [];
          split; [destruct st as [[[] ? ? ? ? ? ? ? ? ?] []]; simpl;
                  rewrite app_nil_r; reflexivity|];
          repeat split; auto ].
Qed.

Lemma get_adversarial_examples_effect noise_ampl n_iter st r st' :
  get_adversarial_examples C noise_ampl n_iter st = (r, st') ->
  let L := train_loader (self st) in
  exists b L' h,
    st' = mkState (set_model (set_training b (model (self st)))
                     (set_train_loader L' (self st)))
                  (set_heap h (world st))
    /\ dl_epochs L' = dl_epochs L /\ dl_len L' = dl_len L
    /\ match r with
       | Ok _ => b = training (model (self st))
       | Raise e =>
           match dl_epochs L (dl_iters L) with
           | [] => e = StopIteration /\ b = training (model (self st))
           | _ :: _ => b = false
           end
       end.
Proof.
  rewrite get_adversarial_examples_unfold. cbv zeta.
  destruct (dl_epochs _ _) as [|[batch_images lbls] rest].
  - intros H. inversion H; subst; clear H.
    exists (training (model (self st))), (loader_started (train_loader (self st))),
      (heap (world st)).
    split; [destruct st as [[[] ? ? ? ? ? ? ? ? ?] []]; reflexivity|].
    repeat split; auto.
  - destruct (repeat_n _ _ _) as [r0 st2] eqn:Hloop.
    pose proof (adversarial_loop_frame _ _ _ _ _ _ _ _ Hloop) as (Hself & Hworld & _).
    destruct st2 as [t2 w2]. cbn [self world] in Hself, Hworld. subst t2.
    assert (Hw : w2 = set_heap (heap w2) (world st)).
    { rewrite Hworld. destruct st as [? []]. reflexivity. }
    destruct r0 as [[]|e]; intros H; inversion H; subst; clear H.
    + exists (training (model (self st))),
        (loader_fetched (loader_started (train_loader (self st)))), (heap w2).
      split.
      * rewrite Hw at 1. destruct st as [[[] ? ? ? ? ? ? ? ? ?] []]. reflexivity.
      * repeat split; auto.
    + exists false,
        (loader_fetched (loader_started (train_loader (self st)))), (heap w2).
      split.
      * rewrite Hw at 1. destruct st as [[[] ? ? ? ? ? ? ? ? ?] []]. reflexivity.
      * repeat split; auto.
Qed.

(** C2, as the code has it: [train_mask] and [get_adversarial_examples]
    restore the mode the model had before the call when they return; there
    is no cleanup path, so when a computation raises after a batch was
    drawn, the model is left in evaluation mode. *)
Theorem mode_restored_on_return (st : State) :
  (forall r st', train_mask C st = (Ok r, st') ->
     training (model (self st')) = training (model (self st)))
  /\ (forall noise_ampl n_iter r st',
        get_adversarial_examples C noise_ampl n_iter st = (Ok r, st') ->
        training (model (self st')) = training (model (self st)))
  /\ (forall e st', train_mask C st = (Raise e, st') ->
        dl_epochs (train_loader (self st)) (dl_iters (train_loader (self st))) <> [] ->
        training (model (self st')) = false)
  /\ (forall noise_ampl n_iter e st',
        get_adversarial_examples C noise_ampl n_iter st = (Raise e, st') ->
        dl_epochs (train_loader (self st)) (dl_iters (train_loader (self st))) <> [] ->
        training (model (self st')) = false).
Proof.
  repeat split.
  - intros r st' H. apply train_mask_effect in H as (b & L' & evs & -> & _ & _ & _ & ->).
    reflexivity.
  - intros noise_ampl n_iter r st' H.
    apply get_adversarial_examples_effect in H as (b & L' & h & -> & _ & _ & ->).
    reflexivity.
  - intros e st' H Hne.
    apply train_mask_effect in H as (b & L' & evs & -> & _ & _ & _ & Hb).
    destruct (dl_epochs _ _); [contradiction|]. subst b. reflexivity.
  - intros noise_ampl n_iter e st' H Hne.
    apply get_adversarial_examples_effect in H as (b & L' & h & -> & _ & _ & Hb).
    destruct (dl_epochs _ _); [contradiction|]. subst b. reflexivity.
Qed.

End MaskHook.

Lemma get_adversarial_examples_invariants_witness :
  exists ex st',
    get_adversarial_examples (demo_collaborators demo_loader) (f32_of_Z 100) 2 demo_state
    = (Ok ex, st')
    /\ exists batch_images rest orig adv,
         dl_epochs (train_loader (self demo_state))
           (dl_iters (train_loader (self demo_state)))
         = (batch_images, labels ex) :: rest
         /\ heap (world st') !! original ex = Some orig
         /\ heap (world st') !! adversarial ex = Some adv
         /\ orig = batch_images
         /\ shape adv = shape orig
         /\ (2 = 0 -> adv = orig).
Proof.
  eexists _, _. split; [vm_compute; reflexivity|].
  apply (get_adversarial_examples_invariants (demo_collaborators demo_loader)
           (f32_of_Z 100) 2 demo_state).
  - vm_compute. reflexivity.
  - lia.
  - vm_compute. reflexivity.
Defined.

Lemma mode_restored_on_return_witness :
  training (model (self (snd (train_mask (demo_collaborators demo_loader) demo_state))))
  = training (model (self demo_state))
  /\ training (model (self (snd (get_adversarial_examples
                                   (demo_collaborators demo_loader)
                                   (f32_of_Z 100) 1 demo_state))))
     = training (model (self demo_state))
  /\ training (model (self (snd (train_mask failing_forward_collaborators demo_state))))
     = false.
Proof.
  split; [|split].
  - eapply (proj1 (mode_restored_on_return (demo_collaborators demo_loader) demo_state)).
    vm_compute. reflexivity.
  - eapply (proj1 (proj2 (mode_restored_on_return (demo_collaborators demo_loader)
                            demo_state)) (f32_of_Z 100) 1).
    vm_compute. reflexivity.
  - eapply (proj1 (proj2 (proj2 (mode_restored_on_return
                                   failing_forward_collaborators demo_state)))).
    + vm_compute. reflexivity.
    + vm_compute. discriminate.
Defined.

(** C2 as stated fails: when the forward pass raises, both calls exit with
    the error and leave the model, which was in training mode, in evaluation
    mode. *)
Lemma mode_not_restored_on_error :
  training (model (self demo_state)) = true
  /\ fst (train_mask failing_forward_collaborators demo_state)
     = Raise (RuntimeError "size mismatch")
  /\ training (model (self (snd (train_mask failing_forward_collaborators demo_state))))
     = false
  /\ fst (get_adversarial_examples failing_forward_collaborators (f32_of_Z 100) 10
            demo_state)
     = Raise (RuntimeError "size mismatch")
  /\ training (model (self (snd (get_adversarial_examples failing_forward_collaborators
                                   (f32_of_Z 100) 10 demo_state))))
     = false.
Proof. vm_compute. repeat split. Qed.


(** ** Traces and the timer *)

Lemma marks_app (a b : list Event) : marks (a ++ b) = marks a ++ marks b.
Proof. unfold marks. apply omap_app. Qed.

Lemma traced_refl (st : State) : traced [] st st.
Proof. exists []. split; [rewrite app_nil_r|]; reflexivity. Qed.

Lemma traced_trans (m1 m2 : list Mark) (st st1 st2 : State) :
  traced m1 st st1 -> traced m2 st1 st2 -> traced (m1 ++ m2) st st2.
Proof.
  intros (e1 & H1 & M1) (e2 & H2 & M2). exists (e1 ++ e2). split.
  - rewrite H2, H1, app_assoc. reflexivity.
  - rewrite marks_app, M1, M2. reflexivity.
Qed.

Lemma traced_emit (e : Event) (st : State) :
  traced (marks [e]) st (emitted e st).
Proof. exists [e]. split; reflexivity. Qed.

Lemma ticked_refl (st : State) : ticked 0 st st.
Proof. unfold ticked. repeat split. lia. Qed.

Lemma ticked_trans (k1 k2 : Z) (st st1 st2 : State) :
  ticked k1 st st1 -> ticked k2 st1 st2 -> ticked (k1 + k2) st st2.
Proof.
  intros (A1 & B1 & C1 & D1) (A2 & B2 & C2 & D2). unfold ticked.
  repeat split; try congruence. lia.
Qed.

(** ** One epoch *)

Section Epoch.

Context (C : Collaborators).

Lemma run_call_train_batch images lbls st m' r :
  train_batch C (model (self st)) images lbls = (m', r) ->
  call_train_batch C images lbls st = (r, on_self (set_model m') st).
Proof. unfold call_train_batch. intros ->. reflexivity. Qed.

Lemma run_warn_each (ps : list (string * FloatTensor)) : forall st,
  for_each ps (fun np : string * FloatTensor =>
     if isnan_any (snd np)
     then warn ("NaN parameters in '" +:+ fst np +:+ "'")
     else mret tt) st
  = (Ok tt,
     mkState (self st)
       (set_warnings
          (warnings (world st)
           ++ flat_map (fun np : string * FloatTensor =>
                          if isnan_any (snd np) then [nan_warning (fst np)] else [])
                       ps)
          (world st))).
Proof.
  induction ps as [|np ps IH]; intros st.
  - simpl. rewrite app_nil_r. destruct st as [? []]. reflexivity.
  - cbn [for_each flat_map]. destruct (isnan_any (snd np)).
    + mrun by reflexivity. rewrite IH. simpl. rewrite <- app_assoc. reflexivity.
    + mrun by reflexivity. rewrite IH. reflexivity.
Qed.

Lemma run_warn_nan_parameters st :
  warn_nan_parameters st
  = (Ok tt,
     mkState (self st)
       (set_warnings (warnings (world st) ++ nan_warnings (model (self st)))
          (world st))).
Proof.
  unfold warn_nan_parameters. mrun by reflexivity. apply run_warn_each.
Qed.

Lemma train_epoch_loop_spec (batches : list Batch) : forall acc st r st',
  train_epoch_loop C batches acc st = (r, st') ->
  warnings (world st')
  = warnings (world st)
    ++ flat_map nan_warnings (models_after_batches C (model (self st)) batches)
  /\ traced [] st st'
  /\ ticked (Z.of_nat (length (models_after_batches C (model (self st)) batches)))
        st st'
  /\ match r with
     | Ok acc' =>
         length (models_after_batches C (model (self st)) batches) = length batches
         /\ (mean_value (fst acc') = None ->
             batches = [] /\ mean_value (fst acc) = None)
         /\ (batches = [] -> acc' = acc)
     | Raise _ =>
         (length (models_after_batches C (model (self st)) batches)
          < length batches)%nat
     end.
Proof.
  induction batches as [|[images lbls] rest IH]; intros acc st r st' H.
  - inversion H; subst; clear H. cbn [models_after_batches flat_map length].
    rewrite app_nil_r. split; [reflexivity|]. split; [apply traced_refl|].
    split; [apply ticked_refl|]. split; [reflexivity|]. split.
    + intros Hnone. split; [reflexivity|exact Hnone].
    + reflexivity.
  - cbn [train_epoch_loop] in H. cbn [models_after_batches].
    erewrite bind_run in H by reflexivity.
    destruct (train_batch C (model (self st)) images lbls) as [m' [[outputs loss]|e]]
      eqn:Htb.
    + erewrite bind_run in H by (apply run_call_train_batch; exact Htb).
      cbv beta iota in H.
      erewrite bind_run in H by apply run_warn_nan_parameters.
      erewrite bind_run in H by reflexivity.
      apply IH in H as (Hw & Ht & Hk & Hr). clear IH.
      simpl in Hw, Hr. cbn [length flat_map].
      split; [|split; [|split]].
      * rewrite Hw. rewrite <- app_assoc. reflexivity.
      * destruct Ht as (evs & He & Hm). exists (EvBatchFinished :: evs).
        split; [|exact Hm]. rewrite He. simpl. rewrite <- app_assoc. reflexivity.
      * destruct Hk as (A & B & D & E). unfold ticked. simpl in A, B, D, E.
        split; [exact A|]. split; [lia|]. split; assumption.
      * destruct r as [acc'|e].
        -- destruct Hr as (Hlen & Hmean & _). split; [congruence|]. split.
           ++ intros Hnone. destruct (Hmean Hnone) as [_ Habs]. discriminate Habs.
           ++ discriminate.
        -- lia.
    + erewrite bind_raise in H by (apply run_call_train_batch; exact Htb).
      inversion H; subst; clear H. cbn [flat_map length]. rewrite app_nil_r.
      split; [reflexivity|]. split; [|split].
      * exists []. split; [rewrite app_nil_r|]; reflexivity.
      * unfold ticked. simpl. repeat split. lia.
      * lia.
Qed.

Lemma train_epoch_spec (epoch : Z) (st : State) r st' :
  train_epoch C epoch st = (r, st') ->
  let batches := dl_epochs (train_loader (self st)) (dl_iters (train_loader (self st))) in
  let models := models_after_batches C (model (self st)) batches in
  warnings (world st') = warnings (world st) ++ flat_map nan_warnings models
  /\ traced [Epoch epoch] st st'
  /\ ticked (Z.of_nat (length models)) st st'
  /\ match r with
     | Ok _ => length models = length batches /\ batches <> []
     | Raise _ => (length models < length batches)%nat \/ batches = []
     end.
Proof.
  cbv zeta. unfold train_epoch. intros H.
  erewrite bind_run in H by reflexivity.
  erewrite bind_run in H by reflexivity.
  apply bind_inv in H as [([mean outputs] & st2 & Hloop & H)|(e & Hloop & ->)].
  - apply train_epoch_loop_spec in Hloop as (Hw & Ht & Hk & Hlen & Hmean & Hsame).
    simpl in Hw, Hk, Hlen, Hmean, Hsame.
    assert (Ht' : traced [Epoch epoch] st st2).
    { destruct Ht as (evs & He & Hm). exists (EvProgressBar epoch :: evs).
      split; [|simpl in *; rewrite Hm; reflexivity].
      rewrite He. simpl. rewrite <- app_assoc. reflexivity. }
    assert (Hk' : ticked (Z.of_nat (length (models_after_batches C (model (self st))
                    (dl_epochs (train_loader (self st))
                       (dl_iters (train_loader (self st))))))) st st2).
    { destruct Hk as (A & B & D & E). unfold ticked. simpl in A, B, D, E.
      repeat split; assumption. }
    clear Ht Hk. cbv beta iota in H.
    unfold mean_get_mean in H.
    destruct (mean_value mean) as [mu|] eqn:Hmu.
    + erewrite bind_run in H by reflexivity.
      erewrite bind_run in H by reflexivity.
      erewrite bind_run in H by reflexivity.
      assert (Hne : dl_epochs (train_loader (self st)) (dl_iters (train_loader (self st)))
                    <> []).
      { intros Hnil. specialize (Hsame Hnil). inversion Hsame; subst.
        discriminate Hmu. }
      assert (Hpost : warnings (world st') = warnings (world st2)
                      /\ traced [] st2 st' /\ ticked 0 st2 st').
      { cbv beta in H.
        match type of H with context [negb ?b] => destruct (negb b) end.
        - erewrite bind_run in H by reflexivity.
          inversion H; subst; clear H. split; [reflexivity|]. split.
          + eexists [_; _; _]. split; [simpl; rewrite <- !app_assoc; reflexivity|reflexivity].
          + unfold ticked. simpl. repeat split. lia.
        - inversion H; subst; clear H. split; [reflexivity|]. split.
          + eexists [_]. split; [reflexivity|reflexivity].
          + unfold ticked. simpl. repeat split. lia. }
      destruct Hpost as (Hw2 & Ht2 & Hk2).
      assert (Hr : r = Ok tt).
      { cbv beta in H.
        match type of H with context [negb ?b] => destruct (negb b) end.
        - erewrite bind_run in H by reflexivity. inversion H. reflexivity.
        - inversion H. reflexivity. }
      subst r.
      split; [congruence|]. split; [|split].
      * apply (traced_trans _ _ _ _ _ Ht' Ht2).
      * rewrite <- (Z.add_0_r (Z.of_nat _)). apply (ticked_trans _ _ _ _ _ Hk' Hk2).
      * split; assumption.
    + erewrite bind_raise in H by reflexivity. inversion H; subst; clear H.
      destruct (Hmean eq_refl) as [Hnil _].
      split; [exact Hw|]. split; [exact Ht'|]. split; [exact Hk'|].
      right. exact Hnil.
  - apply train_epoch_loop_spec in Hloop as (Hw & Ht & Hk & Hlen).
    simpl in Hw, Hk, Hlen.
    split; [exact Hw|]. split; [|split].
    + destruct Ht as (evs & He & Hm). exists (EvProgressBar epoch :: evs).
      split; [|simpl in *; rewrite Hm; reflexivity].
      rewrite He. simpl. rewrite <- app_assoc. reflexivity.
    + destruct Hk as (A & B & D & E). unfold ticked. simpl in A, B, D, E.
      repeat split; assumption.
    + left. exact Hlen.
Qed.

(** C4, as the code has it: when every optimisation step of a non-empty
    epoch succeeds, [train_epoch] returns normally, and the warnings it
    issues are, batch after batch, one for every parameter that holds a NaN
    after that batch, naming the parameter. *)
Theorem train_epoch_nan_warnings (epoch : Z) (st : State) :
  let batches := dl_epochs (train_loader (self st)) (dl_iters (train_loader (self st))) in
  let models := models_after_batches C (model (self st)) batches in
  batches <> [] ->
  length models = length batches ->
  exists st',
    train_epoch C epoch st = (Ok tt, st')
    /\ warnings (world st') = warnings (world st) ++ flat_map nan_warnings models
    /\ forall m name p,
         In m models -> In (name, p) (named_parameters m) -> isnan_any p = true ->
         In (nan_warning name) (warnings (world st')).
Proof.
  cbv zeta. intros Hne Hlen.
  destruct (train_epoch C epoch st) as [r st'] eqn:H.
  apply train_epoch_spec in H as (Hw & _ & _ & Hr). cbv zeta in Hw, Hr.
  destruct r as [[]|e].
  - exists st'. split; [reflexivity|]. split; [exact Hw|].
    intros m name p Hm Hp Hnan. rewrite Hw. apply in_or_app. right.
    apply in_flat_map. exists m. split; [exact Hm|].
    unfold nan_warnings. apply in_flat_map. exists (name, p). split; [exact Hp|].
    simpl. rewrite Hnan. left. reflexivity.
  - destruct Hr as [Hlt|Hnil]; [lia|contradiction].
Qed.

End Epoch.

Lemma train_epoch_nan_warnings_witness :
  exists st',
    train_epoch diverging_collaborators 0 demo_state = (Ok tt, st')
    /\ warnings (world st') = ["NaN parameters in 'fc.bias'"]
    /\ In (nan_warning "fc.bias") (warnings (world st')).
Proof.
  destruct (train_epoch_nan_warnings diverging_collaborators 0 demo_state)
    as (st' & Hrun & Hw & Hin).
  - vm_compute. discriminate.
  - vm_compute. reflexivity.
  - exists st'. split; [exact Hrun|]. split.
    + rewrite Hw. vm_compute. reflexivity.
    + apply (Hin diverged_model "fc.bias" (Tensor [1]%nat [S754_nan])).
      * vm_compute. left. reflexivity.
      * vm_compute. right. left. reflexivity.
      * vm_compute. reflexivity.
Defined.

(** C4 as stated fails for a non-finite value that is not a NaN: after a
    batch that leaves an infinity in [fc.weight], the epoch returns normally
    and no warning has been issued. *)
Lemma train_epoch_infinity_not_warned :
  models_after_batches overflowing_collaborators (model (self demo_state))
    (dl_epochs (train_loader (self demo_state)) (dl_iters (train_loader (self demo_state))))
  = [overflowed_model]
  /\ sd_lookup "fc.weight" (named_parameters overflowed_model)
     = Some (Tensor [2]%nat [S754_infinity false; f32_of_Z 2])
  /\ has_nonfinite (Tensor [2]%nat [S754_infinity false; f32_of_Z 2]) = true
  /\ fst (train_epoch overflowing_collaborators 0 demo_state) = Ok tt
  /\ warnings (world (snd (train_epoch overflowing_collaborators 0 demo_state))) = [].
Proof. vm_compute. repeat split. Qed.


(** ** The run *)

Section Run.

Context (C : Collaborators).

Lemma train_prologue_effect (mutual_info_layers : Z) (st : State) :
  exists st',
    train_prologue mutual_info_layers st = (Ok tt, st')
    /\ traced [] st st' /\ ticked 0 st st'.
Proof.
  unfold train_prologue, log_trainer, monitor_open_env, print, emit,
    mbind, M_bind, mret, M_ret, gets, modify.
  simpl.
  destruct (negb (is_active (monitor (self st))));
    destruct (0 <? mutual_info_layers); simpl;
    (eexists; split; [reflexivity|]; split;
     [ eexists; split; [simpl; rewrite <- ?app_assoc; simpl; reflexivity|reflexivity]
     | unfold ticked; simpl; repeat split; lia ]).
Qed.

Lemma save_cadence st st' :
  save st = (Ok tt, st') -> traced [CheckpointWrite] st st' /\ ticked 0 st st'.
Proof.
  rewrite save_unfold. cbv zeta.
  destruct (mkdir_parents _ _) as [f1|e]; [|discriminate].
  destruct (torch_save _ _ f1) as [f2|e].
  - intros H. inversion H; subst; clear H. split.
    + eexists [_]. split; reflexivity.
    + unfold ticked. simpl. repeat split. lia.
  - destruct e; intros H; inversion H; subst; clear H. split.
    + eexists [_]. split; reflexivity.
    + unfold ticked. simpl. repeat split. lia.
Qed.

Lemma epoch_finished_cadence epoch outputs lbls loss st st' :
  _epoch_finished C epoch outputs lbls st = (Ok loss, st') ->
  traced [CheckpointWrite] st st' /\ ticked 0 st st'.
Proof.
  unfold _epoch_finished. intros H.
  erewrite bind_run in H by reflexivity.
  apply bind_Ok in H as (l & st1 & Hc & H).
  unfold lift in Hc. inversion Hc; subst; clear Hc.
  erewrite bind_run in H by reflexivity.
  apply bind_Ok in H as ([] & st2 & Hs & H).
  inversion H; subst; clear H.
  apply save_cadence in Hs as [Ht Hk]. split.
  - apply (traced_trans [] [CheckpointWrite] _ _ _ (traced_emit (EvUpdateLoss "full train") _) Ht).
  - destruct Hk as (A1 & A2 & A3 & A4). unfold ticked. simpl in *.
    repeat split; assumption.
Qed.

Lemma get_adversarial_examples_cadence noise_ampl n_iter ex st st' :
  get_adversarial_examples C noise_ampl n_iter st = (Ok ex, st') ->
  traced [] st st' /\ ticked 0 st st'.
Proof.
  intros H. apply get_adversarial_examples_effect in H as (b & L' & h & -> & HL1 & HL2 & _).
  split.
  - exists []. split; [simpl; rewrite app_nil_r|]; reflexivity.
  - unfold ticked. simpl. repeat split; try assumption. lia.
Qed.

Lemma train_mask_cadence res st st' :
  train_mask C st = (Ok res, st') -> traced [] st st' /\ ticked 0 st st'.
Proof.
  intros H. apply train_mask_effect in H as (b & L' & evs & -> & HL1 & HL2 & Hev & _).
  split.
  - exists evs. split; [reflexivity|]. destruct Hev as [->| ->]; reflexivity.
  - unfold ticked. simpl. repeat split; try assumption. lia.
Qed.

Lemma train_iteration_cadence (epoch_update_step : Z) (instrumented adv mask : bool)
    (epoch : Z) (st st' : State) :
  train_iteration C epoch_update_step instrumented adv mask epoch st = (Ok tt, st') ->
  epoch_update_step <> 0
  /\ dl_epochs (train_loader (self st)) (dl_iters (train_loader (self st))) <> []
  /\ traced (epoch_marks epoch_update_step epoch) st st'
  /\ ticked (Z.of_nat (length (dl_epochs (train_loader (self st))
                                 (dl_iters (train_loader (self st)))))) st st'.
Proof.
  unfold train_iteration. intros H.
  apply bind_Ok in H as ([] & st1 & Hep & H).
  apply train_epoch_spec in Hep as (_ & Ht1 & Hk1 & Hlen & Hne). cbv zeta in *.
  rewrite Hlen in Hk1.
  destruct (epoch_update_step =? 0) eqn:Hm; [discriminate|].
  apply Z.eqb_neq in Hm. split; [exact Hm|]. split; [exact Hne|].
  unfold epoch_marks.
  destruct (epoch mod epoch_update_step =? 0).
  - erewrite bind_run in H by reflexivity.
    erewrite bind_run in H by reflexivity.
    apply bind_Ok in H as ([outputs_full labels_full] & st2 & Hf & H).
    unfold lift in Hf. inversion Hf; subst st2; clear Hf. cbv beta iota in H.
    erewrite bind_run in H by reflexivity.
    erewrite bind_run in H by reflexivity.
    apply bind_Ok in H as ([] & st3 & Hadv & H).
    apply bind_Ok in H as ([] & st4 & Hmask & H).
    apply bind_Ok in H as (loss & st5 & Hfin & H).
    inversion H; subst st5; clear H.
    assert (Ha : traced [] (emitted EvEpochFinished
                   (emitted EvAccuracySave (emitted (EvFullForwardPass instrumented) st1)))
                   st3
                 /\ ticked 0 (emitted EvEpochFinished
                   (emitted EvAccuracySave (emitted (EvFullForwardPass instrumented) st1)))
                   st3).
    { destruct adv.
      - apply bind_Ok in Hadv as (ex & st3' & Hg & He).
        inversion He; subst; clear He.
        apply get_adversarial_examples_cadence in Hg as [Ht Hk]. split.
        + apply (traced_trans [] [] _ _ _ Ht (traced_emit EvPlotAdversarial _)).
        + destruct Hk as (A1 & A2 & A3 & A4). unfold ticked. simpl in *.
          repeat split; assumption.
      - inversion Hadv; subst. split; [apply traced_refl|apply ticked_refl]. }
    assert (Hb : traced [] st3 st4 /\ ticked 0 st3 st4).
    { destruct mask.
      - apply bind_Ok in Hmask as (res & st4' & Hg & He).
        inversion He; subst; clear He.
        apply train_mask_cadence in Hg. exact Hg.
      - inversion Hmask; subst. split; [apply traced_refl|apply ticked_refl]. }
    apply epoch_finished_cadence in Hfin as [Ht5 Hk5].
    destruct Ha as [Ht3 Hk3]. destruct Hb as [Ht4 Hk4].
    split.
    + pose proof (traced_trans _ _ _ _ _ Ht1
                    (traced_trans _ _ _ _ _
                       (traced_emit (EvFullForwardPass instrumented) st1)
                       (traced_trans _ _ _ _ _ (traced_emit EvAccuracySave _)
                          (traced_trans _ _ _ _ _ (traced_emit EvEpochFinished _)
                             (traced_trans _ _ _ _ _ Ht3
                                (traced_trans _ _ _ _ _ Ht4 Ht5)))))) as Hall.
      exact Hall.
    + assert (Hk0 : ticked 0 st1 (emitted EvEpochFinished
                   (emitted EvAccuracySave (emitted (EvFullForwardPass instrumented) st1)))).
      { unfold ticked. simpl. repeat split. lia. }
      pose proof (ticked_trans _ _ _ _ _ Hk1
                    (ticked_trans _ _ _ _ _ Hk0
                       (ticked_trans _ _ _ _ _ Hk3
                          (ticked_trans _ _ _ _ _ Hk4 Hk5)))) as Hall.
      simpl in Hall. rewrite Z.add_0_r in Hall. exact Hall.
  - inversion H; subst; clear H. split; assumption.
Qed.

Lemma ticked_loader_wf (k : Z) (st st' : State) :
  ticked k st st' -> loader_wf (train_loader (self st)) ->
  loader_wf (train_loader (self st')).
Proof.
  intros (_ & _ & He & Hl) Hwf i. rewrite He, Hl. apply Hwf.
Qed.

Lemma train_loop_cadence (epoch_update_step : Z) (instrumented adv mask : bool)
    (epochs : list Z) : forall st st',
  for_each epochs (train_iteration C epoch_update_step instrumented adv mask) st
  = (Ok tt, st') ->
  traced (flat_map (epoch_marks epoch_update_step) epochs) st st'
  /\ (loader_wf (train_loader (self st)) ->
      ticked (Z.of_nat (length epochs) * Z.of_nat (dl_len (train_loader (self st))))
        st st'
      /\ (epochs <> [] -> (0 < dl_len (train_loader (self st)))%nat)).
Proof.
  induction epochs as [|epoch rest IH]; intros st st' H.
  - inversion H; subst; clear H. split; [apply traced_refl|].
    intros _. split; [apply ticked_refl|]. intros Hne. contradiction.
  - cbn [for_each] in H. apply bind_Ok in H as ([] & st1 & Hit & H).
    apply train_iteration_cadence in Hit as (_ & Hne & Ht1 & Hk1).
    apply IH in H as (Ht2 & Hk2). clear IH. split.
    + cbn [flat_map]. apply (traced_trans _ _ _ _ _ Ht1 Ht2).
    + intros Hwf. pose proof (ticked_loader_wf _ _ _ Hk1 Hwf) as Hwf1.
      destruct (Hk2 Hwf1) as [Hk2' _].
      pose proof (Hwf (dl_iters (train_loader (self st)))) as Hlen.
      assert (Hl1 : dl_len (train_loader (self st1)) = dl_len (train_loader (self st))).
      { destruct Hk1 as (_ & _ & _ & E). exact E. }
      split.
      * pose proof (ticked_trans _ _ _ _ _ Hk1 Hk2') as Hall.
        rewrite Hlen, Hl1 in Hall.
        replace (Z.of_nat (length (epoch :: rest))
                 * Z.of_nat (dl_len (train_loader (self st))))
          with (Z.of_nat (dl_len (train_loader (self st)))
                + Z.of_nat (length rest) * Z.of_nat (dl_len (train_loader (self st))))
          by (cbn [length]; lia).
        exact Hall.
      * intros _. rewrite <- Hlen.
        destruct (dl_epochs _ _); [contradiction|]. simpl. lia.
Qed.

Lemma range_length (a n : Z) : length (range a (a + n)) = Z.to_nat n.
Proof.
  unfold range. rewrite length_map, length_seq. f_equal. lia.
Qed.

Lemma train_cadence (n_epoch epoch_update_step mutual_info_layers : Z)
    (adv mask : bool) (st st' : State) :
  train C n_epoch epoch_update_step mutual_info_layers adv mask st = (Ok tt, st') ->
  let epochs := range (timer_epoch (timer (world st)))
                      (timer_epoch (timer (world st)) + n_epoch) in
  traced (flat_map (epoch_marks epoch_update_step) epochs) st st'
  /\ (loader_wf (train_loader (self st)) ->
      ticked (Z.of_nat (length epochs) * Z.of_nat (dl_len (train_loader (self st))))
        st st'
      /\ (epochs <> [] -> (0 < dl_len (train_loader (self st)))%nat)).
Proof.
  cbv zeta. unfold train. intros H.
  destruct (train_prologue_effect mutual_info_layers st) as (st0 & Hp & Ht0 & Hk0).
  erewrite bind_run in H by exact Hp.
  erewrite bind_run in H by reflexivity.
  assert (He : timer_epoch (timer (world st0)) = timer_epoch (timer (world st))).
  { destruct Hk0 as (A & B & _). unfold timer_epoch. rewrite A, B, Z.add_0_r.
    reflexivity. }
  rewrite He in H. apply train_loop_cadence in H as (Ht & Hk). split.
  - apply (traced_trans [] _ _ _ _ Ht0 Ht).
  - intros Hwf. pose proof (ticked_loader_wf _ _ _ Hk0 Hwf) as Hwf0.
    destruct (Hk Hwf0) as [Hk' Hpos].
    assert (Hl : dl_len (train_loader (self st0)) = dl_len (train_loader (self st))).
    { destruct Hk0 as (_ & _ & _ & E). exact E. }
    rewrite Hl in Hk', Hpos. split; [|exact Hpos].
    apply (ticked_trans 0 _ _ _ _ Hk0 Hk').
Qed.

(** C3: in a completed call [train(n_epoch, epoch_update_step=m, ...)] with
    [m >= 1], the cadence events of the run are, epoch after epoch of
    [range(epoch, epoch + n_epoch)], the epoch itself followed, exactly when
    [epoch mod m = 0], by the full-dataset pass, the calibration of the
    accuracy strategy, the epoch-finished event and the checkpoint write. *)
Theorem train_evaluation_cadence (n_epoch m mutual_info_layers : Z)
    (adv mask : bool) (st st' : State) :
  1 <= m ->
  train C n_epoch m mutual_info_layers adv mask st = (Ok tt, st') ->
  exists evs,
    trace (world st') = trace (world st) ++ evs
    /\ marks evs
       = flat_map (fun epoch =>
                     Epoch epoch ::
                     (if epoch mod m =? 0
                      then [FullPass; Calibration; EpochFinished; CheckpointWrite]
                      else []))
           (range (timer_epoch (timer (world st)))
                  (timer_epoch (timer (world st)) + n_epoch)).
Proof.
  intros _ H. apply train_cadence in H as [Ht _]. exact Ht.
Qed.

(** C8: a completed call [train(n_epoch=k, ...)] with [k >= 0] leaves the
    epoch counter at its value before the call plus [k], whatever
    [epoch_update_step], for a timer initialised with the length of a
    training loader each of whose iterators yields that many batches. *)
Theorem train_advances_epoch_counter (k epoch_update_step mutual_info_layers : Z)
    (adv mask : bool) (st st' : State) :
  0 <= k ->
  loader_wf (train_loader (self st)) ->
  batches_in_epoch (timer (world st)) = Z.of_nat (dl_len (train_loader (self st))) ->
  train C k epoch_update_step mutual_info_layers adv mask st = (Ok tt, st') ->
  timer_epoch (timer (world st')) = timer_epoch (timer (world st)) + k.
Proof.
  intros Hk Hwf Hinit H. apply train_cadence in H as [_ Ht]. cbv zeta in Ht.
  destruct (Ht Hwf) as [(A & B & _) Hpos]. clear Ht.
  rewrite range_length in B. unfold timer_epoch. rewrite A, B, Hinit.
  destruct (Z.eq_dec k 0) as [->|Hk0].
  - simpl. rewrite Z.add_0_r, Z.add_0_r. reflexivity.
  - assert (Hne : range (timer_epoch (timer (world st)))
                        (timer_epoch (timer (world st)) + k) <> []).
    { intros E. apply (f_equal (@length Z)) in E. rewrite range_length in E.
      simpl in E. lia. }
    specialize (Hpos Hne). rewrite Z2Nat.id by exact Hk.
    apply Z.div_add. lia.
Qed.

(** The constructor initialises the timer with the length of the loader. *)
Lemma init_timer (a : InitArgs) (w : World) (t : Trainer) (w' : World) :
  __init__ C a w = (Ok t, w') ->
  batches_in_epoch (timer w') = Z.of_nat (dl_len (train_loader t)).
Proof.
  rewrite init_unfold. cbv zeta.
  destruct (dl_epochs _ _) as [|[images lbls] rest]; [discriminate|].
  destruct (index0 images 0) as [image|e]; [|discriminate].
  intros H. inversion H; subst; clear H. reflexivity.
Qed.

End Run.

Lemma train_evaluation_cadence_witness :
  exists st' evs,
    train (demo_collaborators demo_loader) 3 2 0 false false demo_state = (Ok tt, st')
    /\ trace (world st') = trace (world demo_state) ++ evs
    /\ marks evs
       = [Epoch 0; FullPass; Calibration; EpochFinished; CheckpointWrite;
          Epoch 1;
          Epoch 2; FullPass; Calibration; EpochFinished; CheckpointWrite].
Proof.
  assert (Hrun : train (demo_collaborators demo_loader) 3 2 0 false false demo_state
                 = (Ok tt, snd (train (demo_collaborators demo_loader) 3 2 0 false false
                                  demo_state))).
  { vm_compute. reflexivity. }
  destruct (train_evaluation_cadence (demo_collaborators demo_loader) 3 2 0 false false
              demo_state _ ltac:(lia) Hrun) as (evs & He & Hm).
  eexists _, evs. split; [exact Hrun|]. split; [exact He|].
  rewrite Hm. vm_compute. reflexivity.
Defined.

Lemma train_advances_epoch_counter_witness :
  timer_epoch (timer (world (snd (train (demo_collaborators demo_loader) 3 2 0 true true
                                    demo_state))))
  = timer_epoch (timer (world demo_state)) + 3.
Proof.
  apply (train_advances_epoch_counter (demo_collaborators demo_loader) 3 2 0 true true
           demo_state).
  - lia.
  - intros i. reflexivity.
  - reflexivity.
  - vm_compute. reflexivity.
Defined.


(** ** Restoring a checkpoint that fits *)

Lemma sd_lookup_first (sd : StateDict) (k : string) (v : FloatTensor) :
  NoDup (map fst sd) -> In (k, v) sd -> sd_lookup k sd = Some v.
Proof.
  induction sd as [|[k0 v0] sd IH]; intros Hnd Hin; [destruct Hin|].
  simpl in Hnd. apply NoDup_cons in Hnd as [Hnot Hnd]. simpl.
  destruct Hin as [E|Hin].
  - inversion E; subst. rewrite String.eqb_refl. reflexivity.
  - destruct (String.eqb_spec k0 k) as [->|Hne].
    + exfalso. apply Hnot. apply list_elem_of_In. apply in_map_iff.
      exists (k, v). split; [reflexivity|exact Hin].
    + apply IH; assumption.
Qed.

Lemma sd_lookup_key (sd : StateDict) (k : string) :
  In k (map fst sd) -> exists v, sd_lookup k sd = Some v.
Proof.
  induction sd as [|[k0 v0] sd IH]; intros Hin; [destruct Hin|].
  simpl. destruct (String.eqb_spec k0 k) as [->|Hne]; [eauto|].
  destruct Hin as [E|Hin]; [contradiction|]. apply IH. exact Hin.
Qed.

Lemma fits_keys (sd ps : StateDict) :
  Forall2 (fun a b : string * FloatTensor =>
             fst a = fst b /\ shape (snd a) = shape (snd b)) sd ps ->
  map fst sd = map fst ps.
Proof.
  induction 1 as [|a b sd ps [Hk _] _ IH]; [reflexivity|].
  simpl. rewrite Hk, IH. reflexivity.
Qed.

Lemma load_fitting (sd0 : StateDict) : forall sd ps,
  Forall2 (fun a b : string * FloatTensor =>
             fst a = fst b /\ shape (snd a) = shape (snd b)) sd ps ->
  (forall k v, In (k, v) sd -> sd_lookup k sd0 = Some v) ->
  map (load_param sd0) ps = sd
  /\ size_mismatch_msgs sd0 ps = []
  /\ missing_keys sd0 ps = [].
Proof.
  induction 1 as [|[k v] [k' p] sd ps [Hk Hs] _ IH]; intros Hl.
  - repeat split.
  - simpl in Hk, Hs. subst k'.
    destruct IH as (IH1 & IH2 & IH3).
    { intros k0 v0 Hin. apply Hl. right. exact Hin. }
    assert (Hv : sd_lookup k sd0 = Some v) by (apply Hl; left; reflexivity).
    assert (Hp : load_param sd0 (k, p) = (k, v)).
    { unfold load_param. cbn [fst snd]. rewrite Hv. unfold shape_eqb.
      rewrite bool_decide_eq_true_2 by exact Hs.
      destruct v as [sv dv]. simpl in Hs. subst sv. reflexivity. }
    split; [|split].
    + cbn [map]. rewrite Hp, IH1. reflexivity.
    + change (size_mismatch_msgs sd0 ((k, p) :: ps))
        with ((match sd_lookup k sd0 with
               | Some input =>
                   if shape_eqb (shape input) (shape p) then []
                   else ["size mismatch for " +:+ k]
               | None => []
               end) ++ size_mismatch_msgs sd0 ps).
      rewrite Hv, IH2. unfold shape_eqb.
      rewrite bool_decide_eq_true_2 by exact Hs. reflexivity.
    + change (missing_keys sd0 ((k, p) :: ps))
        with ((match sd_lookup k sd0 with
               | Some _ => []
               | None => [k]
               end) ++ missing_keys sd0 ps).
      rewrite Hv, IH3. reflexivity.
Qed.

Lemma unexpected_keys_none (ps : StateDict) : forall sd,
  (forall k, In k (map fst sd) -> In k (map fst ps)) ->
  unexpected_keys sd ps = [].
Proof.
  induction sd as [|[k v] sd IH]; intros Hsub; [reflexivity|].
  change (unexpected_keys ((k, v) :: sd) ps)
    with ((match sd_lookup k ps with
           | Some _ => []
           | None => [k]
           end) ++ unexpected_keys sd ps).
  destruct (sd_lookup_key ps k) as [x ->].
  { apply Hsub. left. reflexivity. }
  rewrite IH; [reflexivity|]. intros k0 Hin. apply Hsub. right. exact Hin.
Qed.

Lemma load_state_dict_fits (sd : StateDict) (strict : bool) (m : Model) :
  fits sd (named_parameters m) ->
  load_state_dict sd strict m = (set_parameters sd m, Ok tt).
Proof.
  intros [Hf Hnd]. pose proof (fits_keys _ _ Hf) as Hkeys.
  destruct (load_fitting sd sd (named_parameters m) Hf) as (H1 & H2 & H3).
  { intros k v Hin. apply sd_lookup_first; [|exact Hin]. rewrite Hkeys.
    exact Hnd. }
  assert (H4 : unexpected_keys sd (named_parameters m) = []).
  { apply unexpected_keys_none. intros k Hin. rewrite <- Hkeys. exact Hin. }
  unfold load_state_dict. cbv zeta. rewrite H1, H2, H3, H4.
  destruct strict; reflexivity.
Qed.

Lemma timer_set_epoch_epoch (e : Z) (t : BatchTimer) :
  batches_in_epoch t <> 0 -> timer_epoch (timer_set_epoch e t) = e.
Proof.
  intros H. unfold timer_epoch, timer_set_epoch. simpl.
  rewrite Z.mul_comm. apply Z.div_mul. exact H.
Qed.

(** The run of [restore] on a checkpoint that fits. *)
Lemma restore_fitting_run (arg : option Path) (strict : bool) (st : State)
    (w : bool) (ck : Checkpoint) :
  fs_lookup (restore_path arg st) (fs (world st)) = Some (File w (Pickled ck)) ->
  fits (ck_model_state ck) (named_parameters (model (self st))) ->
  exists st',
    restore arg strict st = (Ok (Some ck), st')
    /\ named_parameters (model (self st')) = ck_model_state ck
    /\ training (model (self st')) = training (model (self st))
    /\ model_class (model (self st')) = model_class (model (self st))
    /\ env_name (self st') = ck_env_name ck
    /\ (batches_in_epoch (timer (world st)) <> 0 ->
        timer_epoch (timer (world st')) = ck_epoch ck)
    /\ monitor (self st') = monitor_open (ck_env_name ck) (monitor (self st))
    /\ fs (world st') = fs (world st).
Proof.
  intros Hfile Hfits. rewrite restore_unfold. cbv zeta.
  unfold path_exists, torch_load. rewrite Hfile. cbn [negb].
  rewrite (load_state_dict_fits _ strict _ Hfits).
  eexists. split; [reflexivity|]. simpl. repeat split.
  intros HB. apply timer_set_epoch_epoch. exact HB.
Qed.

(** X1: restoring an existing checkpoint that fits the model returns the
    checkpoint, puts its parameters, run identifier and epoch into the
    trainer, opens the monitor on the restored run, and leaves the mode of
    the model and the file system as they were. *)
Theorem restore_fitting_checkpoint (arg : option Path) (strict : bool) (st : State)
    (w : bool) (ck : Checkpoint) :
  fs_lookup (restore_path arg st) (fs (world st)) = Some (File w (Pickled ck)) ->
  fits (ck_model_state ck) (named_parameters (model (self st))) ->
  exists st',
    restore arg strict st = (Ok (Some ck), st')
    /\ named_parameters (model (self st')) = ck_model_state ck
    /\ training (model (self st')) = training (model (self st))
    /\ model_class (model (self st')) = model_class (model (self st))
    /\ env_name (self st') = ck_env_name ck
    /\ (batches_in_epoch (timer (world st)) <> 0 ->
        timer_epoch (timer (world st')) = ck_epoch ck)
    /\ monitor (self st') = monitor_open (ck_env_name ck) (monitor (self st))
    /\ fs (world st') = fs (world st).
Proof. apply restore_fitting_run. Qed.

Lemma restore_fitting_checkpoint_witness :
  exists st',
    restore None true
      (on_world (set_fs (<[checkpoint_path demo_trainer
                           := File true (Pickled (checkpoint_of demo_state))]> ∅))
         demo_state)
    = (Ok (Some (checkpoint_of demo_state)), st')
    /\ named_parameters (model (self st')) = named_parameters demo_model.
Proof.
  destruct (restore_fitting_checkpoint None true
              (on_world (set_fs (<[checkpoint_path demo_trainer
                                   := File true (Pickled (checkpoint_of demo_state))]> ∅))
                 demo_state)
              true (checkpoint_of demo_state)) as (st' & Hrun & Hp & _).
  - vm_compute. reflexivity.
  - split.
    + repeat constructor.
    + apply (bool_decide_unpack _). vm_compute. exact I.
  - exists st'. split; [exact Hrun|exact Hp].
Defined.

Lemma torch_save_lookup (c : Checkpoint) (p : Path) (f f' : gmap (list string) node) :
  torch_save c p f = Ok f' -> fs_lookup p f' = Some (File true (Pickled c)).
Proof.
  unfold torch_save. destruct p as [|name dir]; [discriminate|].
  destruct (fs_lookup dir f) as [[wd|? ?]|]; try discriminate.
  destruct (fs_lookup (name :: dir) f) as [[?|wf ?]|]; try discriminate.
  - destruct wf; [|discriminate]. intros H. inversion H; subst.
    simpl. apply lookup_insert_eq.
  - destruct wd; [|discriminate]. intros H. inversion H; subst.
    simpl. apply lookup_insert_eq.
Qed.

(** What a [save] that printed nothing has written. *)
Lemma save_written (st st' : State) :
  save st = (Ok tt, st') ->
  stdout (world st') = stdout (world st) ->
  torch_load (checkpoint_path (self st)) (fs (world st')) = Ok (checkpoint_of st)
  /\ self st' = self st
  /\ timer (world st') = timer (world st).
Proof.
  rewrite save_unfold. cbv zeta.
  destruct (mkdir_parents _ _) as [f1|e]; [|discriminate].
  destruct (torch_save (checkpoint_of st) (checkpoint_path (self st)) f1)
    as [f2|e] eqn:Hs.
  - intros H _. inversion H; subst; clear H. simpl.
    apply torch_save_lookup in Hs. unfold torch_load. rewrite Hs. repeat split.
  - destruct e; intros H; inversion H; subst; clear H.
    simpl. intros Habs. apply (f_equal (@length string)) in Habs.
    rewrite length_app in Habs. simpl in Habs. lia.
Qed.

(** X2: when [save] returns without having printed an error, the file at
    the checkpoint path holds the parameters, the epoch and the run
    identifier of the trainer, and the trainer and the timer are as before. *)
Theorem save_writes_checkpoint (st st' : State) :
  save st = (Ok tt, st') ->
  stdout (world st') = stdout (world st) ->
  torch_load (checkpoint_path (self st)) (fs (world st')) = Ok (checkpoint_of st)
  /\ self st' = self st
  /\ timer (world st') = timer (world st).
Proof. apply save_written. Qed.

Lemma save_writes_checkpoint_witness :
  torch_load (checkpoint_path (self writable_dir_state))
    (fs (world (snd (save writable_dir_state))))
  = Ok (checkpoint_of writable_dir_state).
Proof.
  apply (save_writes_checkpoint writable_dir_state (snd (save writable_dir_state))).
  - vm_compute. reflexivity.
  - vm_compute. reflexivity.
Defined.

Lemma fits_refl (ps : StateDict) : NoDup (map fst ps) -> fits ps ps.
Proof.
  intros H. split; [|exact H]. clear H.
  induction ps as [|a ps IH]; constructor; [split; reflexivity|exact IH].
Qed.

(** X3: a checkpoint saved without error and restored from the default path
    gives back the model, the run identifier and the epoch that were saved
    (the parameter names being distinct and the timer initialised). *)
Theorem save_restore_round_trip (strict : bool) (st st1 : State) :
  NoDup (map fst (named_parameters (model (self st)))) ->
  save st = (Ok tt, st1) ->
  stdout (world st1) = stdout (world st) ->
  exists st2,
    restore None strict st1 = (Ok (Some (checkpoint_of st)), st2)
    /\ model (self st2) = model (self st)
    /\ env_name (self st2) = env_name (self st)
    /\ (batches_in_epoch (timer (world st)) <> 0 ->
        timer_epoch (timer (world st2)) = timer_epoch (timer (world st))).
Proof.
  intros Hnd Hsave Hout.
  destruct (save_written _ _ Hsave Hout) as (Hload & Hself & Htimer).
  assert (Hfile : exists w, fs_lookup (restore_path None st1) (fs (world st1))
                            = Some (File w (Pickled (checkpoint_of st)))).
  { unfold restore_path. rewrite Hself. unfold torch_load in Hload.
    destruct (fs_lookup _ _) as [[?|w [c|]]|]; try discriminate.
    inversion Hload; subst. eauto. }
  destruct Hfile as [w Hfile].
  destruct (restore_fitting_run None strict st1 w (checkpoint_of st) Hfile)
    as (st2 & Hrun & Hp & Ht & Hc & He & Hep & _).
  { rewrite Hself. apply fits_refl. exact Hnd. }
  exists st2. split; [exact Hrun|]. split; [|split].
  - rewrite Hself in Ht, Hc. simpl in Hp.
    destruct (model (self st2)) as [c2 t2 p2].
    destruct (model (self st)) as [c0 t0 p0].
    simpl in *. subst. reflexivity.
  - exact He.
  - intros HB. rewrite Hep; [reflexivity|]. rewrite Htimer. exact HB.
Qed.

Lemma save_restore_round_trip_witness :
  exists st2,
    restore None true (snd (save writable_dir_state))
    = (Ok (Some (checkpoint_of writable_dir_state)), st2)
    /\ model (self st2) = model (self writable_dir_state)
    /\ env_name (self st2) = env_name (self writable_dir_state)
    /\ timer_epoch (timer (world st2)) = timer_epoch (timer (world writable_dir_state)).
Proof.
  destruct (save_restore_round_trip true writable_dir_state
              (snd (save writable_dir_state))) as (st2 & Hrun & Hm & He & Ht).
  - apply (bool_decide_unpack _). vm_compute. exact I.
  - vm_compute. reflexivity.
  - vm_compute. reflexivity.
  - exists st2. split; [exact Hrun|]. split; [exact Hm|]. split; [exact He|].
    apply Ht. vm_compute. discriminate.
Defined.

(** X4: an existing path that cannot be loaded as a checkpoint is not
    treated like a missing one: [restore] raises the error of the load and
    changes nothing. *)
Theorem restore_unloadable_raises (arg : option Path) (strict : bool) (st : State)
    (e : exn) :
  path_exists (restore_path arg st) (fs (world st)) = true ->
  torch_load (restore_path arg st) (fs (world st)) = Raise e ->
  restore arg strict st = (Raise e, st).
Proof.
  intros Hex Hload. rewrite restore_unfold. cbv zeta. rewrite Hex, Hload.
  reflexivity.
Qed.

Lemma restore_unloadable_raises_witness :
  restore None true garbage_state
  = (Raise (UnpicklingError (checkpoint_path demo_trainer)), garbage_state).
Proof.
  apply restore_unloadable_raises; vm_compute; reflexivity.
Defined.

(** ** What [save] leaves alone *)

Lemma os_mkdir_preserves (p : Path) (f f' : gmap (list string) node) :
  os_mkdir p f = Ok f' -> f !! p = None /\ f' = <[p := Dir true]> f.
Proof.
  unfold os_mkdir. destruct p as [|x parent]; [discriminate|].
  destruct (fs_lookup parent f) as [[w|? ?]|]; try discriminate.
  destruct (fs_lookup (x :: parent) f) as [n|] eqn:E; [discriminate|].
  destruct w; [|discriminate]. intros H. inversion H; subst. split; [exact E|reflexivity].
Qed.

Lemma mkdir_exist_ok_preserves (p : Path) (f f' : gmap (list string) node) :
  mkdir_exist_ok p f = Ok f' ->
  forall q n, f !! q = Some n -> f' !! q = Some n.
Proof.
  unfold mkdir_exist_ok. destruct (os_mkdir p f) as [f0|e] eqn:E.
  - intros H q n Hq. apply os_mkdir_preserves in E as [Hnone Hins].
    injection H as <-. rewrite Hins.
    rewrite lookup_insert_ne; [exact Hq|]. intros Heq. subst q.
    pose proof (eq_trans (eq_sym Hnone) Hq) as Habs. discriminate Habs.
  - destruct (is_dir p f); [|discriminate]. intros H q n Hq. inversion H; subst. exact Hq.
Qed.

Lemma mkdir_parents_unfold (p : Path) (f : gmap (list string) node) :
  mkdir_parents p f =
  match os_mkdir p f with
  | Ok f' => Ok f'
  | Raise (FileNotFoundError q) =>
      match p with
      | [] => Raise (FileNotFoundError q)
      | _ :: parent =>
          match mkdir_parents parent f with
          | Ok f1 => mkdir_exist_ok p f1
          | Raise e => Raise e
          end
      end
  | Raise e => if is_dir p f then Ok f else Raise e
  end.
Proof. destruct p; reflexivity. Qed.

Lemma mkdir_parents_preserves (p : Path) : forall (f f' : gmap (list string) node),
  mkdir_parents p f = Ok f' ->
  forall q n, f !! q = Some n -> f' !! q = Some n.
Proof.
  induction p as [|x parent IH]; intros f f' H q n Hq.
  - rewrite mkdir_parents_unfold in H. unfold os_mkdir in H.
    destruct (is_dir [] f); [|discriminate H].
    inversion H; subst. exact Hq.
  - rewrite mkdir_parents_unfold in H. destruct (os_mkdir (x :: parent) f) as [f0|e] eqn:E.
    + apply os_mkdir_preserves in E as [Hnone Hins]. injection H as <-.
      rewrite Hins. rewrite lookup_insert_ne; [exact Hq|]. intros Heq. subst q.
      pose proof (eq_trans (eq_sym Hnone) Hq) as Habs. discriminate Habs.
    + destruct e;
        try (destruct (is_dir (x :: parent) f); [|discriminate]; inversion H; subst;
             exact Hq).
      destruct (mkdir_parents parent f) as [f1|e1] eqn:E1; [|discriminate].
      eapply mkdir_exist_ok_preserves; [exact H|]. eapply IH; [exact E1|exact Hq].
Qed.

Lemma torch_save_preserves (c : Checkpoint) (p : Path) (f f' : gmap (list string) node) :
  torch_save c p f = Ok f' ->
  forall q n, q <> p -> f !! q = Some n -> f' !! q = Some n.
Proof.
  unfold torch_save. destruct p as [|name dir]; [discriminate|].
  destruct (fs_lookup dir f) as [[wd|? ?]|]; try discriminate.
  destruct (fs_lookup (name :: dir) f) as [[?|wf ?]|]; try discriminate.
  - destruct wf; [|discriminate]. intros H q n Hne Hq. inversion H; subst.
    rewrite lookup_insert_ne; [exact Hq|]. congruence.
  - destruct wd; [|discriminate]. intros H q n Hne Hq. inversion H; subst.
    rewrite lookup_insert_ne; [exact Hq|]. congruence.
Qed.

(** X5: however [save] ends, it leaves the trainer and the timer as they
    were, and every file or directory that existed before, other than the
    checkpoint file itself, exists afterwards with the same content. *)
Theorem save_preserves_other_files (st : State) (r : result unit) (st' : State) :
  save st = (r, st') ->
  self st' = self st
  /\ timer (world st') = timer (world st)
  /\ forall q n,
       q <> checkpoint_path (self st) ->
       fs (world st) !! q = Some n -> fs (world st') !! q = Some n.
Proof.
  rewrite save_unfold. cbv zeta.
  destruct (mkdir_parents _ _) as [f1|e] eqn:Hmk.
  - pose proof (mkdir_parents_preserves _ _ _ Hmk) as Hpres.
    destruct (torch_save (checkpoint_of st) (checkpoint_path (self st)) f1)
      as [f2|e] eqn:Hs.
    + intros H. inversion H; subst; clear H. simpl. repeat split.
      intros q n Hne Hq. eapply torch_save_preserves; eauto.
    + destruct e; intros H; inversion H; subst; clear H; simpl; repeat split;
        intros q n Hne Hq; apply Hpres; exact Hq.
  - intros H. inversion H; subst. repeat split. intros q n _ Hq. exact Hq.
Qed.

Lemma save_preserves_other_files_witness :
  fs (world (snd (save mismatched_state))) !! ["checkpoints"] = Some (Dir true).
Proof.
  assert (Hrun : save mismatched_state
                 = (fst (save mismatched_state), snd (save mismatched_state))).
  { vm_compute. reflexivity. }
  apply (proj2 (proj2 (save_preserves_other_files _ _ _ Hrun))).
  - vm_compute. discriminate.
  - vm_compute. reflexivity.
Defined.

(** ** Edge cases of the run *)

(** Compute the state updates of a state given by its components. *)
Ltac norm_state :=
  cbv beta iota delta
    [on_world on_self set_model set_train_loader set_env_name set_monitor
     set_timer set_fs set_stdout set_warnings set_heap set_trace
     self world model criterion dataset_name trainer_class checkpoint_dir
     train_loader env_name accuracy_measure monitor mask_trainer
     timer cuda_is_available today fs stdout warnings heap trace].

Section RunEdges.

Context (C : Collaborators).

(** The prologue touches the monitor, standard output and the trace only. *)
Lemma train_prologue_frame (mutual_info_layers : Z) (st : State) :
  exists mon out evs,
    train_prologue mutual_info_layers st
    = (Ok tt,
       mkState (set_monitor mon (self st))
               (set_stdout out (set_trace (trace (world st) ++ evs) (world st))))
    /\ marks evs = [].
Proof.
  unfold train_prologue, log_trainer, monitor_open_env, print, emit,
    mbind, M_bind, mret, M_ret, gets, modify.
  destruct st as [[] []]. simpl.
  match goal with |- context [negb (is_active ?m)] => destruct (negb (is_active m)) end;
    destruct (0 <? mutual_info_layers); norm_state; rewrite <- ?app_assoc; simpl;
    (eexists _, _, _; split; [reflexivity|reflexivity]).
Qed.

Lemma range_empty (a n : Z) : n <= 0 -> range a (a + n) = [].
Proof.
  intros H. unfold range. replace (Z.to_nat (a + n - a)) with 0%nat by lia.
  reflexivity.
Qed.

Lemma range_first (a n : Z) :
  1 <= n -> range a (a + n) = a :: range (a + 1) (a + 1 + (n - 1)).
Proof.
  intros H. unfold range.
  replace (Z.to_nat (a + n - a)) with (S (Z.to_nat (n - 1))) by lia.
  replace (Z.to_nat (a + 1 + (n - 1) - (a + 1))) with (Z.to_nat (n - 1)) by lia.
  cbn [seq map]. f_equal; [lia|].
  rewrite <- seq_shift, map_map. apply map_ext. intros i. lia.
Qed.

(** X6: [train] with [n_epoch <= 0] runs no epoch, whatever the other
    arguments (even [epoch_update_step = 0]): it returns normally, no cadence
    event occurs, and the model, the training loader, the timer, the file
    system and the warnings are unchanged. *)
Theorem train_no_epoch (n_epoch epoch_update_step mutual_info_layers : Z)
    (adv mask : bool) (st : State) :
  n_epoch <= 0 ->
  exists st' evs,
    train C n_epoch epoch_update_step mutual_info_layers adv mask st = (Ok tt, st')
    /\ trace (world st') = trace (world st) ++ evs /\ marks evs = []
    /\ model (self st') = model (self st)
    /\ train_loader (self st') = train_loader (self st)
    /\ timer (world st') = timer (world st)
    /\ fs (world st') = fs (world st)
    /\ warnings (world st') = warnings (world st).
Proof.
  intros Hn. unfold train.
  destruct (train_prologue_frame mutual_info_layers st) as (mon & out & evs & Hp & Hm).
  erewrite bind_run by exact Hp.
  erewrite bind_run by reflexivity.
  rewrite range_empty by exact Hn. cbn [for_each].
  eexists _, evs. split; [reflexivity|]. simpl. repeat split. exact Hm.
Qed.

(** X7: [train] with [epoch_update_step = 0] and [n_epoch >= 1] never
    returns normally; when the first epoch itself trains without error, the
    call stops with [ZeroDivisionError] after that epoch, whose batches the
    timer has counted. *)
Theorem train_zero_update_step (n_epoch mutual_info_layers : Z) (adv mask : bool)
    (st : State) :
  1 <= n_epoch ->
  exists e st',
    train C n_epoch 0 mutual_info_layers adv mask st = (Raise e, st')
    /\ (let batches := dl_epochs (train_loader (self st))
                         (dl_iters (train_loader (self st))) in
        batches <> [] ->
        length (models_after_batches C (model (self st)) batches) = length batches ->
        e = ZeroDivisionError
        /\ batch_id (timer (world st'))
           = batch_id (timer (world st)) + Z.of_nat (length batches)).
Proof.
  intros Hn. unfold train.
  destruct (train_prologue_frame mutual_info_layers st) as (mon & out & evs & Hp & Hm).
  erewrite bind_run by exact Hp.
  erewrite bind_run by reflexivity.
  rewrite range_first by exact Hn. cbn [for_each].
  set (st0 := mkState (set_monitor mon (self st))
                (set_stdout out (set_trace (trace (world st) ++ evs) (world st)))).
  destruct (train_epoch C (timer_epoch (timer (world st0))) st0) as [[[]|e] st1] eqn:Hep.
  - erewrite bind_raise
      by (unfold train_iteration; erewrite bind_run by exact Hep; reflexivity).
    exists ZeroDivisionError, st1. split; [reflexivity|].
    cbv zeta. intros _ _. split; [reflexivity|].
    apply train_epoch_spec in Hep as (_ & _ & Hk & Hlen & _). cbv zeta in Hk, Hlen.
    destruct Hk as (_ & B & _). simpl in B, Hlen. rewrite B, Hlen. reflexivity.
  - erewrite bind_raise
      by (unfold train_iteration; erewrite bind_raise by exact Hep; reflexivity).
    exists e, st1. split; [reflexivity|].
    cbv zeta. intros Hne Hlen.
    apply train_epoch_spec in Hep as (_ & _ & _ & Hr). cbv zeta in Hr. simpl in Hr.
    destruct Hr as [Hlt|Hnil]; [lia|contradiction].
Qed.

End RunEdges.

(** ** One pass over the loader *)

Lemma flat_map_all_nil {A B : Type} (f : A -> list B) (l : list A) :
  (forall x, In x l -> f x = []) -> flat_map f l = [].
Proof.
  induction l as [|a l IH]; intros H; [reflexivity|].
  cbn [flat_map]. rewrite (H a) by (left; reflexivity).
  apply IH. intros x Hx. apply H. right. exact Hx.
Qed.

Section EpochPass.

Context (C : Collaborators).

Lemma train_epoch_loop_outcome (batches : list Batch) : forall acc st r st',
  train_epoch_loop C batches acc st = (r, st') ->
  dl_iters (train_loader (self st')) = dl_iters (train_loader (self st))
  /\ match first_failure C (model (self st)) batches with
     | Some e =>
         r = Raise e
         /\ dl_fetched (train_loader (self st'))
            = (dl_fetched (train_loader (self st))
               + S (length (models_after_batches C (model (self st)) batches)))%nat
     | None =>
         (exists acc', r = Ok acc')
         /\ dl_fetched (train_loader (self st'))
            = (dl_fetched (train_loader (self st)) + length batches)%nat
     end.
Proof.
  induction batches as [|[images lbls] rest IH]; intros acc st r st' H.
  - inversion H; subst; clear H. cbn [first_failure length].
    split; [reflexivity|]. split; [eauto|lia].
  - cbn [train_epoch_loop] in H. cbn [first_failure models_after_batches].
    erewrite bind_run in H by reflexivity.
    destruct (train_batch C (model (self st)) images lbls) as [m' [[outputs loss]|e]]
      eqn:Htb.
    + erewrite bind_run in H by (apply run_call_train_batch; exact Htb).
      cbv beta iota in H.
      erewrite bind_run in H by apply run_warn_nan_parameters.
      erewrite bind_run in H by reflexivity.
      apply IH in H as (Hi & Hr). clear IH. simpl in Hi, Hr.
      split; [exact Hi|].
      destruct (first_failure C m' rest) as [e|].
      * destruct Hr as [-> Hf]. split; [reflexivity|]. rewrite Hf. cbn [length]. lia.
      * destruct Hr as [Hok Hf]. split; [exact Hok|]. rewrite Hf. cbn [length]. lia.
    + erewrite bind_raise in H by (apply run_call_train_batch; exact Htb).
      inversion H; subst; clear H. simpl. split; [reflexivity|].
      split; [reflexivity|lia].
Qed.

(** X8: a failure of [train_batch] is not masked: [train_epoch] raises the
    exception of the first failing batch; the batches before it have been
    counted by the timer and scanned for NaNs, and the failing batch is the
    last one fetched. *)
Theorem train_epoch_propagates_failure (epoch : Z) (st : State) (e : exn) :
  let batches := dl_epochs (train_loader (self st)) (dl_iters (train_loader (self st))) in
  let models := models_after_batches C (model (self st)) batches in
  first_failure C (model (self st)) batches = Some e ->
  exists st',
    train_epoch C epoch st = (Raise e, st')
    /\ batch_id (timer (world st'))
       = batch_id (timer (world st)) + Z.of_nat (length models)
    /\ warnings (world st') = warnings (world st) ++ flat_map nan_warnings models
    /\ dl_iters (train_loader (self st')) = S (dl_iters (train_loader (self st)))
    /\ dl_fetched (train_loader (self st'))
       = (dl_fetched (train_loader (self st)) + S (length models))%nat.
Proof.
  cbv zeta. intros Hfail.
  destruct (train_epoch C epoch st) as [r st'] eqn:Hrun.
  pose proof (train_epoch_spec C epoch st r st' Hrun) as (Hw & _ & Hk & _).
  cbv zeta in Hw, Hk. destruct Hk as (_ & Hb & _).
  unfold train_epoch in Hrun.
  erewrite bind_run in Hrun by reflexivity.
  erewrite bind_run in Hrun by reflexivity.
  apply bind_inv in Hrun as [([mean outputs] & st2 & Hloop & H)|(e' & Hloop & ->)].
  - apply train_epoch_loop_outcome in Hloop as [_ Hr]. simpl in Hr.
    rewrite Hfail in Hr. destruct Hr as [Habs _]. discriminate Habs.
  - apply train_epoch_loop_outcome in Hloop as [Hi Hr]. simpl in Hi, Hr.
    rewrite Hfail in Hr. destruct Hr as [He Hf]. inversion He; subst e'.
    exists st'. repeat split; assumption.
Qed.

(** X9: a [train_epoch] that returns has made exactly one pass over the
    training loader: one iterator started, every batch of it fetched and
    counted by the timer, and the loader is not empty. *)
Theorem train_epoch_one_pass (epoch : Z) (st st' : State) :
  train_epoch C epoch st = (Ok tt, st') ->
  let batches := dl_epochs (train_loader (self st)) (dl_iters (train_loader (self st))) in
  batches <> []
  /\ dl_iters (train_loader (self st')) = S (dl_iters (train_loader (self st)))
  /\ dl_fetched (train_loader (self st'))
     = (dl_fetched (train_loader (self st)) + length batches)%nat
  /\ batch_id (timer (world st'))
     = batch_id (timer (world st)) + Z.of_nat (length batches)
  /\ first_failure C (model (self st)) batches = None.
Proof.
  cbv zeta. intros Hrun.
  pose proof (train_epoch_spec C epoch st _ st' Hrun) as (_ & _ & Hk & Hlen & Hne).
  cbv zeta in Hk, Hlen, Hne. destruct Hk as (_ & Hb & _). rewrite Hlen in Hb.
  unfold train_epoch in Hrun.
  erewrite bind_run in Hrun by reflexivity.
  erewrite bind_run in Hrun by reflexivity.
  apply bind_Ok in Hrun as ([mean outputs] & st2 & Hloop & H).
  apply train_epoch_loop_outcome in Hloop as [Hi Hr]. simpl in Hi, Hr.
  assert (Hsame : train_loader (self st') = train_loader (self st2)).
  { unfold mean_get_mean in H. destruct (mean_value mean); [|discriminate H].
    erewrite bind_run in H by reflexivity.
    erewrite bind_run in H by reflexivity.
    erewrite bind_run in H by reflexivity.
    cbv beta in H.
    match type of H with context [negb ?b] => destruct (negb b) end.
    - erewrite bind_run in H by reflexivity. inversion H; subst. reflexivity.
    - inversion H; subst. reflexivity. }
  rewrite Hsame.
  destruct (first_failure C (model (self st)) _) as [e|].
  - destruct Hr as [Habs _]. discriminate Habs.
  - destruct Hr as [_ Hf]. repeat split; assumption.
Qed.

(** X10: when no parameter holds a NaN after any batch that was trained,
    [train_epoch] issues no warning, however it ends. *)
Theorem train_epoch_no_nan_no_warning (epoch : Z) (st : State) r st' :
  train_epoch C epoch st = (r, st') ->
  (forall m name p,
     In m (models_after_batches C (model (self st))
             (dl_epochs (train_loader (self st)) (dl_iters (train_loader (self st))))) ->
     In (name, p) (named_parameters m) -> isnan_any p = false) ->
  warnings (world st') = warnings (world st).
Proof.
  intros Hrun Hclean.
  apply train_epoch_spec in Hrun as (Hw & _). cbv zeta in Hw. rewrite Hw.
  rewrite <- (app_nil_r (warnings (world st))) at 2. f_equal.
  apply flat_map_all_nil. intros m Hm. unfold nan_warnings.
  apply flat_map_all_nil. intros [name p] Hp. simpl.
  rewrite (Hclean m name p Hm Hp). reflexivity.
Qed.

End EpochPass.

(** ** More on the adversarial generator *)

Section AttackMore.

Context (C : Collaborators).

Lemma attack_start_old_cells (b : FloatTensor) (st : State) (j : nat) :
  (j < length (heap (world st)))%nat ->
  heap (world (attack_start b st)) !! j = heap (world st) !! j.
Proof.
  intros Hj. unfold attack_start. simpl. apply lookup_app_l. exact Hj.
Qed.

(** X11: however it ends, [get_adversarial_examples] only draws a batch and
    allocates tensors: the parameters of the model, the timer, the file
    system, the trace, the run identifier and every tensor that existed
    before the call are unchanged, and one iterator of the loader has been
    started. *)
Theorem get_adversarial_examples_frame (noise_ampl : f32) (n_iter : Z) (st : State)
    r st' :
  get_adversarial_examples C noise_ampl n_iter st = (r, st') ->
  named_parameters (model (self st')) = named_parameters (model (self st))
  /\ env_name (self st') = env_name (self st)
  /\ timer (world st') = timer (world st)
  /\ fs (world st') = fs (world st)
  /\ trace (world st') = trace (world st)
  /\ warnings (world st') = warnings (world st)
  /\ dl_iters (train_loader (self st')) = S (dl_iters (train_loader (self st)))
  /\ forall j, (j < length (heap (world st)))%nat ->
               heap (world st') !! j = heap (world st) !! j.
Proof.
  rewrite get_adversarial_examples_unfold. cbv zeta.
  destruct (dl_epochs _ _) as [|[batch_images lbls] rest].
  - intros H. inversion H; subst; clear H. simpl. repeat split.
  - destruct (repeat_n _ _ _) as [r0 st2] eqn:Hloop.
    pose proof (adversarial_loop_frame _ _ _ _ _ _ _ _ Hloop)
      as (Hself & Hworld & _ & Hother & _).
    assert (Hold : forall j, (j < length (heap (world st)))%nat ->
                             heap (world st2) !! j = heap (world st) !! j).
    { intros j Hj. rewrite Hother.
      - apply attack_start_old_cells. exact Hj.
      - unfold attack_images. destruct (cuda_is_available (world st)); lia. }
    assert (Hst2 : named_parameters (model (self st2)) = named_parameters (model (self st))
                   /\ env_name (self st2) = env_name (self st)
                   /\ timer (world st2) = timer (world st)
                   /\ fs (world st2) = fs (world st)
                   /\ trace (world st2) = trace (world st)
                   /\ warnings (world st2) = warnings (world st)
                   /\ dl_iters (train_loader (self st2))
                      = S (dl_iters (train_loader (self st)))).
    { rewrite Hself, Hworld. simpl. repeat split. }
    destruct Hst2 as (A1 & A2 & A3 & A4 & A5 & A6 & A7).
    destruct r0 as [[]|e]; intros H; inversion H; subst; clear H; simpl;
      repeat split; assumption.
Qed.

Lemma adversarial_step_run (noise_ampl : f32) (i : nat) (lbls : LongTensor)
    (st : State) (x outputs grad : FloatTensor) (loss : f32) :
  heap (world st) !! i = Some x ->
  model_forward C (model (self st)) x = Ok outputs ->
  criterion_forward C (criterion (self st)) outputs lbls = Ok loss ->
  loss_backward C (model (self st)) (criterion (self st)) x lbls = Ok grad ->
  shape grad = shape x ->
  adversarial_step C noise_ampl i lbls st
  = (Ok tt,
     mkState (self st)
       (set_heap (<[i := Tensor (shape x)
                           (zip_with f32_add (data x)
                              (map (f32_mul noise_ampl) (data grad)))]>
                    (heap (world st))) (world st))).
Proof.
  intros Hx Hf Hc Hb Hs. unfold adversarial_step.
  erewrite bind_run by reflexivity.
  erewrite bind_run by reflexivity.
  erewrite bind_run by (apply run_deref; exact Hx).
  erewrite bind_run by (unfold lift; rewrite Hf; reflexivity).
  erewrite bind_run by (unfold lift; rewrite Hc; reflexivity).
  erewrite bind_run by (unfold lift; rewrite Hb; reflexivity).
  unfold iadd. erewrite bind_run by (apply run_deref; exact Hx).
  unfold shape_eqb. cbn [scalar_mul shape data].
  rewrite bool_decide_eq_true_2 by exact Hs. reflexivity.
Qed.

(** X12: one iteration is one raw gradient step on the model in evaluation
    mode: when the forward pass, the loss and the gradient succeed on the
    drawn batch, the adversarial batch is the batch plus, element by element,
    [noise_ampl] times the gradient, and the original is the batch. *)
Theorem get_adversarial_examples_one_step (noise_ampl : f32) (st : State)
    (batch_images : FloatTensor) (lbls : LongTensor) (rest : list Batch)
    (outputs grad : FloatTensor) (loss : f32) :
  let m := set_training false (model (self st)) in
  dl_epochs (train_loader (self st)) (dl_iters (train_loader (self st)))
  = (batch_images, lbls) :: rest ->
  model_forward C m batch_images = Ok outputs ->
  criterion_forward C (criterion (self st)) outputs lbls = Ok loss ->
  loss_backward C m (criterion (self st)) batch_images lbls = Ok grad ->
  shape grad = shape batch_images ->
  exists ex st',
    get_adversarial_examples C noise_ampl 1 st = (Ok ex, st')
    /\ labels ex = lbls
    /\ heap (world st') !! original ex = Some batch_images
    /\ heap (world st') !! adversarial ex
       = Some (Tensor (shape batch_images)
                 (zip_with f32_add (data batch_images)
                    (map (f32_mul noise_ampl) (data grad)))).
Proof.
  cbv zeta. intros Hb Hf Hc Hg Hs.
  rewrite get_adversarial_examples_unfold. cbv zeta. rewrite Hb.
  destruct (attack_start_lookup batch_images st) as [Himg Horig].
  change (Z.to_nat 1) with 1%nat. cbn [repeat_n].
  erewrite bind_run.
  2:{ apply (adversarial_step_run noise_ampl (attack_images st) lbls
               (attack_start batch_images st) batch_images outputs grad loss);
      assumption. }
  cbn [mret M_ret].
  eexists _, _. split; [reflexivity|]. cbn [labels original adversarial].
  split; [reflexivity|].
  change (heap (world (on_self ?f ?s))) with (heap (world s)).
  cbn [world heap set_heap].
  split.
  - rewrite list_lookup_insert_ne by lia. exact Horig.
  - apply list_lookup_insert_eq. eapply lookup_lt_Some. exact Himg.
Qed.

(** X13: a failure of the forward pass, of the loss or of the gradient
    computation in the first iteration is raised to the caller: no examples
    are produced. *)
Theorem get_adversarial_examples_surfaces_failure (noise_ampl : f32) (n_iter : Z)
    (st : State) (batch_images : FloatTensor) (lbls : LongTensor)
    (rest : list Batch) (e : exn) :
  let m := set_training false (model (self st)) in
  1 <= n_iter ->
  dl_epochs (train_loader (self st)) (dl_iters (train_loader (self st)))
  = (batch_images, lbls) :: rest ->
  (model_forward C m batch_images = Raise e
   \/ (exists outputs,
         model_forward C m batch_images = Ok outputs
         /\ (criterion_forward C (criterion (self st)) outputs lbls = Raise e
             \/ (exists loss,
                   criterion_forward C (criterion (self st)) outputs lbls = Ok loss
                   /\ loss_backward C m (criterion (self st)) batch_images lbls
                      = Raise e)))) ->
  exists st', get_adversarial_examples C noise_ampl n_iter st = (Raise e, st').
Proof.
  cbv zeta. intros Hn Hb Hfail.
  rewrite get_adversarial_examples_unfold. cbv zeta. rewrite Hb.
  destruct (attack_start_lookup batch_images st) as [Himg _].
  replace (Z.to_nat n_iter) with (S (Z.to_nat (n_iter - 1))) by lia.
  cbn [repeat_n].
  assert (Hstep : adversarial_step C noise_ampl (attack_images st) lbls
                    (attack_start batch_images st)
                  = (Raise e, attack_start batch_images st)).
  { unfold adversarial_step.
    erewrite bind_run by reflexivity.
    erewrite bind_run by reflexivity.
    erewrite bind_run by (apply run_deref; exact Himg).
    destruct Hfail as [Hf|(outputs & Hf & [Hc|(loss & Hc & Hg)])].
    - erewrite bind_raise by (unfold lift; simpl; rewrite Hf; reflexivity).
      reflexivity.
    - erewrite bind_run by (unfold lift; simpl; rewrite Hf; reflexivity).
      erewrite bind_raise by (unfold lift; simpl; rewrite Hc; reflexivity).
      reflexivity.
    - erewrite bind_run by (unfold lift; simpl; rewrite Hf; reflexivity).
      erewrite bind_run by (unfold lift; simpl; rewrite Hc; reflexivity).
      erewrite bind_raise by (unfold lift; simpl; rewrite Hg; reflexivity).
      reflexivity. }
  erewrite bind_raise by exact Hstep.
  eexists. reflexivity.
Qed.

End AttackMore.

(** ** The sample the mask hook selects *)

Lemma argmax_from_bound (l : list f32) : forall i best_i best,
  (best_i < i)%nat -> (argmax_from l i best_i best < i + length l)%nat.
Proof.
  induction l as [|x l IH]; intros i best_i best H; cbn [argmax_from length].
  - lia.
  - destruct (f32_gt x best).
    + specialize (IH (S i) i x). lia.
    + specialize (IH (S i) best_i best). lia.
Qed.

Lemma argmax_bound (t : FloatTensor) (i : nat) :
  argmax t = Ok i -> (i < length (data t))%nat.
Proof.
  unfold argmax. destruct (data t) as [|x l]; [discriminate|].
  intros H. inversion H; subst. pose proof (argmax_from_bound l 1 0 x). cbn [length]. lia.
Qed.

Lemma argmax_nonempty (t : FloatTensor) :
  data t <> [] -> exists i, argmax t = Ok i.
Proof.
  unfold argmax. destruct (data t) as [|x l]; [contradiction|]. eauto.
Qed.

Lemma flat_map_length_const {A B : Type} (f : A -> list B) (k : nat) (l : list A) :
  (forall x, length (f x) = k) -> length (flat_map f l) = (k * length l)%nat.
Proof.
  intros H. induction l as [|a l IH]; cbn [flat_map length]; [lia|].
  rewrite length_app, H, IH. lia.
Qed.

(** The row maxima of an [n] by [c] matrix with [c > 0] are [n] values. *)
Lemma max_dim1_matrix (t : FloatTensor) (n c : nat) :
  shape t = [n; S c] ->
  exists pm, max_dim1 t = Ok pm /\ shape pm = [n] /\ length (data pm) = n.
Proof.
  intros Hs. unfold max_dim1. rewrite Hs. eexists. split; [reflexivity|].
  cbn [shape data]. split; [reflexivity|].
  rewrite (flat_map_length_const _ 1).
  - rewrite length_seq. lia.
  - intros i. rewrite length_map, length_seq. reflexivity.
Qed.

Section MaskMore.

Context (C : Collaborators).

(** X14: the pair [train_mask] returns is one sample of the batch it drew:
    the image and the label are the slices of the batch at one and the same
    index, the index that [argmax] gives on the row maxima of the predicted
    probabilities of the model in evaluation mode; the mask plot is the one
    event it adds. *)
Theorem train_mask_selects (st : State) (image : FloatTensor) (label : LongTensor)
    (st' : State) :
  train_mask C st = (Ok (image, label), st') ->
  exists images lbls rest outputs proba proba_max i,
    dl_epochs (train_loader (self st)) (dl_iters (train_loader (self st)))
    = (images, lbls) :: rest
    /\ model_forward C (set_training false (model (self st))) images = Ok outputs
    /\ predict_proba C (accuracy_measure (self st)) outputs = Ok proba
    /\ max_dim1 proba = Ok proba_max
    /\ argmax proba_max = Ok i
    /\ index0 images i = Ok image
    /\ index0 lbls i = Ok label
    /\ trace (world st') = trace (world st) ++ [EvPlotMask].
Proof.
  unfold train_mask, iter_train_loader, next_batch, prepare_eval, mode_restore, emit,
    mbind, M_bind, mret, M_ret, gets, modify, lift, raise.
  cbv zeta. simpl.
  destruct (dl_epochs _ _) as [|[images lbls] rest]; [discriminate|]. simpl.
  destruct (model_forward C _ images) as [outputs|] eqn:Hf; [|discriminate].
  destruct (predict_proba C _ outputs) as [proba|] eqn:Hp; [|discriminate].
  destruct (max_dim1 proba) as [pm|] eqn:Hm; [|discriminate].
  destruct (argmax pm) as [i|] eqn:Ha; [|discriminate].
  destruct (index0 images i) as [img|] eqn:Hi; [|discriminate].
  destruct (index0 lbls i) as [lbl|] eqn:Hl; [|discriminate].
  destruct (plot_mask C _ _ img lbl) as [[]|]; [|discriminate].
  intros H. inversion H; subst; clear H.
  exists images, lbls, rest, outputs, proba, pm, i. simpl. repeat split; assumption.
Qed.

(** X15: on well-shaped data the hook cannot fail by itself: when the batch
    has [n > 0] samples, the probabilities form an [n] by [c] matrix with
    [c > 0] and the collaborators succeed, [train_mask] returns a sample of
    the batch and the model is back in the mode it had. *)
Theorem train_mask_succeeds (st : State) (images : FloatTensor) (lbls : LongTensor)
    (rest : list Batch) (outputs proba : FloatTensor) (n c : nat)
    (s s' : list nat) :
  dl_epochs (train_loader (self st)) (dl_iters (train_loader (self st)))
  = (images, lbls) :: rest ->
  shape images = S n :: s ->
  shape lbls = S n :: s' ->
  model_forward C (set_training false (model (self st))) images = Ok outputs ->
  predict_proba C (accuracy_measure (self st)) outputs = Ok proba ->
  shape proba = [S n; S c] ->
  (forall image label,
     plot_mask C (set_training false (model (self st))) (mask_trainer (self st))
       image label = Ok tt) ->
  exists image label st',
    train_mask C st = (Ok (image, label), st')
    /\ shape image = s /\ shape label = s'
    /\ training (model (self st')) = training (model (self st)).
Proof.
  intros Hb Hsi Hsl Hf Hp Hsp Hplot.
  destruct (max_dim1_matrix proba (S n) c Hsp) as (pm & Hm & _ & Hlen).
  destruct (argmax_nonempty pm) as [i Ha].
  { intros E. rewrite E in Hlen. discriminate Hlen. }
  pose proof (argmax_bound pm i Ha) as Hi. rewrite Hlen in Hi.
  assert (Hii : exists image, index0 images i = Ok image /\ shape image = s).
  { unfold index0. rewrite Hsi. apply Nat.ltb_lt in Hi. rewrite Hi. eauto. }
  assert (Hil : exists label, index0 lbls i = Ok label /\ shape label = s').
  { unfold index0. rewrite Hsl. apply Nat.ltb_lt in Hi. rewrite Hi. eauto. }
  destruct Hii as (image & Hii & Hshi). destruct Hil as (label & Hil & Hshl).
  exists image, label.
  unfold train_mask, iter_train_loader, next_batch, prepare_eval, mode_restore, emit,
    mbind, M_bind, mret, M_ret, gets, modify, lift, raise.
  cbv zeta. simpl. rewrite Hb. simpl. rewrite Hf, Hp, Hm, Ha, Hii, Hil, Hplot.
  eexists. split; [reflexivity|]. simpl. repeat split; assumption.
Qed.

End MaskMore.

(** ** Runs that start from the constructor or from a checkpoint *)

Section Resume.

Context (C : Collaborators).

Lemma train_counter (k epoch_update_step mutual_info_layers : Z)
    (adv mask : bool) (st st' : State) :
  0 <= k ->
  loader_wf (train_loader (self st)) ->
  batches_in_epoch (timer (world st)) = Z.of_nat (dl_len (train_loader (self st))) ->
  train C k epoch_update_step mutual_info_layers adv mask st = (Ok tt, st') ->
  timer_epoch (timer (world st')) = timer_epoch (timer (world st)) + k.
Proof.
  intros Hk Hwf Hinit H. apply train_cadence in H as [_ Ht]. cbv zeta in Ht.
  destruct (Ht Hwf) as [(A & B & _) Hpos]. clear Ht.
  rewrite range_length in B. unfold timer_epoch. rewrite A, B, Hinit.
  destruct (Z.eq_dec k 0) as [->|Hk0].
  - simpl. rewrite Z.add_0_r, Z.add_0_r. reflexivity.
  - assert (Hne : range (timer_epoch (timer (world st)))
                        (timer_epoch (timer (world st)) + k) <> []).
    { intros E. apply (f_equal (@length Z)) in E. rewrite range_length in E.
      simpl in E. lia. }
    specialize (Hpos Hne). rewrite Z2Nat.id by exact Hk.
    apply Z.div_add. lia.
Qed.

(** X16: a trainer fresh from the constructor needs no further assumption
    on its timer: when every iterator of the loader yields [len(loader)]
    batches, a completed [train] of [k >= 0] epochs advances the epoch
    counter by [k]. *)
Theorem init_then_train (a : InitArgs) (w : World) (t : Trainer) (w' : World)
    (k epoch_update_step mutual_info_layers : Z) (adv mask : bool) (st' : State) :
  loader_wf (get_data_loader C (arg_dataset_name a) true) ->
  0 <= k ->
  __init__ C a w = (Ok t, w') ->
  train C k epoch_update_step mutual_info_layers adv mask (mkState t w') = (Ok tt, st') ->
  timer_epoch (timer (world st')) = timer_epoch (timer w') + k.
Proof.
  intros Hwf Hk Hinit Htrain.
  pose proof (init_timer C a w t w' Hinit) as Ht.
  assert (Hl : train_loader t
               = loader_fetched (loader_started
                   (get_data_loader C (arg_dataset_name a) true))).
  { rewrite init_unfold in Hinit. cbv zeta in Hinit.
    destruct (dl_epochs _ _) as [|[images lbls] rest]; [discriminate|].
    destruct (index0 images 0) as [image|e]; [|discriminate].
    inversion Hinit; subst. reflexivity. }
  apply (train_counter k epoch_update_step mutual_info_layers adv mask
           (mkState t w') st' Hk); [| exact Ht | exact Htrain].
  cbn [self]. rewrite Hl. intros i. apply Hwf.
Qed.

Lemma restore_some (arg : option Path) (strict : bool) (st : State)
    (ck : Checkpoint) (st1 : State) :
  restore arg strict st = (Ok (Some ck), st1) ->
  timer (world st1) = timer_set_epoch (ck_epoch ck) (timer (world st))
  /\ train_loader (self st1) = train_loader (self st)
  /\ env_name (self st1) = ck_env_name ck
  /\ torch_load (restore_path arg st) (fs (world st)) = Ok ck.
Proof.
  rewrite restore_unfold. cbv zeta.
  destruct (negb (path_exists _ _)); [discriminate|].
  destruct (torch_load _ _) as [ck0|e]; [|discriminate].
  destruct (load_state_dict _ _ _) as [m' [[]|e]].
  - intros H. inversion H; subst; clear H. simpl. repeat split.
  - destruct e; discriminate.
Qed.

(** X17: a run resumed from a checkpoint continues at the checkpoint's
    epoch: after a successful [restore], a completed [train] of [k >= 0]
    epochs iterates [range(e, e + k)] for the restored epoch [e] and leaves
    the epoch counter at [e + k]. *)
Theorem restore_then_train (arg : option Path) (strict : bool) (st st1 st2 : State)
    (ck : Checkpoint) (k m mutual_info_layers : Z) (adv mask : bool) :
  loader_wf (train_loader (self st)) ->
  batches_in_epoch (timer (world st)) = Z.of_nat (dl_len (train_loader (self st))) ->
  (0 < dl_len (train_loader (self st)))%nat ->
  0 <= k ->
  restore arg strict st = (Ok (Some ck), st1) ->
  train C k m mutual_info_layers adv mask st1 = (Ok tt, st2) ->
  timer_epoch (timer (world st2)) = ck_epoch ck + k
  /\ exists evs,
       trace (world st2) = trace (world st1) ++ evs
       /\ marks evs
          = flat_map (fun epoch =>
                        Epoch epoch ::
                        (if epoch mod m =? 0
                         then [FullPass; Calibration; EpochFinished; CheckpointWrite]
                         else []))
              (range (ck_epoch ck) (ck_epoch ck + k)).
Proof.
  intros Hwf Hinit Hpos Hk Hres Htrain.
  apply restore_some in Hres as (Ht & Hl & _ & _).
  assert (He : timer_epoch (timer (world st1)) = ck_epoch ck).
  { rewrite Ht. apply timer_set_epoch_epoch. rewrite Hinit. lia. }
  split.
  - rewrite <- He.
    apply (train_counter k m mutual_info_layers adv mask st1 st2 Hk);
      [| | exact Htrain].
    + rewrite Hl. exact Hwf.
    + rewrite Ht, Hl. simpl. exact Hinit.
  - apply train_cadence in Htrain as [Htr _]. cbv zeta in Htr. rewrite He in Htr.
    exact Htr.
Qed.

End Resume.

(** ** Instances *)

Lemma train_no_epoch_witness :
  exists st' evs,
    train (demo_collaborators demo_loader) 0 0 1 true true demo_state = (Ok tt, st')
    /\ trace (world st') = trace (world demo_state) ++ evs /\ marks evs = []
    /\ model (self st') = model (self demo_state)
    /\ train_loader (self st') = train_loader (self demo_state)
    /\ timer (world st') = timer (world demo_state)
    /\ fs (world st') = fs (world demo_state)
    /\ warnings (world st') = warnings (world demo_state).
Proof.
  apply (train_no_epoch (demo_collaborators demo_loader) 0 0 1 true true demo_state).
  lia.
Defined.

Lemma train_zero_update_step_witness :
  exists st',
    train (demo_collaborators demo_loader) 2 0 0 false false demo_state
    = (Raise ZeroDivisionError, st')
    /\ batch_id (timer (world st')) = batch_id (timer (world demo_state)) + 1.
Proof.
  destruct (train_zero_update_step (demo_collaborators demo_loader) 2 0 false false
              demo_state ltac:(lia)) as (e & st' & Hrun & Hcase).
  destruct Hcase as [-> Hb].
  - vm_compute. discriminate.
  - vm_compute. reflexivity.
  - exists st'. split; [exact Hrun|exact Hb].
Defined.

Lemma train_epoch_propagates_failure_witness :
  exists st',
    train_epoch failing_step_collaborators 0 demo_state
    = (Raise (RuntimeError "CUDA out of memory"), st')
    /\ batch_id (timer (world st')) = batch_id (timer (world demo_state))
    /\ dl_fetched (train_loader (self st')) = 1%nat.
Proof.
  destruct (train_epoch_propagates_failure failing_step_collaborators 0 demo_state
              (RuntimeError "CUDA out of memory")) as (st' & Hrun & Hb & _ & _ & Hf).
  - vm_compute. reflexivity.
  - exists st'. split; [exact Hrun|]. split.
    + rewrite Hb. vm_compute. reflexivity.
    + rewrite Hf. vm_compute. reflexivity.
Defined.

Lemma train_epoch_one_pass_witness :
  dl_iters (train_loader (self (snd (train_epoch (demo_collaborators demo_loader) 0
                                       demo_state)))) = 1%nat
  /\ dl_fetched (train_loader (self (snd (train_epoch (demo_collaborators demo_loader) 0
                                            demo_state)))) = 1%nat.
Proof.
  destruct (train_epoch_one_pass (demo_collaborators demo_loader) 0 demo_state
              (snd (train_epoch (demo_collaborators demo_loader) 0 demo_state)))
    as (_ & Hi & Hf & _).
  - vm_compute. reflexivity.
  - split; [exact Hi|exact Hf].
Defined.

Lemma train_epoch_no_nan_no_warning_witness :
  warnings (world (snd (train_epoch (demo_collaborators demo_loader) 0 demo_state)))
  = warnings (world demo_state).
Proof.
  apply (train_epoch_no_nan_no_warning (demo_collaborators demo_loader) 0 demo_state
           (fst (train_epoch (demo_collaborators demo_loader) 0 demo_state))).
  - vm_compute. reflexivity.
  - intros m name p Hm Hp. vm_compute in Hm. destruct Hm as [<-|[]].
    vm_compute in Hp. destruct Hp as [E|[E|[]]]; inversion E; reflexivity.
Defined.

Lemma get_adversarial_examples_frame_witness :
  heap (world (snd (get_adversarial_examples (demo_collaborators demo_loader)
                      (f32_of_Z 100) 3 busy_state))) !! 0%nat
  = Some (Tensor [1]%nat [f32_of_Z 7]).
Proof.
  assert (Hrun : get_adversarial_examples (demo_collaborators demo_loader)
                   (f32_of_Z 100) 3 busy_state
                 = (fst (get_adversarial_examples (demo_collaborators demo_loader)
                           (f32_of_Z 100) 3 busy_state),
                    snd (get_adversarial_examples (demo_collaborators demo_loader)
                           (f32_of_Z 100) 3 busy_state))).
  { vm_compute. reflexivity. }
  destruct (get_adversarial_examples_frame _ _ _ _ _ _ Hrun)
    as (_ & _ & _ & _ & _ & _ & _ & Hold).
  eapply eq_trans; [apply (Hold 0%nat)|].
  - vm_compute. lia.
  - vm_compute. reflexivity.
Defined.

Lemma get_adversarial_examples_one_step_witness :
  exists ex st',
    get_adversarial_examples (demo_collaborators demo_loader) (f32_of_Z 100) 1 demo_state
    = (Ok ex, st')
    /\ heap (world st') !! adversarial ex
       = Some (Tensor [2; 2]%nat
                 [f32_of_Z 101; f32_of_Z 102; f32_of_Z 103; f32_of_Z 104]).
Proof.
  destruct (get_adversarial_examples_one_step (demo_collaborators demo_loader)
              (f32_of_Z 100) demo_state (fst demo_batch) (snd demo_batch) []
              (fst demo_batch)
              (Tensor [2; 2]%nat [f32_of_Z 1; f32_of_Z 1; f32_of_Z 1; f32_of_Z 1])
              (f32_of_Z 1))
    as (ex & st' & Hrun & _ & _ & Hadv).
  - vm_compute. reflexivity.
  - vm_compute. reflexivity.
  - vm_compute. reflexivity.
  - vm_compute. reflexivity.
  - vm_compute. reflexivity.
  - exists ex, st'. split; [exact Hrun|]. rewrite Hadv. vm_compute. reflexivity.
Defined.

Lemma get_adversarial_examples_surfaces_failure_witness :
  exists st',
    get_adversarial_examples detached_collaborators (f32_of_Z 100) 10 demo_state
    = (Raise (RuntimeError "element 0 of tensors does not require grad"), st').
Proof.
  apply (get_adversarial_examples_surfaces_failure detached_collaborators
           (f32_of_Z 100) 10 demo_state (fst demo_batch) (snd demo_batch) []).
  - lia.
  - vm_compute. reflexivity.
  - right. exists (fst demo_batch). split; [vm_compute; reflexivity|].
    right. exists (f32_of_Z 1). split; vm_compute; reflexivity.
Defined.

Lemma train_mask_selects_witness :
  exists images lbls rest outputs proba proba_max i,
    dl_epochs (train_loader (self demo_state)) (dl_iters (train_loader (self demo_state)))
    = (images, lbls) :: rest
    /\ model_forward (demo_collaborators demo_loader)
         (set_training false (model (self demo_state))) images = Ok outputs
    /\ predict_proba (demo_collaborators demo_loader)
         (accuracy_measure (self demo_state)) outputs = Ok proba
    /\ max_dim1 proba = Ok proba_max
    /\ argmax proba_max = Ok i
    /\ index0 images i = Ok (Tensor [2]%nat [f32_of_Z 3; f32_of_Z 4])
    /\ index0 lbls i = Ok (Tensor [] [1])
    /\ trace (world (snd (train_mask (demo_collaborators demo_loader) demo_state)))
       = trace (world demo_state) ++ [EvPlotMask].
Proof.
  apply (train_mask_selects (demo_collaborators demo_loader) demo_state).
  vm_compute. reflexivity.
Defined.

Lemma train_mask_succeeds_witness :
  exists image label st',
    train_mask (demo_collaborators demo_loader) demo_state = (Ok (image, label), st')
    /\ shape image = [2]%nat /\ shape label = []
    /\ training (model (self st')) = training (model (self demo_state)).
Proof.
  apply (train_mask_succeeds (demo_collaborators demo_loader) demo_state
           (fst demo_batch) (snd demo_batch) [] (fst demo_batch) (fst demo_batch)
           1 1 [2]%nat []).
  - vm_compute. reflexivity.
  - vm_compute. reflexivity.
  - vm_compute. reflexivity.
  - vm_compute. reflexivity.
  - vm_compute. reflexivity.
  - vm_compute. reflexivity.
  - intros image label. reflexivity.
Defined.

Lemma init_then_train_witness :
  exists t w' st',
    __init__ (demo_collaborators demo_loader) (demo_args None demo_criterion) demo_world
    = (Ok t, w')
    /\ train (demo_collaborators demo_loader) 3 2 0 false false (mkState t w') = (Ok tt, st')
    /\ timer_epoch (timer (world st')) = timer_epoch (timer w') + 3.
Proof.
  eexists _, _, _. split; [vm_compute; reflexivity|]. split; [vm_compute; reflexivity|].
  eapply (init_then_train (demo_collaborators demo_loader)
            (demo_args None demo_criterion) demo_world _ _ 3 2 0 false false).
  - intros i. reflexivity.
  - lia.
  - vm_compute. reflexivity.
  - vm_compute. reflexivity.
Defined.

Lemma restore_then_train_witness :
  timer_epoch (timer (world (snd (train (demo_collaborators demo_loader) 2 1 0 false false
                                    (snd (restore None true resumable_state))))))
  = 5 + 2.
Proof.
  apply (restore_then_train (demo_collaborators demo_loader) None true resumable_state
           (snd (restore None true resumable_state))
           (snd (train (demo_collaborators demo_loader) 2 1 0 false false
                   (snd (restore None true resumable_state))))
           resumable_checkpoint 2 1 0 false false).
  - intros i. reflexivity.
  - reflexivity.
  - vm_compute. lia.
  - lia.
  - vm_compute. reflexivity.
  - vm_compute. reflexivity.
Defined.

(** * Properties of the Caltech preparation *)

Lemma under_refl (p : Path) : under p p.
Proof. exists []. reflexivity. Qed.

Lemma under_length (p q : Path) : under p q -> (length p <= length q)%nat.
Proof. apply suffix_length. Qed.

Lemma under_same_length (p q : Path) :
  length p = length q -> under p q -> p = q.
Proof.
  intros Hl [k Hk]. subst q. rewrite length_app in Hl.
  destruct k; [reflexivity|]. simpl in Hl. lia.
Qed.

Lemma under_cons (p : Path) (x : string) (q : Path) : under p q -> under p (x :: q).
Proof. intros [k ->]. exists (x :: k). reflexivity. Qed.

Lemma under_trans (p q r : Path) : under p q -> under q r -> under p r.
Proof. intros [k ->] [k' ->]. exists (k' ++ k). rewrite app_assoc. reflexivity. Qed.

Lemma mkdir_exist_ok_cases (p : Path) (f f' : gmap (list string) node) :
  mkdir_exist_ok p f = Ok f' -> f' = f \/ f' = <[p := Dir true]> f.
Proof.
  unfold mkdir_exist_ok. destruct (os_mkdir p f) as [f0|e] eqn:E.
  - intros H. injection H as <-. right. apply os_mkdir_preserves in E as [_ E]. exact E.
  - destruct (is_dir p f); [|discriminate]. intros H. injection H as <-. left. reflexivity.
Qed.

Lemma mkdir_exist_ok_frame (p : Path) (f f' : gmap (list string) node) :
  mkdir_exist_ok p f = Ok f' -> forall q, q <> p -> f' !! q = f !! q.
Proof.
  intros H q Hq. apply mkdir_exist_ok_cases in H as [->| ->]; [reflexivity|].
  apply lookup_insert_ne. congruence.
Qed.

(** [os.makedirs] only adds the directory and ancestors of it. *)
Lemma os_makedirs_frame (p : Path) : forall (f f' : gmap (list string) node),
  os_makedirs p f = Ok f' -> forall q, ~ under q p -> f' !! q = f !! q.
Proof.
  induction p as [|x head IH]; intros f f' H q Hq.
  - cbn [os_makedirs] in H. eapply mkdir_exist_ok_frame; [exact H|].
    intros ->. apply Hq. apply under_refl.
  - cbn [os_makedirs] in H.
    assert (Hne : q <> x :: head) by (intros ->; apply Hq; apply under_refl).
    assert (Hh : ~ under q head) by (intros Hu; apply Hq; apply under_cons; exact Hu).
    destruct (negb (path_exists head f)).
    + destruct (os_makedirs head f) as [f1|e] eqn:E.
      * rewrite (mkdir_exist_ok_frame _ _ _ H q Hne). eapply IH; eassumption.
      * destruct e; try discriminate. apply (mkdir_exist_ok_frame _ _ _ H q Hne).
    + apply (mkdir_exist_ok_frame _ _ _ H q Hne).
Qed.

Lemma os_makedirs_preserves (p : Path) : forall (f f' : gmap (list string) node),
  os_makedirs p f = Ok f' -> forall q n, f !! q = Some n -> f' !! q = Some n.
Proof.
  induction p as [|x head IH]; intros f f' H q n Hq.
  - cbn [os_makedirs] in H. eapply mkdir_exist_ok_preserves; eassumption.
  - cbn [os_makedirs] in H. destruct (negb (path_exists head f)).
    + destruct (os_makedirs head f) as [f1|e] eqn:E.
      * eapply mkdir_exist_ok_preserves; [exact H|]. eapply IH; eassumption.
      * destruct e; try discriminate. eapply mkdir_exist_ok_preserves; eassumption.
    + eapply mkdir_exist_ok_preserves; eassumption.
Qed.

Lemma slice_partition {A : Type} (n : Z) (l : list A) :
  slice_to n l ++ slice_from n l = l.
Proof. unfold slice_to, slice_from. apply take_drop. Qed.

Lemma is_jpg_name (p : Path) : is_jpg p = true -> path_name p <> "".
Proof.
  unfold is_jpg, path_suffix. intros H E. rewrite E in H. vm_compute in H.
  discriminate H.
Qed.

(** ** Which entries are images *)

Lemma rfind_dot_app (s t : string) : forall i last,
  rfind_dot (s +:+ t) i last = rfind_dot t (i + String.length s) (rfind_dot s i last).
Proof.
  induction s as [|c s IH]; intros i last; simpl.
  - rewrite Nat.add_0_r. reflexivity.
  - rewrite IH. rewrite Nat.add_succ_r. reflexivity.
Qed.

Lemma substring_app_skip (s t : string) (n : nat) :
  substring (String.length s) n (s +:+ t) = substring 0 n t.
Proof. induction s as [|c s IH]; simpl; [reflexivity|exact IH]. Qed.

Lemma substring_full (s : string) : substring 0 (String.length s) s = s.
Proof. induction s as [|c s IH]; simpl; [reflexivity|]. rewrite IH. reflexivity. Qed.

Lemma substring_split (s : string) : forall i,
  (i <= String.length s)%nat ->
  s = substring 0 i s +:+ substring i (String.length s - i) s.
Proof.
  induction s as [|c s IH]; intros i Hi.
  - destruct i; reflexivity.
  - destruct i as [|i].
    + simpl. rewrite substring_full. reflexivity.
    + simpl in Hi. simpl.
      transitivity (String c (substring 0 i s +:+ substring i (String.length s - i) s));
        [f_equal; apply IH; lia|reflexivity].
Qed.

Lemma length_append (s t : string) :
  String.length (s +:+ t) = (String.length s + String.length t)%nat.
Proof. induction s as [|c s IH]; simpl; [reflexivity|]. rewrite IH. reflexivity. Qed.

(** X24: an entry counts as an image exactly when its name is a non-empty
    stem followed by [.jpg], in lower case. *)
Theorem is_jpg_spec (p : Path) :
  is_jpg p = true <-> exists stem, stem <> "" /\ path_name p = stem +:+ ".jpg".
Proof.
  unfold is_jpg, path_suffix. set (name := path_name p). split.
  - intros H. apply String.eqb_eq in H.
    destruct (rfind_dot name 0 None) as [i|]; [|discriminate H].
    destruct (0 <? i)%nat eqn:H0; [|discriminate H].
    destruct (i <? String.length name - 1)%nat eqn:H1; [|discriminate H].
    simpl in H. apply Nat.ltb_lt in H0, H1.
    exists (substring 0 i name). split.
    + destruct name as [|c rest]; [simpl in H1; lia|].
      destruct i as [|i]; [lia|]. simpl. discriminate.
    + rewrite <- H. apply substring_split. lia.
  - intros (stem & Hne & ->).
    rewrite rfind_dot_app. simpl rfind_dot at 1.
    assert (Hlen : (0 < String.length stem)%nat).
    { destruct stem; [contradiction|]. simpl. lia. }
    rewrite length_append. simpl (String.length ".jpg").
    replace (0 <? String.length stem)%nat with true
      by (symmetry; apply Nat.ltb_lt; lia).
    replace (String.length stem <? String.length stem + 4 - 1)%nat with true
      by (symmetry; apply Nat.ltb_lt; lia).
    simpl andb. cbv iota.
    replace (String.length stem + 4 - String.length stem)%nat with 4%nat by lia.
    rewrite substring_app_skip. reflexivity.
Qed.

Lemma under_cons_inv (q : Path) (x : string) (l : Path) :
  under q (x :: l) -> q = x :: l \/ under q l.
Proof.
  intros [k Hk]. destruct k as [|y k]; [left; symmetry; exact Hk|right].
  injection Hk as -> ->. exists k. reflexivity.
Qed.

Lemma under_sibling (a b : string) (u : Path) : under (a :: u) (b :: u) -> a = b.
Proof.
  intros H. apply under_same_length in H; [|reflexivity]. congruence.
Qed.

Lemma under_cross (a b : string) (u v : Path) :
  ~ under u v -> ~ under (a :: u) (b :: v).
Proof.
  intros Hn H. apply under_cons_inv in H as [E|H].
  - injection E as -> ->. apply Hn, under_refl.
  - apply Hn. eapply under_trans; [|exact H]. exists [a]. reflexivity.
Qed.

Section CaltechProofs.

Context (DATA_DIR : Path).
Context (shuffle : nat -> list Path -> list Path).
Context (rename_dir : Path -> Path -> gmap (list string) node
                      -> result (gmap (list string) node)).
Context (rmtree : Path -> gmap (list string) node -> gmap (list string) node).

(** [random.shuffle] permutes. *)
Hypothesis shuffle_permutes : forall k l, shuffle k l ≡ₚ l.

(** Renaming a directory touches nothing outside the two subtrees. *)
Hypothesis rename_dir_frame : forall src dst f f',
  rename_dir src dst f = Ok f' ->
  forall q, ~ under src q -> ~ under dst q -> f' !! q = f !! q.

(** Removing a tree touches nothing outside it. *)
Hypothesis rmtree_frame : forall p f q, ~ under p q -> rmtree p f !! q = f !! q.

(** The two lists are, together, a permutation of the [.jpg] entries. *)
Lemma split_images_perm (train_part : spec_float) (k : nat)
    (entries train test : list Path) :
  split_images shuffle train_part k entries = Ok (train, test) ->
  train ++ test ≡ₚ List.filter is_jpg entries
  /\ (forall p, p ∈ train ++ test -> p ∈ entries /\ is_jpg p = true).
Proof.
  unfold split_images. destruct (int_of_float _) as [n|e]; [|discriminate].
  intros H. inversion H; subst; clear H. rewrite slice_partition.
  split; [apply shuffle_permutes|].
  intros p Hp. rewrite shuffle_permutes in Hp.
  apply list_elem_of_In, filter_In in Hp as [Hin Hj].
  split; [apply list_elem_of_In; exact Hin|exact Hj].
Qed.

Lemma path_rename_frame (src dst : Path) (f f' : gmap (list string) node) :
  path_rename rename_dir src dst f = Ok f' ->
  forall q, ~ under src q -> ~ under dst q -> f' !! q = f !! q.
Proof.
  unfold path_rename. intros H q Hs Hd.
  assert (Hqs : q <> src) by (intros ->; apply Hs; apply under_refl).
  assert (Hqd : q <> dst) by (intros ->; apply Hd; apply under_refl).
  repeat case_match; try discriminate H; subst.
  - eapply rename_dir_frame; eassumption.
  - injection H as <-. reflexivity.
  - injection H as <-.
    rewrite lookup_insert_ne by congruence.
    rewrite lookup_delete_ne by congruence. reflexivity.
  - injection H as <-.
    rewrite lookup_insert_ne by congruence.
    rewrite lookup_delete_ne by congruence. reflexivity.
Qed.

Lemma path_rename_file (src dst : Path) (f f' : gmap (list string) node)
    (w : bool) (c : file_content) :
  f !! src = Some (File w c) -> src <> dst ->
  path_rename rename_dir src dst f = Ok f' ->
  f' !! src = None /\ f' !! dst = Some (File w c).
Proof.
  intros Hsrc Hne. unfold path_rename. intros H.
  repeat case_match; try discriminate H; try discriminate Hsrc; subst;
    try contradiction;
    injection H as <-; inversion Hsrc; subst;
    (split; [|apply lookup_insert_eq]);
    rewrite lookup_insert_ne by congruence; apply lookup_delete_eq.
Qed.

Lemma under_join (T : Path) (name : string) (q : Path) :
  under (path_join T name) q -> under T q.
Proof.
  unfold path_join. destruct (String.eqb name ""); [auto|].
  intros H. eapply under_trans; [|exact H]. exists [name]. reflexivity.
Qed.

Lemma path_join_name (T : Path) (name : string) :
  name <> "" -> path_join T name = name :: T.
Proof.
  intros H. unfold path_join. destruct (String.eqb_spec name ""); [contradiction|].
  reflexivity.
Qed.

Lemma move_loop_frame (T : Path) (ps : list Path) : forall w r w',
  move_loop rename_dir T ps w = (r, w') ->
  forall q,
    (forall p, p ∈ ps -> ~ under p q /\ ~ under (path_join T (path_name p)) q) ->
    fs w' !! q = fs w !! q.
Proof.
  induction ps as [|p0 ps IH]; intros w r w' H q Hq.
  - inversion H; subst. reflexivity.
  - unfold move_loop in H. cbn [for_each] in H.
    apply bind_inv in H as [([] & w1 & Hstep & Hrest)|(e & Hstep & ->)].
    + erewrite bind_run in Hstep by reflexivity.
      apply bind_Ok in Hstep as (f' & w0 & Hr & Hm).
      unfold lift in Hr. inversion Hr; subst w0; clear Hr.
      inversion Hm; subst w1; clear Hm.
      rewrite (IH _ _ _ Hrest q).
      * simpl. destruct (Hq p0) as [A B]; [left|].
        eapply path_rename_frame; eassumption.
      * intros p Hp. apply Hq. right. exact Hp.
    + erewrite bind_run in Hstep by reflexivity.
      apply bind_inv in Hstep as [(f' & w0 & Hr & Hm)|(e' & Hr & _)].
      * inversion Hm.
      * unfold lift in Hr. inversion Hr; subst. reflexivity.
Qed.

Lemma move_loop_moved (T c : Path) (ps : list Path) : forall w w',
  move_loop rename_dir T ps w = (Ok tt, w') ->
  NoDup ps ->
  (forall p, p ∈ ps -> p <> [] /\ tail p = c /\ path_name p <> "") ->
  ~ under T c -> ~ under c T ->
  forall p wr x,
    p ∈ ps -> fs w !! p = Some (File wr x) ->
    fs w' !! p = None /\ fs w' !! (path_name p :: T) = Some (File wr x).
Proof.
  induction ps as [|p0 ps IH]; intros w w' H Hnd Hch HTc HcT p wr x Hp Hfile.
  - apply elem_of_nil in Hp. destruct Hp.
  - apply NoDup_cons in Hnd as [Hnot Hnd].
    unfold move_loop in H. cbn [for_each] in H.
    apply bind_Ok in H as ([] & w1 & Hstep & Hrest).
    erewrite bind_run in Hstep by reflexivity.
    apply bind_Ok in Hstep as (f' & w0 & Hr & Hm).
    unfold lift in Hr. inversion Hr as [[Hren Hw0]]; subst w0; clear Hr.
    inversion Hm; subst w1; clear Hm.
    destruct (Hch p0) as (Hne0 & Hc0 & Hn0); [left|].
    destruct p0 as [|n0 c0]; [contradiction|]. simpl in Hc0, Hn0. subst c0.
    cbn [path_name hd] in Hren. rewrite (path_join_name T n0 Hn0) in Hren.
    assert (Hshape : forall p', p' ∈ ps -> exists n', p' = n' :: c /\ n' <> "" /\ n' <> n0).
    { intros p' Hp'. destruct (Hch p') as (A & B & D); [right; exact Hp'|].
      destruct p' as [|n' c']; [contradiction|]. simpl in B, D. subst c'.
      exists n'. split; [reflexivity|]. split; [exact D|].
      intros ->. apply Hnot. exact Hp'. }
    apply elem_of_cons in Hp as [->|Hp].
    + (* the file renamed first stays where it went *)
      assert (Hdiff : n0 :: c <> n0 :: T).
      { intros E. injection E as E. apply HcT. rewrite E. apply under_refl. }
      destruct (path_rename_file _ _ _ _ _ _ Hfile Hdiff Hren) as [A B].
      assert (Hkeep : forall q, (q = n0 :: c \/ q = n0 :: T) ->
                fs w' !! q = f' !! q).
      { intros q Hq. change f' with (fs (set_fs f' w)).
        eapply move_loop_frame; [exact Hrest|].
        intros p' Hp'. destruct (Hshape p' Hp') as (n' & -> & Hn' & Hnn).
        cbn [path_name hd]. rewrite (path_join_name T n' Hn').
        destruct Hq as [->| ->]; split; intros Hu.
        - apply under_sibling in Hu. congruence.
        - revert Hu. apply under_cross. exact HTc.
        - revert Hu. apply under_cross. exact HcT.
        - apply under_sibling in Hu. congruence. }
      cbn [path_name hd].
      split; (eapply eq_trans; [apply Hkeep; auto|assumption]).
    + destruct (Hshape p Hp) as (n & -> & Hn & Hnn).
      eapply (IH (set_fs f' w) w' Hrest Hnd); try assumption.
      * intros p' Hp'. apply Hch. right. exact Hp'.
      * simpl. rewrite <- Hfile. eapply path_rename_frame; [exact Hren| |].
        -- intros Hu. apply under_sibling in Hu. congruence.
        -- apply under_cross. exact HTc.
Qed.

Lemma move_files_run (ps : list Path) (T : Path) (w : World) r w' :
  move_files rename_dir ps T w = (r, w') ->
  (exists f1, os_makedirs T (fs w) = Ok f1
              /\ move_loop rename_dir T ps (set_fs f1 w) = (r, w'))
  \/ (exists e, os_makedirs T (fs w) = Raise e /\ r = Raise e /\ w' = w).
Proof.
  unfold move_files, mbind, M_bind, gets, lift, modify.
  destruct (os_makedirs T (fs w)) as [f1|e]; intros H; [left|right].
  - exists f1. split; [reflexivity|exact H].
  - exists e. inversion H; subst. auto.
Qed.

Lemma move_files_moved (ps : list Path) (T c : Path) (w w' : World) :
  move_files rename_dir ps T w = (Ok tt, w') ->
  NoDup ps ->
  (forall p, p ∈ ps -> p <> [] /\ tail p = c /\ path_name p <> "") ->
  ~ under T c -> ~ under c T ->
  forall p wr x,
    p ∈ ps -> fs w !! p = Some (File wr x) ->
    fs w' !! p = None /\ fs w' !! (path_name p :: T) = Some (File wr x).
Proof.
  intros H Hnd Hch HTc HcT p wr x Hp Hfile.
  apply move_files_run in H as [(f1 & Hmk & Hloop)|(e & _ & He & _)];
    [|discriminate He].
  eapply move_loop_moved; try eassumption.
  simpl. eapply os_makedirs_preserves; eassumption.
Qed.

Lemma move_files_untouched (ps : list Path) (T : Path) (w : World) r w' :
  move_files rename_dir ps T w = (r, w') ->
  forall q,
    ~ under q T -> ~ under T q -> (forall p, p ∈ ps -> ~ under p q) ->
    fs w' !! q = fs w !! q.
Proof.
  intros H q HqT HTq Hps.
  apply move_files_run in H as [(f1 & Hmk & Hloop)|(e & _ & _ & ->)];
    [|reflexivity].
  rewrite (move_loop_frame _ _ _ _ _ Hloop q).
  - simpl. eapply os_makedirs_frame; eassumption.
  - intros p Hp. split; [apply Hps; exact Hp|].
    intros Hu. apply HTq. eapply under_join. exact Hu.
Qed.


Lemma children_spec (d p : Path) (f : gmap (list string) node) :
  p ∈ children d f <-> p <> [] /\ tail p = d /\ is_Some (f !! p).
Proof.
  unfold children. rewrite list_elem_of_filter, list_elem_of_fmap. split.
  - intros [[A B] ([k n] & -> & Hin)]. apply elem_of_map_to_list in Hin.
    simpl in *. rewrite Hin. eauto.
  - intros (A & B & [n Hn]). split; [auto|].
    exists (p, n). split; [reflexivity|]. apply elem_of_map_to_list. exact Hn.
Qed.

Lemma children_NoDup (d : Path) (f : gmap (list string) node) : NoDup (children d f).
Proof. unfold children. apply NoDup_filter, NoDup_fst_map_to_list. Qed.

Lemma iterdir_Ok (d : Path) (f : gmap (list string) node) (l : list Path) :
  iterdir d f = Ok l -> l = children d f.
Proof.
  unfold iterdir. destruct (fs_lookup d f) as [[|]|]; intros H;
    try discriminate H. injection H as <-. reflexivity.
Qed.

Lemma split_category_run tp k cat w r w' :
  split_category DATA_DIR shuffle rename_dir tp k cat w = (r, w') ->
  (exists train test,
      split_images shuffle tp k (children cat (fs w)) = Ok (train, test)
      /\ ((exists w1,
             move_files rename_dir train (train_folder DATA_DIR cat) w = (Ok tt, w1)
             /\ move_files rename_dir test (test_folder DATA_DIR cat) w1 = (r, w'))
          \/ (exists e,
                move_files rename_dir train (train_folder DATA_DIR cat) w = (Raise e, w')
                /\ r = Raise e)))
  \/ (w' = w /\ exists e, r = Raise e).
Proof.
  unfold split_category. intros H.
  erewrite bind_run in H by reflexivity.
  apply bind_inv in H as [(entries & w0 & Hit & H)|(e & Hit & ->)].
  - unfold lift in Hit. inversion Hit as [[Hd Hw]]; subst w0.
    apply iterdir_Ok in Hd. subst entries.
    apply bind_inv in H as [([train test] & w0 & Hsp & H)|(e & Hsp & ->)].
    + unfold lift in Hsp. inversion Hsp as [[Hs Hw]]; subst w0.
      left. exists train, test. split; [exact Hs|].
      apply bind_inv in H as [([] & w1 & H1 & H2)|(e & H1 & ->)].
      * left. exists w1. split; assumption.
      * right. exists e. split; [exact H1|reflexivity].
    + unfold lift in Hsp. inversion Hsp; subst. right. eauto.
  - unfold lift in Hit. inversion Hit; subst. right. eauto.
Qed.


Lemma split_category_frame tp k cat w r w' :
  split_category DATA_DIR shuffle rename_dir tp k cat w = (r, w') ->
  forall q,
    ~ under q (train_folder DATA_DIR cat) -> ~ under (train_folder DATA_DIR cat) q ->
    ~ under q (test_folder DATA_DIR cat) -> ~ under (test_folder DATA_DIR cat) q ->
    (forall p, p <> [] -> tail p = cat -> is_jpg p = true -> ~ under p q) ->
    fs w' !! q = fs w !! q.
Proof.
  intros H q A1 A2 B1 B2 Hj.
  apply split_category_run in H as [(train & test & Hsp & H)|[-> _]]; [|reflexivity].
  pose proof (split_images_perm _ _ _ _ _ Hsp) as [_ Hmem].
  assert (Hps : forall p, p ∈ train ++ test -> ~ under p q).
  { intros p Hp. destruct (Hmem p Hp) as [Hin Hjp].
    apply children_spec in Hin as (N & Tl & _). apply Hj; auto. }
  destruct H as [(w1 & H1 & H2)|(e & H1 & _)].
  - rewrite (move_files_untouched _ _ _ _ _ H2 q B1 B2).
    + apply (move_files_untouched _ _ _ _ _ H1 q A1 A2).
      intros p Hp. apply Hps, elem_of_app. left. exact Hp.
    + intros p Hp. apply Hps, elem_of_app. right. exact Hp.
  - apply (move_files_untouched _ _ _ _ _ H1 q A1 A2).
    intros p Hp. apply Hps, elem_of_app. left. exact Hp.
Qed.

Lemma folder_eq (fold cname : string) (rest : Path) :
  fold <> "" -> cname <> "" ->
  path_join (path_join (CALTECH_256 DATA_DIR) fold) (path_name (cname :: rest))
  = cname :: fold :: CALTECH_256 DATA_DIR.
Proof.
  intros Hf Hc. cbn [path_name hd]. rewrite (path_join_name _ fold Hf).
  apply path_join_name. exact Hc.
Qed.

Ltac under_absurd H :=
  unfold under, caltech_root, CALTECH_RAW, CALTECH_256 in H;
  repeat (apply suffix_cons_inv in H as [H|H];
          [ first [ exfalso; apply (f_equal length) in H; simpl in H; lia
                  | injection H; intros; subst; try congruence ]
          | ]);
  try (apply suffix_length in H; simpl in H; lia).

Lemma split_category_moved tp k cname w w' :
  cname <> "" ->
  split_category DATA_DIR shuffle rename_dir tp k (cname :: caltech_root DATA_DIR) w
    = (Ok tt, w') ->
  forall name wr x,
    is_jpg (name :: cname :: caltech_root DATA_DIR) = true ->
    fs w !! (name :: cname :: caltech_root DATA_DIR) = Some (File wr x) ->
    fs w' !! (name :: cname :: caltech_root DATA_DIR) = None
    /\ (fs w' !! (name :: cname :: "train" :: CALTECH_256 DATA_DIR) = Some (File wr x)
        \/ fs w' !! (name :: cname :: "test" :: CALTECH_256 DATA_DIR) = Some (File wr x)).
Proof.
  intros Hc H name wr x Hjpg Hfile.
  apply split_category_run in H as [(train & test & Hsp & H)|[_ [e He]]];
    [|discriminate He].
  destruct H as [(w1 & H1 & H2)|(e & _ & He)]; [|discriminate He].
  unfold train_folder in H1. unfold test_folder in H2.
  rewrite folder_eq in H1, H2 by (assumption || discriminate).
  set (cat := cname :: caltech_root DATA_DIR) in *.
  set (p := name :: cat) in *.
  pose proof (split_images_perm _ _ _ _ _ Hsp) as [Hperm Hmem].
  assert (Hshape : forall p', p' ∈ train ++ test ->
            exists n', p' = n' :: cat /\ n' <> "").
  { intros p' Hp'. destruct (Hmem p' Hp') as [Hin Hj].
    apply children_spec in Hin as (N & Tl & _). apply is_jpg_name in Hj.
    destruct p' as [|n' c']; [contradiction|]. simpl in Tl, Hj. subst c'.
    exists n'. auto. }
  assert (Hch : forall p', p' ∈ train ++ test ->
            p' <> [] /\ tail p' = cat /\ path_name p' <> "").
  { intros p' Hp'. destruct (Hshape p' Hp') as (n' & -> & Hn').
    split; [discriminate|]. split; [reflexivity|exact Hn']. }
  assert (Hnd : NoDup (train ++ test)).
  { rewrite Hperm. apply NoDup_ListNoDup, List.NoDup_filter, NoDup_ListNoDup.
    apply children_NoDup. }
  apply NoDup_app in Hnd as (Hnd1 & Hdisj & Hnd2).
  assert (Hp : p ∈ train ++ test).
  { rewrite Hperm. apply list_elem_of_In, filter_In. split; [|exact Hjpg].
    apply list_elem_of_In, children_spec.
    split; [discriminate|]. split; [reflexivity|]. eexists. exact Hfile. }
  assert (Htc : forall fold : string,
            ~ under (cname :: fold :: CALTECH_256 DATA_DIR) cat
            /\ ~ under cat (cname :: fold :: CALTECH_256 DATA_DIR)).
  { intros fold. split; intros Hu; subst cat; under_absurd Hu. }
  apply elem_of_app in Hp as [Hp|Hp].
  - (* a training image *)
    destruct (move_files_moved _ _ cat _ _ H1 Hnd1) with (p := p) (wr := wr) (x := x)
      as [A B]; try assumption; try apply Htc.
    { intros p' Hp'. apply Hch, elem_of_app. left. exact Hp'. }
    assert (Hkeep : forall q, q = p \/ q = name :: cname :: "train" :: CALTECH_256 DATA_DIR ->
              fs w' !! q = fs w1 !! q).
    { intros q Hq. apply (move_files_untouched _ _ _ _ _ H2 q).
      - intros Hu. subst p cat. destruct Hq as [->| ->]; under_absurd Hu.
      - intros Hu. subst p cat. destruct Hq as [->| ->]; under_absurd Hu.
      - intros p' Hp' Hu.
        destruct (Hshape p') as (n' & -> & Hn'); [apply elem_of_app; right; exact Hp'|].
        destruct Hq as [->| ->].
        + apply under_sibling in Hu. subst n'. apply (Hdisj p Hp Hp').
        + subst p cat. under_absurd Hu. }
    split; [eapply eq_trans; [apply Hkeep; auto|exact A]|].
    left. eapply eq_trans; [apply Hkeep; auto|exact B].
  - (* a test image *)
    assert (Hstay : fs w1 !! p = Some (File wr x)).
    { rewrite <- Hfile. apply (move_files_untouched _ _ _ _ _ H1 p).
      - intros Hu. subst p cat. under_absurd Hu.
      - intros Hu. subst p cat. under_absurd Hu.
      - intros p' Hp' Hu.
        destruct (Hshape p') as (n' & -> & Hn'); [apply elem_of_app; left; exact Hp'|].
        apply under_sibling in Hu. subst n'. apply (Hdisj p Hp' Hp). }
    destruct (move_files_moved _ _ cat _ _ H2 Hnd2) with (p := p) (wr := wr) (x := x)
      as [A B]; try assumption; try apply Htc.
    { intros p' Hp'. apply Hch, elem_of_app. right. exact Hp'. }
    split; [exact A|]. right. exact B.
Qed.


Lemma split_categories_frame tp cats : forall k w r w',
  split_categories DATA_DIR shuffle rename_dir tp k cats w = (r, w') ->
  forall q,
    (forall cat, cat ∈ cats ->
       ~ under q (train_folder DATA_DIR cat) /\ ~ under (train_folder DATA_DIR cat) q
       /\ ~ under q (test_folder DATA_DIR cat) /\ ~ under (test_folder DATA_DIR cat) q
       /\ (forall p, p <> [] -> tail p = cat -> is_jpg p = true -> ~ under p q)) ->
    fs w' !! q = fs w !! q.
Proof.
  induction cats as [|cat0 rest IH]; intros k w r w' H q Hq.
  - inversion H; subst. reflexivity.
  - cbn [split_categories] in H.
    destruct (Hq cat0) as (A1 & A2 & B1 & B2 & Hj); [left|].
    apply bind_inv in H as [([] & w1 & Hstep & Hrest)|(e & Hstep & _)].
    + rewrite (IH _ _ _ _ Hrest q) by (intros cat Hcat; apply Hq; right; exact Hcat).
      eapply split_category_frame; eassumption.
    + eapply split_category_frame; eassumption.
Qed.

Lemma split_categories_moved tp cats : forall k w w',
  split_categories DATA_DIR shuffle rename_dir tp k cats w = (Ok tt, w') ->
  NoDup cats ->
  (forall cat, cat ∈ cats -> exists c, cat = c :: caltech_root DATA_DIR /\ c <> "") ->
  forall cname name wr x,
    cname :: caltech_root DATA_DIR ∈ cats ->
    is_jpg (name :: cname :: caltech_root DATA_DIR) = true ->
    fs w !! (name :: cname :: caltech_root DATA_DIR) = Some (File wr x) ->
    fs w' !! (name :: cname :: caltech_root DATA_DIR) = None
    /\ (fs w' !! (name :: cname :: "train" :: CALTECH_256 DATA_DIR) = Some (File wr x)
        \/ fs w' !! (name :: cname :: "test" :: CALTECH_256 DATA_DIR) = Some (File wr x)).
Proof.
  induction cats as [|cat0 rest IH]; intros k w w' H Hnd Hcats cname name wr x Hin Hjpg Hfile.
  - apply elem_of_nil in Hin. destruct Hin.
  - cbn [split_categories] in H.
    apply bind_Ok in H as ([] & w1 & Hstep & Hrest).
    apply NoDup_cons in Hnd as [Hnot Hnd].
    destruct (Hcats cat0) as (c0 & -> & Hc0); [left|].
    assert (Hothers : forall cat, cat ∈ rest ->
              exists c, cat = c :: caltech_root DATA_DIR /\ c <> "" /\ c <> c0).
    { intros cat Hcat. destruct (Hcats cat) as (c & -> & Hc); [right; exact Hcat|].
      exists c. split; [reflexivity|]. split; [exact Hc|].
      intros ->. apply Hnot. exact Hcat. }
    apply elem_of_cons in Hin as [E|Hin].
    + injection E as ->.
      destruct (split_category_moved _ _ _ _ _ Hc0 Hstep _ _ _ Hjpg Hfile) as [A B].
      assert (Hkeep : forall q,
                q = name :: c0 :: caltech_root DATA_DIR
                \/ (exists fold, (fold = "train" \/ fold = "test")
                                 /\ q = name :: c0 :: fold :: CALTECH_256 DATA_DIR) ->
                fs w' !! q = fs w1 !! q).
      { intros q Hq. apply (split_categories_frame _ _ _ _ _ _ Hrest q).
        intros cat Hcat. destruct (Hothers cat Hcat) as (c & -> & Hc & Hcc).
        unfold train_folder, test_folder.
        rewrite !folder_eq by (assumption || discriminate).
        assert (Hj : forall p, p <> [] -> tail p = c :: caltech_root DATA_DIR ->
                  is_jpg p = true -> ~ under p q).
        { intros p Hp Htl _ Hu. destruct p as [|n t]; [contradiction|].
          simpl in Htl. subst t.
          destruct Hq as [->|(fold & [->| ->] & ->)]; under_absurd Hu. }
        destruct Hq as [->|(fold & [->| ->] & ->)];
          (split; [intros Hu; under_absurd Hu|]);
          (split; [intros Hu; under_absurd Hu|]);
          (split; [intros Hu; under_absurd Hu|]);
          (split; [intros Hu; under_absurd Hu|]); exact Hj. }
      split; [eapply eq_trans; [apply Hkeep; auto|exact A]|].
      destruct B as [B|B]; [left|right];
        (eapply eq_trans; [apply Hkeep; right; eauto|exact B]).
    + assert (Hne : cname <> c0) by (intros ->; apply Hnot; exact Hin).
      eapply (IH _ w1 w' Hrest Hnd); try eassumption.
      * intros cat Hcat. destruct (Hothers cat Hcat) as (c & -> & Hc & _). eauto.
      * rewrite <- Hfile.
        apply (split_category_frame _ _ _ _ _ _ Hstep).
        all: unfold train_folder, test_folder;
          rewrite ?folder_eq by (assumption || discriminate).
        1-4: intros Hu; under_absurd Hu.
        intros p Hp Htl _ Hu. destruct p as [|n t]; [contradiction|].
        simpl in Htl. subst t. under_absurd Hu.
Qed.


Lemma split_train_test_run tp w r w' :
  split_train_test DATA_DIR shuffle rename_dir rmtree tp w = (r, w') ->
  let w0 := set_fs (rmtree (path_join (caltech_root DATA_DIR) "257.clutter") (fs w)) w in
  (exists r1 w1,
      split_categories DATA_DIR shuffle rename_dir tp 0
        (children (caltech_root DATA_DIR) (fs w0)) w0 = (r1, w1)
      /\ fs w' = fs w1 /\ (r = Ok tt -> r1 = Ok tt))
  \/ (fs w' = fs w0 /\ exists e, r = Raise e).
Proof.
  unfold split_train_test. intros H.
  set (w0 := set_fs (rmtree (path_join (caltech_root DATA_DIR) "257.clutter") (fs w)) w).
  erewrite bind_run in H by reflexivity.
  erewrite bind_run in H by reflexivity.
  fold w0 in H.
  apply bind_inv in H as [(cats & w1 & Hit & H)|(e & Hit & ->)].
  - unfold lift in Hit. inversion Hit as [[Hd Hw]]; subst w1.
    apply iterdir_Ok in Hd. subst cats.
    left. apply bind_inv in H as [([] & w1 & Hc & H)|(e & Hc & ->)].
    + exists (Ok tt), w1. split; [exact Hc|]. inversion H; subst. auto.
    + exists (Raise e), w'. split; [exact Hc|]. split; [reflexivity|discriminate].
  - unfold lift in Hit. inversion Hit; subst. right. eauto.
Qed.

Lemma under_path_join (X : Path) (n : string) : under X (path_join X n).
Proof.
  unfold path_join. destruct (String.eqb n ""); [apply under_refl|].
  exists [n]. reflexivity.
Qed.

Lemma under_path_join_inv (q X : Path) (n : string) :
  under q (path_join X n) -> under q X \/ under X q.
Proof.
  unfold path_join. destruct (String.eqb n ""); [auto|].
  intros H. apply under_cons_inv in H as [->|H]; [right|left; exact H].
  exists [n]. reflexivity.
Qed.

Lemma folder_apart (fold : string) (cat q : Path) :
  ~ under (CALTECH_256 DATA_DIR) q -> ~ under q (CALTECH_256 DATA_DIR) ->
  let T := path_join (path_join (CALTECH_256 DATA_DIR) fold) (path_name cat) in
  ~ under q T /\ ~ under T q.
Proof.
  intros H1 H2 T. split; intros Hu.
  - apply under_path_join_inv in Hu as [Hu|Hu].
    + apply under_path_join_inv in Hu as [Hu|Hu]; auto.
    + apply H1. eapply under_trans; [apply under_path_join|exact Hu].
  - apply H1. eapply under_trans; [|exact Hu].
    eapply under_trans; apply under_path_join.
Qed.

(** X21: the split keeps every image: when [split_train_test] returns,
    each regular [.jpg] file of each category folder (other than
    [257.clutter]) is, with its content, in the [train] or in the [test]
    folder of its category under [Caltech256], and no longer in the raw
    tree. *)
Theorem split_train_test_moves_images tp w w' cname name wr x :
  split_train_test DATA_DIR shuffle rename_dir rmtree tp w = (Ok tt, w') ->
  (forall c, is_Some (fs w !! (c :: caltech_root DATA_DIR)) -> c <> "") ->
  is_Some (fs w !! (cname :: caltech_root DATA_DIR)) ->
  cname <> "257.clutter" ->
  is_jpg (name :: cname :: caltech_root DATA_DIR) = true ->
  fs w !! (name :: cname :: caltech_root DATA_DIR) = Some (File wr x) ->
  fs w' !! (name :: cname :: caltech_root DATA_DIR) = None
  /\ (fs w' !! (name :: cname :: "train" :: CALTECH_256 DATA_DIR) = Some (File wr x)
      \/ fs w' !! (name :: cname :: "test" :: CALTECH_256 DATA_DIR) = Some (File wr x)).
Proof.
  intros H Hnames Hcat Hclutter Hjpg Hfile.
  apply split_train_test_run in H as [(r1 & w1 & Hrun & Hfs & Hr)|[_ [e He]]];
    [|discriminate He].
  rewrite (Hr eq_refl) in Hrun. rewrite !Hfs. clear Hfs Hr w'.
  set (clutter := path_join (caltech_root DATA_DIR) "257.clutter") in *.
  set (w0 := set_fs (rmtree clutter (fs w)) w) in *.
  assert (Hkept : forall q, ~ under clutter q -> fs w0 !! q = fs w !! q).
  { intros q Hq. apply rmtree_frame. exact Hq. }
  assert (Hcat0 : fs w0 !! (cname :: caltech_root DATA_DIR)
                  = fs w !! (cname :: caltech_root DATA_DIR)).
  { apply Hkept. intros Hu. apply under_same_length in Hu; [|reflexivity].
    injection Hu as Hu. congruence. }
  assert (Hfile0 : fs w0 !! (name :: cname :: caltech_root DATA_DIR) = Some (File wr x)).
  { rewrite <- Hfile. apply Hkept. intros Hu. subst clutter.
    rewrite path_join_name in Hu by discriminate. under_absurd Hu. }
  eapply split_categories_moved; try eassumption.
  - apply children_NoDup.
  - intros cat Hin. apply children_spec in Hin as (Hne & Htl & Hsome).
    destruct cat as [|c t]; [contradiction|]. simpl in Htl. subst t.
    exists c. split; [reflexivity|].
    destruct (String.eqb_spec c "257.clutter") as [->|Hc]; [discriminate|].
    apply Hnames. rewrite <- Hkept; [exact Hsome|].
    intros Hu. apply under_same_length in Hu; [|reflexivity].
    injection Hu as Hu. congruence.
  - apply children_spec. split; [discriminate|]. split; [reflexivity|].
    destruct Hcat as [n Hn]. exists n. eapply eq_trans; [exact Hcat0|exact Hn].
Qed.

(** X22: whatever its outcome, [split_train_test] changes nothing but the
    [257.clutter] folder, the [Caltech256] tree with the directories above
    it, and the [.jpg] entries of the category folders: every other path,
    such as an entry with another suffix, is as it was. *)
Theorem split_train_test_frame tp w r w' :
  split_train_test DATA_DIR shuffle rename_dir rmtree tp w = (r, w') ->
  forall q,
    ~ under (path_join (caltech_root DATA_DIR) "257.clutter") q ->
    ~ under (CALTECH_256 DATA_DIR) q -> ~ under q (CALTECH_256 DATA_DIR) ->
    (forall name c, is_jpg (name :: c :: caltech_root DATA_DIR) = true ->
                    ~ under (name :: c :: caltech_root DATA_DIR) q) ->
    fs w' !! q = fs w !! q.
Proof.
  intros H q Hclutter H1 H2 Hj.
  assert (Hkept : fs (set_fs (rmtree (path_join (caltech_root DATA_DIR) "257.clutter")
                                     (fs w)) w) !! q = fs w !! q).
  { apply rmtree_frame. exact Hclutter. }
  apply split_train_test_run in H as [(r1 & w1 & Hrun & Hfs & _)|[Hfs _]];
    rewrite Hfs; [|exact Hkept].
  rewrite <- Hkept. apply (split_categories_frame _ _ _ _ _ _ Hrun q).
  intros cat Hin. apply children_spec in Hin as (Hne & Htl & _).
  destruct (folder_apart "train" cat q H1 H2) as [A1 A2].
  destruct (folder_apart "test" cat q H1 H2) as [B1 B2].
  repeat (split; [assumption|]).
  intros p Hp Hpt Hjp. destruct p as [|n t]; [contradiction|].
  simpl in Hpt. subst t. destruct cat as [|c t]; [contradiction|].
  simpl in Htl. subst t. apply Hj. exact Hjp.
Qed.


Lemma is_dir_ext (p : Path) (f f' : gmap (list string) node) :
  f' !! p = f !! p -> is_dir p f' = is_dir p f.
Proof. unfold is_dir, fs_lookup. intros ->. reflexivity. Qed.

Lemma mkdir_exist_ok_is_dir (p : Path) (f f' : gmap (list string) node) :
  mkdir_exist_ok p f = Ok f' -> is_dir p f' = true.
Proof.
  unfold mkdir_exist_ok. destruct (os_mkdir p f) as [f0|e] eqn:E.
  - intros H. injection H as <-. apply os_mkdir_preserves in E as [_ ->].
    unfold is_dir, fs_lookup. rewrite lookup_insert_eq. destruct p; reflexivity.
  - destruct (is_dir p f) eqn:D; [|discriminate]. intros H. injection H as <-. exact D.
Qed.

Lemma os_makedirs_is_dir (p : Path) (f f' : gmap (list string) node) :
  os_makedirs p f = Ok f' -> is_dir p f' = true.
Proof.
  destruct p as [|x head]; cbn [os_makedirs]; [apply mkdir_exist_ok_is_dir|].
  destruct (negb (path_exists head f)); [|apply mkdir_exist_ok_is_dir].
  destruct (os_makedirs head f) as [f1|e]; [apply mkdir_exist_ok_is_dir|].
  destruct e; try discriminate. apply mkdir_exist_ok_is_dir.
Qed.

Lemma move_files_folder (ps : list Path) (T : Path) (w w' : World) :
  move_files rename_dir ps T w = (Ok tt, w') ->
  (forall p, p ∈ ps -> ~ under p T /\ path_name p <> "") ->
  is_dir T (fs w') = true.
Proof.
  intros H Hps.
  apply move_files_run in H as [(f1 & Hmk & Hloop)|(e & _ & He & _)];
    [|discriminate He].
  rewrite (is_dir_ext T f1 (fs w')); [eapply os_makedirs_is_dir; exact Hmk|].
  change f1 with (fs (set_fs f1 w)). eapply move_loop_frame; [exact Hloop|].
  intros p Hp. destruct (Hps p Hp) as [A B]. split; [exact A|].
  rewrite path_join_name by exact B. intros Hu.
  apply under_length in Hu. simpl in Hu. lia.
Qed.

Lemma split_category_folders tp k cname w w' :
  cname <> "" ->
  split_category DATA_DIR shuffle rename_dir tp k (cname :: caltech_root DATA_DIR) w
    = (Ok tt, w') ->
  is_dir (cname :: "train" :: CALTECH_256 DATA_DIR) (fs w') = true
  /\ is_dir (cname :: "test" :: CALTECH_256 DATA_DIR) (fs w') = true.
Proof.
  intros Hc H.
  apply split_category_run in H as [(train & test & Hsp & H)|[_ [e He]]];
    [|discriminate He].
  destruct H as [(w1 & H1 & H2)|(e & _ & He)]; [|discriminate He].
  unfold train_folder in H1. unfold test_folder in H2.
  rewrite folder_eq in H1, H2 by (assumption || discriminate).
  pose proof (split_images_perm _ _ _ _ _ Hsp) as [_ Hmem].
  assert (Hshape : forall p', p' ∈ train ++ test ->
            exists n', p' = n' :: cname :: caltech_root DATA_DIR /\ n' <> "").
  { intros p' Hp'. destruct (Hmem p' Hp') as [Hin Hj].
    apply children_spec in Hin as (N & Tl & _). apply is_jpg_name in Hj.
    destruct p' as [|n' c']; [contradiction|]. simpl in Tl, Hj. subst c'.
    exists n'. auto. }
  assert (Hout : forall (fold : string) p', p' ∈ train ++ test ->
            ~ under p' (cname :: fold :: CALTECH_256 DATA_DIR) /\ path_name p' <> "").
  { intros fold p' Hp'. destruct (Hshape p' Hp') as (n' & -> & Hn').
    split; [|exact Hn']. intros Hu. under_absurd Hu. }
  split.
  - rewrite (is_dir_ext _ (fs w1) (fs w')).
    + apply (move_files_folder _ _ _ _ H1).
      intros p Hp. apply Hout, elem_of_app. left. exact Hp.
    + apply (move_files_untouched _ _ _ _ _ H2).
      * intros Hu. under_absurd Hu.
      * intros Hu. under_absurd Hu.
      * intros p Hp. apply Hout, elem_of_app. right. exact Hp.
  - apply (move_files_folder _ _ _ _ H2).
    intros p Hp. apply Hout, elem_of_app. right. exact Hp.
Qed.

Lemma split_categories_folders tp cats : forall k w w',
  split_categories DATA_DIR shuffle rename_dir tp k cats w = (Ok tt, w') ->
  NoDup cats ->
  (forall cat, cat ∈ cats -> exists c, cat = c :: caltech_root DATA_DIR /\ c <> "") ->
  forall cname,
    cname :: caltech_root DATA_DIR ∈ cats ->
    is_dir (cname :: "train" :: CALTECH_256 DATA_DIR) (fs w') = true
    /\ is_dir (cname :: "test" :: CALTECH_256 DATA_DIR) (fs w') = true.
Proof.
  induction cats as [|cat0 rest IH]; intros k w w' H Hnd Hcats cname Hin.
  - apply elem_of_nil in Hin. destruct Hin.
  - cbn [split_categories] in H.
    apply bind_Ok in H as ([] & w1 & Hstep & Hrest).
    apply NoDup_cons in Hnd as [Hnot Hnd].
    destruct (Hcats cat0) as (c0 & -> & Hc0); [left|].
    assert (Hothers : forall cat, cat ∈ rest ->
              exists c, cat = c :: caltech_root DATA_DIR /\ c <> "" /\ c <> c0).
    { intros cat Hcat. destruct (Hcats cat) as (c & -> & Hc); [right; exact Hcat|].
      exists c. split; [reflexivity|]. split; [exact Hc|].
      intros ->. apply Hnot. exact Hcat. }
    apply elem_of_cons in Hin as [E|Hin].
    + injection E as ->.
      destruct (split_category_folders _ _ _ _ _ Hc0 Hstep) as [A B].
      assert (Hkeep : forall fold : string,
                fs w' !! (c0 :: fold :: CALTECH_256 DATA_DIR)
                = fs w1 !! (c0 :: fold :: CALTECH_256 DATA_DIR)).
      { intros fold. apply (split_categories_frame _ _ _ _ _ _ Hrest).
        intros cat Hcat. destruct (Hothers cat Hcat) as (c & -> & Hc & Hcc).
        unfold train_folder, test_folder.
        rewrite !folder_eq by (assumption || discriminate).
        repeat (split; [intros Hu; under_absurd Hu|]).
        intros p Hp Htl _ Hu. destruct p as [|n t]; [contradiction|].
        simpl in Htl. subst t. under_absurd Hu. }
      rewrite (is_dir_ext _ _ _ (Hkeep "train")), (is_dir_ext _ _ _ (Hkeep "test")).
      split; assumption.
    + eapply (IH _ w1 w' Hrest Hnd); [|exact Hin].
      intros cat Hcat. destruct (Hothers cat Hcat) as (c & -> & Hc & _). eauto.
Qed.

(** X18: the training and the test images of a category are a partition of
    its [.jpg] entries, whatever [train_part] is: an entry is in one of the
    two lists exactly when its suffix is [.jpg], none is in both, and no
    image is lost or doubled. *)
Theorem split_images_partition (train_part : spec_float) (k : nat)
    (entries train test : list Path) :
  NoDup entries ->
  split_images shuffle train_part k entries = Ok (train, test) ->
  (forall p, p ∈ train \/ p ∈ test <-> p ∈ entries /\ is_jpg p = true)
  /\ (forall p, p ∈ train -> p ∉ test)
  /\ (length train + length test = length (List.filter is_jpg entries))%nat.
Proof.
  intros Hnd H. destruct (split_images_perm _ _ _ _ _ H) as [Hperm _].
  split; [|split].
  - intros p. rewrite <- elem_of_app, Hperm, list_elem_of_In, filter_In, <- list_elem_of_In.
    reflexivity.
  - assert (Hnd' : NoDup (train ++ test)).
    { rewrite Hperm. apply NoDup_ListNoDup, List.NoDup_filter, NoDup_ListNoDup.
      exact Hnd. }
    apply NoDup_app in Hnd' as (_ & Hdisj & _). exact Hdisj.
  - rewrite <- length_app. apply Permutation_length. exact Hperm.
Qed.

(** X19: [move_files] moves every listed regular file: when the files are
    distinct entries of one folder and [folder_to] is neither that folder
    nor inside or above it, a call that returns leaves each of them under
    its own name in [folder_to], with its content, and no longer at its old
    path. *)
Theorem move_files_moves (ps : list Path) (T c : Path) (w w' : World) :
  move_files rename_dir ps T w = (Ok tt, w') ->
  NoDup ps ->
  (forall p, p ∈ ps -> p <> [] /\ tail p = c /\ path_name p <> "") ->
  ~ under T c -> ~ under c T ->
  forall p wr x,
    p ∈ ps -> fs w !! p = Some (File wr x) ->
    fs w' !! p = None /\ fs w' !! (path_name p :: T) = Some (File wr x).
Proof. apply move_files_moved. Qed.

(** X20: whatever its outcome, [move_files] changes nothing but
    [folder_to] and the directories above it, what is in [folder_to], and
    the listed paths with what is under them. *)
Theorem move_files_frame (ps : list Path) (T : Path) (w : World) r w' :
  move_files rename_dir ps T w = (r, w') ->
  forall q,
    ~ under q T -> ~ under T q -> (forall p, p ∈ ps -> ~ under p q) ->
    fs w' !! q = fs w !! q.
Proof. apply move_files_untouched. Qed.

(** X23: when [split_train_test] returns, every category folder (other than
    [257.clutter]) has its [train] and its [test] folder under [Caltech256],
    also a category without a single image. *)
Theorem split_train_test_creates_folders tp w w' cname :
  split_train_test DATA_DIR shuffle rename_dir rmtree tp w = (Ok tt, w') ->
  (forall c, is_Some (fs w !! (c :: caltech_root DATA_DIR)) -> c <> "") ->
  is_Some (fs w !! (cname :: caltech_root DATA_DIR)) ->
  cname <> "257.clutter" ->
  is_dir (cname :: "train" :: CALTECH_256 DATA_DIR) (fs w') = true
  /\ is_dir (cname :: "test" :: CALTECH_256 DATA_DIR) (fs w') = true.
Proof.
  intros H Hnames Hcat Hclutter.
  apply split_train_test_run in H as [(r1 & w1 & Hrun & Hfs & Hr)|[_ [e He]]];
    [|discriminate He].
  rewrite (Hr eq_refl) in Hrun. rewrite !Hfs. clear Hfs Hr w'.
  set (clutter := path_join (caltech_root DATA_DIR) "257.clutter") in *.
  set (w0 := set_fs (rmtree clutter (fs w)) w) in *.
  assert (Hkept : forall c : string, c <> "257.clutter" ->
            fs w0 !! (c :: caltech_root DATA_DIR) = fs w !! (c :: caltech_root DATA_DIR)).
  { intros c Hc. apply rmtree_frame. intros Hu.
    apply under_same_length in Hu; [|reflexivity]. injection Hu as Hu. congruence. }
  eapply split_categories_folders; try eassumption.
  - apply children_NoDup.
  - intros cat Hin. apply children_spec in Hin as (Hne & Htl & Hsome).
    destruct cat as [|c t]; [contradiction|]. simpl in Htl. subst t.
    exists c. split; [reflexivity|].
    destruct (String.eqb_spec c "257.clutter") as [->|Hc]; [discriminate|].
    apply Hnames. rewrite <- (Hkept c Hc). exact Hsome.
  - apply children_spec. split; [discriminate|]. split; [reflexivity|].
    destruct Hcat as [n Hn]. exists n.
    eapply eq_trans; [apply (Hkept cname Hclutter)|exact Hn].
Qed.

End CaltechProofs.

(** ** The split on the small raw tree *)

Lemma underb_spec (p q : Path) : underb p q = true <-> under p q.
Proof.
  induction q as [|x q IH]; simpl.
  - destruct (decide (p = [])) as [->|Hne].
    + split; [intros _; apply under_refl|reflexivity].
    + split; [discriminate|]. intros Hu. apply suffix_nil_inv in Hu. contradiction.
  - destruct (decide (p = x :: q)) as [->|Hne].
    + split; [intros _; apply under_refl|reflexivity].
    + rewrite IH. split; [apply under_cons|].
      intros Hu. apply under_cons_inv in Hu as [E|Hu]; [contradiction|exact Hu].
Qed.

Lemma not_under_compute (p q : Path) : underb p q = false -> ~ under p q.
Proof. intros H Hu. apply underb_spec in Hu. congruence. Qed.

Lemma demo_shuffle_permutes (k : nat) (l : list Path) : demo_shuffle k l ≡ₚ l.
Proof. unfold demo_shuffle. symmetry. apply Permutation_rev. Qed.

Lemma demo_rename_dir_frame (src dst : Path) (f f' : gmap (list string) node) :
  demo_rename_dir src dst f = Ok f' ->
  forall q, ~ under src q -> ~ under dst q -> f' !! q = f !! q.
Proof. discriminate. Qed.

Lemma demo_rmtree_frame (p : Path) (f : gmap (list string) node) (q : Path) :
  ~ under p q -> demo_rmtree p f !! q = f !! q.
Proof.
  intros Hu. unfold demo_rmtree.
  assert (Hb : underb p q = false).
  { destruct (underb p q) eqn:E; [|reflexivity]. apply underb_spec in E. contradiction. }
  destruct (f !! q) as [n|] eqn:E.
  - apply map_lookup_filter_Some. split; [exact E|exact Hb].
  - apply map_lookup_filter_None. left. exact E.
Qed.

Lemma demo_split_run : demo_split raw_world = (Ok tt, snd (demo_split raw_world)).
Proof. vm_compute. reflexivity. Qed.

Lemma raw_tree_names (c : string) :
  is_Some (fs raw_world !! (c :: caltech_root demo_data_dir)) -> c <> "".
Proof. intros Hs ->. vm_compute in Hs. destruct Hs as [n Hn]. discriminate Hn. Qed.

Lemma split_images_partition_witness :
  let entries := ["c.jpg" :: "001.ak47" :: demo_root; "notes.txt" :: "001.ak47" :: demo_root;
                  "b.jpg" :: "001.ak47" :: demo_root; "a.jpg" :: "001.ak47" :: demo_root] in
  let train := ["a.jpg" :: "001.ak47" :: demo_root; "b.jpg" :: "001.ak47" :: demo_root] in
  let test := ["c.jpg" :: "001.ak47" :: demo_root] in
  (forall p, p ∈ train \/ p ∈ test <-> p ∈ entries /\ is_jpg p = true)
  /\ (forall p, p ∈ train -> p ∉ test)
  /\ (length train + length test = length (List.filter is_jpg entries))%nat.
Proof.
  intros entries train test.
  apply (split_images_partition demo_shuffle demo_shuffle_permutes
           train_part_default 0 entries train test).
  - apply (bool_decide_unpack _). vm_compute. exact I.
  - vm_compute. reflexivity.
Defined.

Lemma move_files_moves_witness :
  let w' := snd (move_files demo_rename_dir
                   ["a.jpg" :: "001.ak47" :: demo_root; "b.jpg" :: "001.ak47" :: demo_root]
                   ("001.ak47" :: "train" :: CALTECH_256 demo_data_dir) raw_world) in
  fs w' !! ("b.jpg" :: "001.ak47" :: demo_root) = None
  /\ fs w' !! ("b.jpg" :: "001.ak47" :: "train" :: CALTECH_256 demo_data_dir)
     = Some (File false OtherContent).
Proof.
  intros w'.
  apply (move_files_moves demo_rename_dir demo_rename_dir_frame
           ["a.jpg" :: "001.ak47" :: demo_root; "b.jpg" :: "001.ak47" :: demo_root]
           ("001.ak47" :: "train" :: CALTECH_256 demo_data_dir)
           ("001.ak47" :: demo_root) raw_world w').
  - vm_compute. reflexivity.
  - apply (bool_decide_unpack _). vm_compute. exact I.
  - intros p Hp.
    repeat (apply elem_of_cons in Hp as [->|Hp]);
      [| |apply elem_of_nil in Hp; destruct Hp];
      (split; [discriminate|split; [reflexivity|vm_compute; discriminate]]).
  - apply not_under_compute. vm_compute. reflexivity.
  - apply not_under_compute. vm_compute. reflexivity.
  - apply (bool_decide_unpack _). vm_compute. exact I.
  - vm_compute. reflexivity.
Defined.

Lemma move_files_frame_witness :
  let w' := snd (move_files demo_rename_dir
                   ["a.jpg" :: "001.ak47" :: demo_root; "b.jpg" :: "001.ak47" :: demo_root]
                   ("001.ak47" :: "train" :: CALTECH_256 demo_data_dir) raw_world) in
  fs w' !! ("c.jpg" :: "001.ak47" :: demo_root)
  = fs raw_world !! ("c.jpg" :: "001.ak47" :: demo_root).
Proof.
  intros w'.
  apply (move_files_frame demo_rename_dir demo_rename_dir_frame
           ["a.jpg" :: "001.ak47" :: demo_root; "b.jpg" :: "001.ak47" :: demo_root]
           ("001.ak47" :: "train" :: CALTECH_256 demo_data_dir) raw_world
           (fst (move_files demo_rename_dir
                   ["a.jpg" :: "001.ak47" :: demo_root; "b.jpg" :: "001.ak47" :: demo_root]
                   ("001.ak47" :: "train" :: CALTECH_256 demo_data_dir) raw_world)) w').
  - vm_compute. reflexivity.
  - apply not_under_compute. vm_compute. reflexivity.
  - apply not_under_compute. vm_compute. reflexivity.
  - intros p Hp.
    repeat (apply elem_of_cons in Hp as [->|Hp]);
      [| |apply elem_of_nil in Hp; destruct Hp];
      apply not_under_compute; vm_compute; reflexivity.
Defined.

Lemma split_train_test_moves_images_witness :
  let w' := snd (demo_split raw_world) in
  fs w' !! ("b.jpg" :: "001.ak47" :: caltech_root demo_data_dir) = None
  /\ (fs w' !! ("b.jpg" :: "001.ak47" :: "train" :: CALTECH_256 demo_data_dir)
      = Some (File false OtherContent)
      \/ fs w' !! ("b.jpg" :: "001.ak47" :: "test" :: CALTECH_256 demo_data_dir)
         = Some (File false OtherContent)).
Proof.
  intros w'.
  apply (split_train_test_moves_images demo_data_dir demo_shuffle demo_rename_dir
           demo_rmtree demo_shuffle_permutes demo_rename_dir_frame demo_rmtree_frame
           train_part_default raw_world w').
  - exact demo_split_run.
  - exact raw_tree_names.
  - vm_compute. eauto.
  - discriminate.
  - vm_compute. reflexivity.
  - vm_compute. reflexivity.
Defined.

Lemma split_train_test_frame_witness :
  fs (snd (demo_split raw_world)) !! ("y.JPG" :: "001.ak47" :: caltech_root demo_data_dir)
  = fs raw_world !! ("y.JPG" :: "001.ak47" :: caltech_root demo_data_dir).
Proof.
  apply (split_train_test_frame demo_data_dir demo_shuffle demo_rename_dir
           demo_rmtree demo_shuffle_permutes demo_rename_dir_frame demo_rmtree_frame
           train_part_default raw_world (Ok tt) (snd (demo_split raw_world))).
  - exact demo_split_run.
  - apply not_under_compute. vm_compute. reflexivity.
  - apply not_under_compute. vm_compute. reflexivity.
  - apply not_under_compute. vm_compute. reflexivity.
  - intros name c Hj Hu. apply under_same_length in Hu; [|reflexivity].
    injection Hu as -> _. vm_compute in Hj. discriminate Hj.
Defined.

Lemma split_train_test_creates_folders_witness :
  is_dir ("002.flag" :: "train" :: CALTECH_256 demo_data_dir)
         (fs (snd (demo_split raw_world))) = true
  /\ is_dir ("002.flag" :: "test" :: CALTECH_256 demo_data_dir)
            (fs (snd (demo_split raw_world))) = true.
Proof.
  apply (split_train_test_creates_folders demo_data_dir demo_shuffle demo_rename_dir
           demo_rmtree demo_shuffle_permutes demo_rename_dir_frame demo_rmtree_frame
           train_part_default raw_world (snd (demo_split raw_world))).
  - exact demo_split_run.
  - exact raw_tree_names.
  - vm_compute. eauto.
  - discriminate.
Defined.
